(** * Orbital propagation and validation layer: a shallow embedding

    The development follows these source files:

    - [scenario_validator.py]: the velocity validator
      ([circular_orbit_velocity], [escape_velocity],
      [validate_and_fix_scenario], [smart_validate_scenario],
      [fix_scenario_velocities]);
    - [physics_engine.py]: the analytic Kepler solver and the Hohmann
      transfer planner ([solve_kepler], [compute_orbit],
      [compute_hohmann], [compute_multi_orbit]);
    - [rebound_engine.py]: the simulation session ([ReboundEngine] with
      [load_scenario], [load_from_horizons], [reset], [step],
      [get_frame], [get_orbital_elements], [get_trajectories]);
    - [orbital_physics.py]: the unguarded velocity helpers and
      [check_orbit_stability];
    - [ai_scenario_generator.py]: [validate_scenario].

    Numbers.  Python floats are read as real numbers ([R]): [math.sqrt],
    [math.pi], [abs] and the comparisons are the real ones.  Overflow, NaN
    and the rounding error of each floating-point operation are outside
    the model; the decimal rounding that the code asks for explicitly
    ([round(x, n)]) is modelled ([py_round]).

    Dictionaries.  A body and a scenario are JSON objects with a fixed
    schema; every key is read with [dict.get(key, default)], so each field
    is an [option]: [None] is an absent key.

    The REBOUND integrator is an external service: its operations
    (integrate to a time, total energy, move to the centre of mass, orbit
    of a particle) and the integrator names it accepts are the fields of
    the class [REBOUND], and every statement about the session holds for
    any instance.  An integration is taken to return: the exceptions that
    the library raises while integrating, as it does for a simulation
    without particles, are outside the model.  The simulation objects
    live in a store and are reached by reference, so that [sim.copy()]
    yields a fresh object distinct from the live one. *)

From Stdlib Require Import Reals Lra Lia ZArith String List.
From Stdlib Require Import Machin.
From stdpp Require Import base decidable option list gmap strings pretty.

Open Scope R_scope.

(** ** Real-number helpers *)

#[global] Instance Rlt_decision : RelDecision Rlt := Rlt_dec.
#[global] Instance Rle_decision : RelDecision Rle := Rle_dec.
#[global] Instance Rgt_decision : RelDecision Rgt := Rgt_dec.
#[global] Instance Rge_decision : RelDecision Rge := Rge_dec.
#[global] Instance Req_decision : EqDecision R := Req_dec_T.

(** [x ** 2] *)
Definition sq (x : R) : R := x * x.

(** Round half to even on the integers, as Python 3's [round] and
    numpy's [rint]. *)
Definition rint (x : R) : Z :=
  let f := Int_part x in
  let d := x - IZR f in
  if decide (d < 1 / 2) then f
  else if decide (1 / 2 < d) then (f + 1)%Z
  else if Z.even f then f else (f + 1)%Z.

(** [round(x, ndigits)] *)
Definition py_round (x : R) (ndigits : nat) : R :=
  IZR (rint (x * 10 ^ ndigits)) / 10 ^ ndigits.

(** ** scenario_validator.py *)

Module Validator.

(** A body of the scenario wire schema
    [{ name, mass, x, y, vx, vy, color, radius, type }]. *)
Record Body := mkBody {
  body_name   : option string;
  body_mass   : option R;
  body_x      : option R;
  body_y      : option R;
  body_vx     : option R;
  body_vy     : option R;
  body_color  : option string;
  body_radius : option R;
  body_type   : option string;
}.

(** The scenario object; [sc_bodies = None] is a scenario without the
    ["bodies"] key. *)
Record Scenario := mkScenario {
  sc_name        : option string;
  sc_description : option string;
  sc_units       : option string;
  sc_integrator  : option string;
  sc_t_per_frame : option R;
  sc_scale       : option R;
  sc_softening   : option R;
  sc_dt          : option R;
  sc_bodies      : option (list Body);
}.

(** [fixed_body = body.copy(); fixed_body["vx"] = ..; fixed_body["vy"] = ..] *)
Definition set_velocity (b : Body) (vx vy : R) : Body :=
  mkBody (body_name b) (body_mass b) (body_x b) (body_y b)
         (Some vx) (Some vy) (body_color b) (body_radius b) (body_type b).

(** [fixed_scenario = scenario.copy(); fixed_scenario["bodies"] = ..] *)
Definition set_bodies (s : Scenario) (bs : list Body) : Scenario :=
  mkScenario (sc_name s) (sc_description s) (sc_units s) (sc_integrator s)
             (sc_t_per_frame s) (sc_scale s) (sc_softening s) (sc_dt s)
             (Some bs).

(** [G_SOLAR = 4 * math.pi**2] *)
Definition G_SOLAR : R := 4 * sq PI.

Definition circular_orbit_velocity (mass_central radius : R) : R :=
  if decide (radius <= 0 \/ mass_central <= 0) then 0
  else sqrt (G_SOLAR * mass_central / radius).

Definition escape_velocity (mass_central radius : R) : R :=
  if decide (radius <= 0 \/ mass_central <= 0) then 0
  else sqrt (2 * G_SOLAR * mass_central / radius).

(** The three findings; each carries the numbers that the message of the
    source formats. *)
Inductive Problem :=
| TOO_SLOW (v_current v_circular : R)
| TOO_FAST (v_current v_escape : R)
| SUSPICIOUS (v_current v_circular ratio : R).

(** One line of the [issues] list: the warning
    [f"⚠️  {name}: {problem}"] or the correction notice
    [f"   ✓ FIXED {name}: set velocity to {v_circular:.4f} AU/yr ..."]. *)
Inductive Issue :=
| Warning (name : string) (problem : Problem)
| Fixed (name : string) (v_circular : R).

(** [i.startswith("⚠️")] *)
Definition is_warning (i : Issue) : bool :=
  match i with Warning _ _ => true | Fixed _ _ => false end.

(** ["FIXED" in s] *)
Definition contains_FIXED (s : string) : bool :=
  match index 0 "FIXED" s with Some _ => true | None => false end.

(** ["FIXED" in i]: a correction notice always contains the word; a
    warning contains it only through the body name, since neither the
    problem texts nor the formatted numbers do. *)
Definition mentions_FIXED (i : Issue) : bool :=
  match i with
  | Warning name _ => contains_FIXED name
  | Fixed _ _ => true
  end.

Record Stats := mkStats {
  total_bodies : nat;
  issues_found : nat;
  issues_fixed : nat;
}.

(** The returned dictionary; the early return for fewer than two bodies
    has no ["stats"] key. *)
Record Result := mkResult {
  ok       : bool;
  issues   : list Issue;
  scenario : Scenario;
  stats    : option Stats;
}.

(** The chain [if .. elif .. elif ..] that sets [problem] and
    [fix_needed]; [fix_needed] is true exactly when a problem is set. *)
Definition classify (v_current v_circular v_escape : R) : option Problem :=
  if decide (v_current < v_circular * 0.3) then
    Some (TOO_SLOW v_current v_circular)
  else if decide (v_current > v_escape * 1.5) then
    Some (TOO_FAST v_current v_escape)
  else if decide (Rabs (v_current - v_circular) > v_circular * 0.5) then
    let ratio := v_current / v_circular in
    if decide (ratio < 0.7 \/ ratio > 1.4) then
      Some (SUSPICIOUS v_current v_circular ratio)
    else None
  else None.

(** [body.get("name", f"Body-{i}")] *)
Definition display_name (i : nat) (body : Body) : string :=
  default ("Body-" +:+ pretty i) (body_name body).

(** The body of the loop [for i, body in enumerate(bodies[1:], start=1)]:
    the lines appended to [issues] and the body appended to
    [fixed_bodies]. *)
Definition check_body (auto_fix : bool) (M_primary : R) (i : nat)
    (body : Body) : list Issue * Body :=
  let name := display_name i body in
  let x := default 0 (body_x body) in
  let y := default 0 (body_y body) in
  let vx := default 0 (body_vx body) in
  let vy := default 0 (body_vy body) in
  let r := sqrt (sq x + sq y) in
  if decide (r < 1e-10) then ([], body)
  else
    let v_current := sqrt (sq vx + sq vy) in
    let v_circular := circular_orbit_velocity M_primary r in
    let v_escape := escape_velocity M_primary r in
    match classify v_current v_circular v_escape with
    | Some problem =>
        if auto_fix then
          let r_len := sqrt (sq x + sq y) in
          let new_vx := (- y / r_len) * v_circular in
          let new_vy := (x / r_len) * v_circular in
          ([Warning name problem; Fixed name v_circular],
           set_velocity body new_vx new_vy)
        else ([Warning name problem], body)
    | None => ([], body)
    end.

Fixpoint validate_loop (auto_fix : bool) (M_primary : R) (i : nat)
    (bodies : list Body) : list Issue * list Body :=
  match bodies with
  | [] => ([], [])
  | body :: rest =>
      let '(lines, fixed_body) := check_body auto_fix M_primary i body in
      let '(issues, fixed_bodies) :=
        validate_loop auto_fix M_primary (S i) rest in
      (lines ++ issues, fixed_body :: fixed_bodies)
  end.

Definition validate_and_fix_scenario (scenario : Scenario)
    (auto_fix : bool) : Result :=
  let bodies := default [] (sc_bodies scenario) in
  match bodies with
  | primary :: (_ :: _) as others =>
      let M_primary := default 1 (body_mass primary) in
      let '(issues, fixed) := validate_loop auto_fix M_primary 1 others in
      let fixed_bodies := primary :: fixed in
      let fixed_scenario := set_bodies scenario fixed_bodies in
      let found := length (filter (fun i => is_warning i = true) issues) in
      mkResult (bool_decide (found = 0%nat)) issues fixed_scenario
        (Some (mkStats (length bodies) found
           (length (filter (fun i => mentions_FIXED i = true) issues))))
  | _ => mkResult true [] scenario None
  end.

(** [masses.sort(key=lambda x: x[1], reverse=True)]: a stable sort in
    descending order of the mass. *)
Fixpoint insert_desc (p : nat * R) (l : list (nat * R)) : list (nat * R) :=
  match l with
  | [] => [p]
  | q :: l' => if decide (snd p <= snd q) then q :: insert_desc p l'
               else p :: q :: l'
  end.

Definition sort_desc (l : list (nat * R)) : list (nat * R) :=
  foldl (fun acc p => insert_desc p acc) [] l.

(** The function returns the validation result; the line it prints is
    returned beside it. *)
Definition smart_validate_scenario (scenario : Scenario) (verbose : bool)
    : list string * Result :=
  let bodies := default [] (sc_bodies scenario) in
  if decide (length bodies < 2)%nat then ([], mkResult true [] scenario None)
  else
    let masses := sort_desc (imap (fun i b => (i, default 0 (body_mass b))) bodies) in
    let primary_idx := default 0%nat (fst <$> masses !! 0%nat) in
    let M_primary :=
      default 1 (bodies !! primary_idx ≫= body_mass) in
    if decide (2 <= length masses)%nat then
      if decide (default 0 (snd <$> masses !! 1%nat) > M_primary * 0.3) then
        (if verbose
         then ["  Detected multi-star system - using relaxed validation"%string]
         else [],
         validate_and_fix_scenario scenario true)
      else ([], validate_and_fix_scenario scenario true)
    else ([], validate_and_fix_scenario scenario true).

(** Quantities that the specification of the validator names: the
    distance of a body from the origin and its speed. *)
Definition orbit_radius (b : Body) : R :=
  sqrt (sq (default 0 (body_x b)) + sq (default 0 (body_y b))).

Definition speed (b : Body) : R :=
  sqrt (sq (default 0 (body_vx b)) + sq (default 0 (body_vy b))).

(** The lines that the loop appends for one body. *)
Definition findings (auto_fix : bool) (M_primary : R) (i : nat)
    (body : Body) : list Issue :=
  fst (check_body auto_fix M_primary i body).

(** The scenario of the specification's worked example: a body at
    [x = 0.00257] with [vy = 6.396] around a primary of mass
    [3.003e-6]. *)
Definition earth : Body :=
  mkBody (Some "Earth"%string) (Some 3.003e-6) (Some 0) (Some 0)
         (Some 0) (Some 0) None None None.

Definition moon : Body :=
  mkBody (Some "Moon"%string) (Some 3.7e-8) (Some 0.00257) (Some 0)
         (Some 0) (Some 6.396) None None None.

Definition moon_example : Scenario :=
  mkScenario (Some "Earth-Moon"%string) None None None None None None None
    (Some [earth; moon]).

(** A line written to standard output: a text, or an issue printed as
    [f"    {issue}"]. *)
Inductive Printed :=
| Text (line : string)
| IssueLine (i : Issue).

(** [fix_scenario_velocities]: the scenario it returns, with the lines
    it prints. *)
Definition fix_scenario_velocities (s : Scenario) : list Printed * Scenario :=
  let '(out, result) := smart_validate_scenario s false in
  (map Text out ++
   (if ok result then []
    else Text "⚠️  Velocity issues detected and fixed:" :: map IssueLine (issues result)),
   scenario result).

End Validator.

(** ** Exceptions *)

Inductive exn :=
| ValueError
| ZeroDivisionError
| IndexError
| KeyError (key : string)
| RuntimeError (msg : string).

(** A computation that returns a value or raises. *)
Definition Exc (A : Type) : Type := exn + A.

Definition raise {A} (e : exn) : Exc A := inl e.
Definition ret {A} (a : A) : Exc A := inr a.
Definition bind {A B} (m : Exc A) (k : A -> Exc B) : Exc B :=
  match m with inl e => inl e | inr a => k a end.

Notation "'let*' x := m 'in' k" := (bind m (fun x => k))
  (at level 10, x name, m at level 100, k at level 200).

(** ** physics_engine.py *)

Module Physics.

Record Planet := mkPlanet {
  pl_a      : R;
  pl_e      : R;
  pl_i      : R;
  pl_period : R;
  pl_color  : string;
  pl_mass   : R;
}.

Definition SOLAR_SYSTEM : list (string * Planet) :=
  [ ("mercury", mkPlanet 0.387 0.2056 7.00 87.97   "#b5b5b5" 0.055);
    ("venus",   mkPlanet 0.723 0.0067 3.39 224.70  "#e8cda0" 0.815);
    ("earth",   mkPlanet 1.000 0.0167 0.00 365.25  "#4fffb0" 1.000);
    ("mars",    mkPlanet 1.524 0.0934 1.85 686.97  "#ff6b35" 0.107);
    ("jupiter", mkPlanet 5.203 0.0489 1.30 4332.59 "#c88b3a" 317.8);
    ("saturn",  mkPlanet 9.537 0.0565 2.49 10759.2 "#e4d191" 95.2);
    ("uranus",  mkPlanet 19.19 0.0457 0.77 30688.5 "#7de8e8" 14.5);
    ("neptune", mkPlanet 30.07 0.0113 1.77 60182.0 "#3f54ba" 17.1) ]%string.

(** [SOLAR_SYSTEM.get(name)] *)
Fixpoint get (name : string) (table : list (string * Planet)) : option Planet :=
  match table with
  | [] => None
  | (k, p) :: rest => if String.eqb name k then Some p else get name rest
  end.

(** [str.lower] on ASCII letters. *)
Definition lower_ascii (c : Ascii.ascii) : Ascii.ascii :=
  let n := Ascii.nat_of_ascii c in
  if (65 <=? n)%nat && (n <=? 90)%nat then Ascii.ascii_of_nat (n + 32) else c.

Fixpoint lower (s : string) : string :=
  match s with
  | EmptyString => EmptyString
  | String c s' => String (lower_ascii c) (lower s')
  end.

(** [np.linspace(start, stop, num)] *)
Definition linspace (start stop : R) (num : nat) : list R :=
  match num with
  | O => []
  | S O => [start]
  | S (S _) =>
      let step := (stop - start) / INR (num - 1) in
      map (fun k => start + INR k * step) (seq 0 num)
  end.

(** [np.max(a)]; it raises on an empty array. *)
Definition np_max (a : list R) : Exc R :=
  match a with
  | [] => raise ValueError
  | x :: rest => ret (fold_left Rmax rest x)
  end.

Definition np_min (a : list R) : Exc R :=
  match a with
  | [] => raise ValueError
  | x :: rest => ret (fold_left Rmin rest x)
  end.

(** [np.arctan2(y, x)] *)
Definition arctan2 (y x : R) : R :=
  if decide (0 < x) then atan (y / x)
  else if decide (x < 0) then
    if decide (0 <= y) then atan (y / x) + PI else atan (y / x) - PI
  else if decide (0 < y) then PI / 2
  else if decide (y < 0) then - (PI / 2)
  else 0.

(** The loop [for _ in range(100)] of [solve_kepler], with the number of
    iterations left; [M] and [E] are arrays of equal length. *)
Fixpoint solve_kepler_loop (fuel : nat) (M E : list R) (e tol : R)
    : Exc (list R) :=
  match fuel with
  | O => ret E
  | S fuel' =>
      let dE := zip_with (fun m x => (m - x + e * sin x) / (1 - e * cos x)) M E in
      let E' := zip_with Rplus E dE in
      let* worst := np_max (map Rabs dE) in
      if decide (worst < tol) then ret E'
      else solve_kepler_loop fuel' M E' e tol
  end.

Definition solve_kepler (M : list R) (e : R) (tol : R) : Exc (list R) :=
  solve_kepler_loop 100 M M e tol.

Record Elements := mkElements {
  semi_major_axis_au : R;
  eccentricity       : R;
  period_days        : R;
  perihelion_au      : R;
  aphelion_au        : R;
  max_speed_au_day   : R;
  min_speed_au_day   : R;
}.

Record OrbitData := mkOrbitData {
  od_body     : string;
  od_x        : list R;
  od_y        : list R;
  od_r        : list R;
  od_v        : list R;
  od_t        : list R;
  od_color    : string;
  od_elements : Elements;
}.

(** The factor applied to the vis-viva speed in [compute_orbit]. *)
Definition speed_factor : R := 365.25 / (2 * PI).

(** [compute_orbit(body_name, duration_days, steps)]; the value [None]
    is the source's [return None] for an unknown body. *)
Definition compute_orbit (body_name : string) (duration_days : R)
    (steps : nat) : Exc (option OrbitData) :=
  match get (lower body_name) SOLAR_SYSTEM with
  | None => ret None
  | Some body =>
      let a := pl_a body in
      let e := pl_e body in
      let period := pl_period body in
      let t := linspace 0 duration_days steps in
      let M := map (fun tk => 2 * PI * tk / period) t in
      let* E := solve_kepler M e 1e-10 in
      let nu := map (fun Ek => 2 * arctan2 (sqrt (1 + e) * sin (Ek / 2))
                                           (sqrt (1 - e) * cos (Ek / 2))) E in
      let r := map (fun nuk => a * (1 - sq e) / (1 + e * cos nuk)) nu in
      let x := zip_with (fun rk nuk => rk * cos nuk) r nu in
      let y := zip_with (fun rk nuk => rk * sin nuk) r nu in
      let GM := 4 * sq PI in
      let v := map (fun rk => sqrt (GM * (2 / rk - 1 / a)) * speed_factor) r in
      let* vmax := np_max v in
      let* vmin := np_min v in
      ret (Some (mkOrbitData body_name x y r v t (pl_color body)
        (mkElements a e (py_round period 2)
           (py_round (a * (1 - e)) 4) (py_round (a * (1 + e)) 4)
           (py_round vmax 6) (py_round vmin 6))))
  end.

Record Hohmann := mkHohmann {
  h_from          : string;
  h_to            : string;
  r1_au           : R;
  r2_au           : R;
  delta_v1        : R;
  delta_v2        : R;
  total_delta_v   : R;
  transfer_days   : R;
  transfer_x      : list R;
  transfer_y      : list R;
}.

(** The computation of [compute_hohmann] once both radii are known. *)
Definition hohmann_plan (body1 body2 : string) (r1 r2 : R) : Hohmann :=
  let GM := 4 * sq PI in
  let v1 := sqrt (GM / r1) in
  let v2 := sqrt (GM / r2) in
  let a_t := (r1 + r2) / 2 in
  let v_t1 := sqrt (GM * (2 / r1 - 1 / a_t)) in
  let v_t2 := sqrt (GM * (2 / r2 - 1 / a_t)) in
  let dv1 := Rabs (v_t1 - v1) in
  let dv2 := Rabs (v2 - v_t2) in
  let T := PI * sqrt (a_t ^ 3 / GM) * 365.25 in
  let e_t := (r2 - r1) / (r2 + r1) in
  let nu := linspace 0 PI 300 in
  let r_t := map (fun nuk => a_t * (1 - sq e_t) / (1 + e_t * cos nuk)) nu in
  let x_t := zip_with (fun rk nuk => rk * cos nuk) r_t nu in
  let y_t := zip_with (fun rk nuk => rk * sin nuk) r_t nu in
  mkHohmann body1 body2 r1 r2 (py_round dv1 4) (py_round dv2 4)
    (py_round (dv1 + dv2) 4) (py_round T 1) x_t y_t.

(** [compute_hohmann(body1, body2)]; [None] is the source's
    [return None] when a name is not in the table. *)
Definition compute_hohmann (body1 body2 : string) : option Hohmann :=
  match get body1 SOLAR_SYSTEM, get body2 SOLAR_SYSTEM with
  | Some b1, Some b2 => Some (hohmann_plan body1 body2 (pl_a b1) (pl_a b2))
  | _, _ => None
  end.

(** The steps that the specification of the solver names, for one
    sample: the Newton-Raphson update for Kepler's equation, the iterate
    after [n] updates from the seed [E0 = M], the correction applied by
    update [n], the half-angle form of the true anomaly, the polar conic
    equation and the vis-viva speed. *)
Definition newton_update (e M E : R) : R :=
  E + (M - E + e * sin E) / (1 - e * cos E).

Definition newton_iterate (e M : R) (n : nat) : R :=
  Nat.iter n (newton_update e M) M.

Definition correction (e M : R) (n : nat) : R :=
  let E := newton_iterate e M (n - 1) in
  (M - E + e * sin E) / (1 - e * cos E).

(** The largest correction of update [n] over all samples is below
    [tol]. *)
Definition converged (e tol : R) (Ms : list R) (n : nat) : Prop :=
  Forall (fun M => Rabs (correction e M n) < tol) Ms.

Definition true_anomaly (e E : R) : R :=
  2 * arctan2 (sqrt (1 + e) * sin (E / 2)) (sqrt (1 - e) * cos (E / 2)).

Definition conic_radius (a e nu : R) : R :=
  a * (1 - sq e) / (1 + e * cos nu).

Definition vis_viva (GM r a : R) : R := sqrt (GM * (2 / r - 1 / a)).

(** [compute_multi_orbit] *)
Fixpoint compute_multi_orbit (bodies : list string) (duration_days : R)
    (steps : nat) : Exc (list OrbitData) :=
  match bodies with
  | [] => ret []
  | body :: rest =>
      let* orbit := compute_orbit body duration_days steps in
      let* results := compute_multi_orbit rest duration_days steps in
      ret (match orbit with Some o => o :: results | None => results end)
  end.

End Physics.

(** ** rebound_engine.py *)

Module Rebound.

(** A particle of the integrator, as far as the engine reads it
    ([p.m], [p.x], [p.y], [p.vx], [p.vy]). *)
Record Particle := mkParticle {
  p_m  : R;
  p_x  : R;
  p_y  : R;
  p_vx : R;
  p_vy : R;
}.

(** A [rebound.Simulation] object: [sim.t], [sim.particles] (so [sim.N]
    is their number) and the settings that [load_scenario] writes. *)
Record Simulation := mkSimulation {
  sim_t          : R;
  sim_particles  : list Particle;
  sim_units      : option (string * string * string);
  sim_integrator : string;
  sim_softening  : R;
  sim_dt         : R;
}.

Definition sim_N (s : Simulation) : nat := length (sim_particles s).

(** What [p.orbit(primary=primary)] returns. *)
Record Orbit := mkOrbit {
  orb_a     : R;
  orb_e     : R;
  orb_inc   : R;
  orb_Omega : R;
  orb_omega : R;
  orb_f     : R;
  orb_P     : R;
  orb_n     : R;
}.

(** The numeric integration service.  [rb_orbit] returns the message of
    the exception when the orbit computation raises;
    [rb_known_integrator] tells the integrator names that the library
    accepts. *)
Class REBOUND := {
  rb_integrate        : Simulation -> R -> Simulation;
  rb_energy           : Simulation -> R;
  rb_move_to_com      : Simulation -> Simulation;
  rb_orbit            : Particle -> Particle -> string + Orbit;
  rb_known_integrator : string -> bool;
}.

(** An entry of [self.body_info]. *)
Record BodyInfo := mkBodyInfo {
  info_name   : string;
  info_color  : string;
  info_radius : R;
  info_type   : string;
}.

(** A body of a frame. *)
Record BodyState := mkBodyState {
  bs_name   : string;
  bs_x      : R;
  bs_y      : R;
  bs_vx     : R;
  bs_vy     : R;
  bs_speed  : R;
  bs_mass   : R;
  bs_color  : string;
  bs_radius : R;
  bs_type   : string;
}.

Record Frame := mkFrame {
  fr_t            : R;
  fr_N            : nat;
  fr_bodies       : list BodyState;
  fr_energy_drift : R;
}.

(** An entry of the list returned by [get_orbital_elements]:
    [{name, a, e, inc, Omega, omega, f, P, n}] or [{name, error}]. *)
Inductive ElementEntry :=
| ElementsOf (name : string) (a e inc Omega omega f P n : R)
| ErrorOf (name : string) (error : string).

(** Simulation objects are mutable and shared by reference: the store
    maps a reference to the object's current state. *)
Definition ref := positive.
Abbreviation Store := (gmap ref Simulation).

(** The attributes of a [ReboundEngine] that its methods read;
    [sim = None] is [self.sim is None].  ([self.meta] and [self.bodies]
    are written by the loaders and read by no method.) *)
Record ReboundEngine := mkEngine {
  sim              : option ref;
  body_info        : list BodyInfo;
  t_per_frame      : R;
  scale            : R;
  E0               : R;
  initial_scenario : option Validator.Scenario;
}.

(** [ReboundEngine.__init__] *)
Definition init : ReboundEngine :=
  mkEngine None [] 0.01 1.0 0.0 None.

(** A method call runs on the store and returns or raises. *)
Definition Call (A : Type) : Type := Store -> Exc A * Store.

(** Reading the object behind a reference. *)
Definition deref (l : ref) (σ : Store) : Exc Simulation :=
  match σ !! l with
  | Some s => ret s
  | None => raise (RuntimeError "dangling reference")
  end.

Section Engine.

Context `{REBOUND}.

(** [rebound.Simulation()] *)
Definition new_simulation : Simulation :=
  mkSimulation 0 [] None "ias15" 0 0.001.

(** [sim.add(m=.., x=.., y=.., z=0, vx=.., vy=.., vz=0)] *)
Definition sim_add (s : Simulation) (p : Particle) : Simulation :=
  mkSimulation (sim_t s) (sim_particles s ++ [p]) (sim_units s)
    (sim_integrator s) (sim_softening s) (sim_dt s).

Definition particle_of_body (b : Validator.Body) : Particle :=
  mkParticle (default 1.0 (Validator.body_mass b))
             (default 0.0 (Validator.body_x b))
             (default 0.0 (Validator.body_y b))
             (default 0.0 (Validator.body_vx b))
             (default 0.0 (Validator.body_vy b)).

(** The loop of [load_scenario] that fills [self.body_info]. *)
Fixpoint body_infos (k : nat) (bodies : list Validator.Body) : list BodyInfo :=
  match bodies with
  | [] => []
  | b :: rest =>
      mkBodyInfo (default ("Body-" +:+ pretty k) (Validator.body_name b))
                 (default "#ffffff"%string (Validator.body_color b))
                 (default 5 (Validator.body_radius b))
                 (default "planet"%string (Validator.body_type b))
      :: body_infos (S k) rest
  end.

(** [for i, p in enumerate(self.sim.particles)] of [get_frame]. *)
Fixpoint frame_bodies (info : list BodyInfo) (i : nat) (ps : list Particle)
    : list BodyState :=
  match ps with
  | [] => []
  | p :: rest =>
      let inf := info !! i in
      let speed := sqrt (sq (p_vx p) + sq (p_vy p)) in
      mkBodyState (default ("Body-" +:+ pretty i) (info_name <$> inf))
                  (py_round (p_x p) 6) (py_round (p_y p) 6)
                  (py_round (p_vx p) 6) (py_round (p_vy p) 6)
                  (py_round speed 6) (py_round (p_m p) 9)
                  (default "#ffffff"%string (info_color <$> inf))
                  (default 5 (info_radius <$> inf))
                  (default "planet"%string (info_type <$> inf))
      :: frame_bodies info (S i) rest
  end.

(** [ReboundEngine.get_frame] *)
Definition get_frame (self : ReboundEngine) : Call Frame := fun σ =>
  match sim self with
  | None => (ret (mkFrame 0.0 0 [] 0.0), σ)
  | Some l =>
      (let* s := deref l σ in
       let bodies := frame_bodies (body_info self) 0 (sim_particles s) in
       let E_now := rb_energy s in
       let drift := if decide (E0 self <> 0)
                    then Rabs ((E_now - E0 self) / E0 self) else 0.0 in
       ret (mkFrame (py_round (sim_t s) 6) (sim_N s) bodies
              (py_round drift 12)), σ)
  end.

(** [ReboundEngine.step] *)
Definition step (self : ReboundEngine) (n_frames : nat) : Call Frame := fun σ =>
  match sim self with
  | None =>
      (raise (RuntimeError
         "No simulation loaded. Call load_scenario() or load_from_horizons() first."),
       σ)
  | Some l =>
      match σ !! l with
      | None => (raise (RuntimeError "dangling reference"), σ)
      | Some s =>
          let σ' := <[l := rb_integrate s (sim_t s + t_per_frame self * INR n_frames)]> σ in
          get_frame self σ'
      end
  end.

(** [sim.integrator = integrator]: the setter raises [ValueError] for a
    name that the library does not know. *)
Definition set_integrator (s : Simulation) (integrator : string)
    : Exc Simulation :=
  if rb_known_integrator integrator
  then ret (mkSimulation (sim_t s) (sim_particles s) (sim_units s)
              integrator (sim_softening s) (sim_dt s))
  else raise ValueError.

(** [ReboundEngine.load_scenario]: a new simulation object is created
    and [self.sim] is bound to it.  The call returns the first frame or
    raises, together with the attributes of [self] after the call.  The
    assignment of the integrator raises [ValueError] for an unknown
    name, after [self.sim] has been replaced and the units set;
    [scenario["bodies"]] raises [KeyError] when the key is absent, after
    [self.t_per_frame] and [self.scale] have been assigned as well. *)
Definition load_scenario (self : ReboundEngine) (scenario : Validator.Scenario)
    : Store -> Exc Frame * ReboundEngine * Store := fun σ =>
  let l := fresh (dom σ) in
  let s0 := new_simulation in
  let units := default "solar"%string (Validator.sc_units scenario) in
  let s_units := mkSimulation (sim_t s0) (sim_particles s0)
                   (if decide (units = "solar"%string)
                    then Some ("AU", "yr", "Msun")%string else sim_units s0)
                   (sim_integrator s0) (sim_softening s0) (sim_dt s0) in
  let integrator := default "ias15"%string (Validator.sc_integrator scenario) in
  match set_integrator s_units integrator with
  | inl e =>
      (inl e,
       mkEngine (Some l) (body_info self) (t_per_frame self) (scale self)
                (E0 self) (initial_scenario self),
       <[l := s_units]> σ)
  | inr s_int =>
      let softening := default 0.0 (Validator.sc_softening scenario) in
      let s1 := mkSimulation (sim_t s_int) (sim_particles s_int)
                  (sim_units s_int) (sim_integrator s_int)
                  (if decide (softening > 0) then softening
                   else sim_softening s_int)
                  (if decide (integrator = "whfast" \/ integrator = "leapfrog"
                              \/ integrator = "saba")%string
                   then default 0.001 (Validator.sc_dt scenario)
                   else sim_dt s_int) in
      let t_per_frame' := default 0.01 (Validator.sc_t_per_frame scenario) in
      let scale' := default 200.0 (Validator.sc_scale scenario) in
      match Validator.sc_bodies scenario with
      | None =>
          (raise (KeyError "bodies"),
           mkEngine (Some l) (body_info self) t_per_frame' scale' (E0 self)
                    (initial_scenario self),
           <[l := s1]> σ)
      | Some bodies =>
          let s2 := foldl (fun s b => sim_add s (particle_of_body b)) s1 bodies in
          let s3 := rb_move_to_com s2 in
          let self' := mkEngine (Some l) (body_infos 0 bodies) t_per_frame' scale'
                         (rb_energy s3) (Some scenario) in
          let σ' := <[l := s3]> σ in
          (fst (get_frame self' σ'), self', snd (get_frame self' σ'))
      end
  end.

(** The name reported for body [i] by [get_orbital_elements]. *)
Definition element_name (self : ReboundEngine) (i : nat) : string :=
  match body_info self !! i with
  | Some inf => info_name inf
  | None => "Body-" +:+ pretty i
  end.

Definition deg (x : R) : R := x * 180 / PI.

(** One iteration of [for i in range(1, self.sim.N)]: the [try] block
    and its [except Exception] handler. *)
Definition element_entry (self : ReboundEngine) (primary p : Particle)
    (i : nat) : ElementEntry :=
  match rb_orbit p primary with
  | inr orb =>
      ElementsOf (element_name self i)
        (py_round (orb_a orb) 6) (py_round (orb_e orb) 6)
        (py_round (deg (orb_inc orb)) 3) (py_round (deg (orb_Omega orb)) 3)
        (py_round (deg (orb_omega orb)) 3) (py_round (deg (orb_f orb)) 3)
        (py_round (orb_P orb) 6) (py_round (orb_n orb) 6)
  | inl msg => ErrorOf (element_name self i) msg
  end.

Fixpoint elements_loop (self : ReboundEngine) (s : Simulation)
    (primary : Particle) (indices : list nat) : Exc (list ElementEntry) :=
  match indices with
  | [] => ret []
  | i :: rest =>
      match sim_particles s !! i with
      | None => raise IndexError
      | Some p =>
          let entry := element_entry self primary p i in
          let* elements := elements_loop self s primary rest in
          ret (entry :: elements)
      end
  end.

(** [ReboundEngine.get_orbital_elements] *)
Definition get_orbital_elements (self : ReboundEngine)
    : Call (list ElementEntry) := fun σ =>
  match sim self with
  | None => (ret [], σ)
  | Some l =>
      (let* s := deref l σ in
       if decide (sim_N s < 2)%nat then ret []
       else
         match sim_particles s !! 0%nat with
         | None => raise IndexError
         | Some primary =>
             elements_loop self s primary (seq 1 (sim_N s - 1))
         end, σ)
  end.

(** [for i, p in enumerate(sim_copy.particles):
       trajectories[i].append((round(p.x, 4), round(p.y, 4)))] *)
Fixpoint append_samples (i : nat) (ps : list Particle)
    (trajectories : list (list (R * R))) : Exc (list (list (R * R))) :=
  match ps with
  | [] => ret trajectories
  | p :: rest =>
      match trajectories !! i with
      | None => raise IndexError
      | Some traj =>
          append_samples (S i) rest
            (<[i := traj ++ [(py_round (p_x p) 4, py_round (p_y p) 4)]]>
               trajectories)
      end
  end.

(** [for step in range(n_points)] of [get_trajectories]; [c] is the
    reference of [sim_copy]. *)
Fixpoint trajectory_loop (c : ref) (t_copy dt : R) (steps : list nat)
    (trajectories : list (list (R * R))) : Call (list (list (R * R))) :=
  fun σ =>
  match steps with
  | [] => (ret trajectories, σ)
  | step :: rest =>
      match σ !! c with
      | None => (raise (RuntimeError "dangling reference"), σ)
      | Some s =>
          let s' := rb_integrate s (t_copy + INR step * dt) in
          let σ' := <[c := s']> σ in
          match append_samples 0 (sim_particles s') trajectories with
          | inl e => (inl e, σ')
          | inr trajectories' => trajectory_loop c t_copy dt rest trajectories' σ'
          end
      end
  end.

(** [ReboundEngine.get_trajectories] *)
Definition get_trajectories (self : ReboundEngine) (duration : R)
    (n_points : nat) : Call (list (list (R * R))) := fun σ =>
  match sim self with
  | None => (ret [], σ)
  | Some l =>
      match σ !! l with
      | None => (raise (RuntimeError "dangling reference"), σ)
      | Some s =>
          let c := fresh (dom σ) in
          let σ1 := <[c := s]> σ in
          if decide (n_points = 0%nat) then (raise ZeroDivisionError, σ1)
          else
            let dt := duration / INR n_points in
            let trajectories := replicate (sim_N s) [] in
            let t_copy := sim_t s in
            trajectory_loop c t_copy dt (seq 0 n_points) trajectories σ1
      end
  end.

(** The states that the copy goes through in [get_trajectories]: one
    [integrate] call per step, each on the state left by the previous
    one, to the absolute time [t_copy + step * dt]. *)
Fixpoint preview (s : Simulation) (t_copy dt : R) (steps : list nat)
    : list Simulation :=
  match steps with
  | [] => []
  | step :: rest =>
      let s' := rb_integrate s (t_copy + INR step * dt) in
      s' :: preview s' t_copy dt rest
  end.

(** The sample recorded for a particle. *)
Definition sample (p : Particle) : R * R :=
  (py_round (p_x p) 4, py_round (p_y p) 4).

(** The engine's reference, if any, points to an object of the store. *)
Definition live (self : ReboundEngine) (σ : Store) : Prop :=
  forall l, sim self = Some l -> is_Some (σ !! l).

(** [bool(scenario)]: a dictionary is true when it has a key. *)
Definition scenario_truthy (sc : Validator.Scenario) : bool :=
  match sc with
  | Validator.mkScenario None None None None None None None None None => false
  | _ => true
  end.

(** [ReboundEngine.reset]: it returns [None] or raises, and leaves
    [self] with the attributes returned. *)
Definition reset (self : ReboundEngine)
    : Store -> Exc unit * ReboundEngine * Store := fun σ =>
  match initial_scenario self with
  | Some sc =>
      if scenario_truthy sc then
        let '(r, self', σ') := load_scenario self sc σ in
        (let* _ := r in ret tt, self', σ')
      else
        (ret tt,
         mkEngine None [] (t_per_frame self) (scale self) 0.0
                  (initial_scenario self), σ)
  | None =>
      (ret tt,
       mkEngine None [] (t_per_frame self) (scale self) 0.0
                (initial_scenario self), σ)
  end.

End Engine.

(** [ReboundEngine.load_from_horizons].  [sim.add(name)] asks the
    Horizons service for the state of the named body: [horizons] returns
    the particle or the exception raised.  As in [load_scenario], the
    assignment of the integrator raises [ValueError] for an unknown
    name, before [self.body_info] is emptied and any body is fetched. *)
Section Horizons.

Context `{REBOUND}.
Variable horizons : string -> Exc Particle.

(** [BODY_STYLES.get(name, {"color": "#aaaaaa", "radius": 5, "type":
    "planet"})], with the name. *)
Definition body_style (name : string) : BodyInfo :=
  if decide (name = "Sun") then mkBodyInfo name "#fff200" 22 "star"
  else if decide (name = "Mercury") then mkBodyInfo name "#b5b5b5" 4 "planet"
  else if decide (name = "Venus") then mkBodyInfo name "#e8cda0" 6 "planet"
  else if decide (name = "Earth") then mkBodyInfo name "#4fffb0" 7 "planet"
  else if decide (name = "Mars") then mkBodyInfo name "#ff6b35" 5 "planet"
  else if decide (name = "Jupiter") then mkBodyInfo name "#c88b3a" 14 "planet"
  else if decide (name = "Saturn") then mkBodyInfo name "#e4d191" 12 "planet"
  else if decide (name = "Uranus") then mkBodyInfo name "#7de8e8" 9 "planet"
  else if decide (name = "Neptune") then mkBodyInfo name "#3f54ba" 9 "planet"
  else if decide (name = "Pluto") then mkBodyInfo name "#c9a87c" 3 "planet"
  else mkBodyInfo name "#aaaaaa" 5 "planet".

(** The loop [for name in body_names]: the simulation and the body
    infos when it ends, normally or by an exception of the service. *)
Fixpoint horizons_loop (body_names : list string) (s : Simulation)
    (infos : list BodyInfo) : Exc unit * Simulation * list BodyInfo :=
  match body_names with
  | [] => (ret tt, s, infos)
  | name :: rest =>
      match horizons name with
      | inl e => (inl e, s, infos)
      | inr p => horizons_loop rest (sim_add s p) (infos ++ [body_style name])
      end
  end.

(** The dictionary [{"use_horizons": body_names, "integrator":
    integrator}] kept for [reset]; no method reads the key
    ["use_horizons"], and the dictionary has no ["bodies"]. *)
Definition horizons_scenario (integrator : string) : Validator.Scenario :=
  Validator.mkScenario None None None (Some integrator) None None None None None.

Definition load_from_horizons (self : ReboundEngine)
    (body_names : list string) (integrator : string)
    : Store -> Exc Frame * ReboundEngine * Store := fun σ =>
  let l := fresh (dom σ) in
  let s0 := new_simulation in
  let s_units := mkSimulation (sim_t s0) (sim_particles s0)
                   (Some ("AU", "yr", "Msun")%string) (sim_integrator s0)
                   (sim_softening s0) (sim_dt s0) in
  match set_integrator s_units integrator with
  | inl e =>
      (inl e,
       mkEngine (Some l) (body_info self) (t_per_frame self) (scale self)
                (E0 self) (initial_scenario self),
       <[l := s_units]> σ)
  | inr s_int =>
      let s1 := mkSimulation (sim_t s_int) (sim_particles s_int)
                  (sim_units s_int) (sim_integrator s_int) (sim_softening s_int)
                  (if decide (integrator = "whfast"%string) then 0.001
                   else sim_dt s_int) in
      match horizons_loop body_names s1 [] with
      | (inl e, s2, infos) =>
          (inl e,
           mkEngine (Some l) infos (t_per_frame self) (scale self) (E0 self)
                    (initial_scenario self),
           <[l := s2]> σ)
      | (inr _, s2, infos) =>
          let s3 := rb_move_to_com s2 in
          let self' := mkEngine (Some l) infos 0.005 200.0 (rb_energy s3)
                         (Some (horizons_scenario integrator)) in
          let σ' := <[l := s3]> σ in
          (fst (get_frame self' σ'), self', snd (get_frame self' σ'))
      end
  end.

End Horizons.

(** A stand-in for the integration service, used to run the engine on
    concrete data: bodies move on straight lines, the energy is the
    kinetic energy, the orbit of a particle is computed from the
    vis-viva relation with [G = 1] unless the primary has no mass or
    both particles are at the same position, and the integrators are
    those that the header of [rebound_engine.py] lists. *)
Definition drift (dt : R) (p : Particle) : Particle :=
  mkParticle (p_m p) (p_x p + p_vx p * dt) (p_y p + p_vy p * dt)
             (p_vx p) (p_vy p).

Definition kinetic (p : Particle) : R :=
  p_m p * (sq (p_vx p) + sq (p_vy p)) / 2.

Definition planar_orbit (p primary : Particle) : string + Orbit :=
  if decide (p_m primary = 0) then inl "Primary has no mass."%string
  else
    let dx := p_x p - p_x primary in
    let dy := p_y p - p_y primary in
    let dvx := p_vx p - p_vx primary in
    let dvy := p_vy p - p_vy primary in
    let d := sqrt (sq dx + sq dy) in
    if decide (d = 0)
    then inl "Particle and primary positions are the same."%string
    else
      let mu := p_m primary + p_m p in
      let a := 1 / (2 / d - (sq dvx + sq dvy) / mu) in
      let h := dx * dvy - dy * dvx in
      let e := sqrt (Rabs (1 - sq h / (mu * a))) in
      let P := 2 * PI * sqrt (Rabs (a ^ 3 / mu)) in
      inr (mkOrbit a e 0 0 0 0 P (2 * PI / P)).

#[local] Instance free_drift : REBOUND := {
  rb_integrate s t :=
    mkSimulation t (map (drift (t - sim_t s)) (sim_particles s))
      (sim_units s) (sim_integrator s) (sim_softening s) (sim_dt s);
  rb_energy s := foldr (fun p acc => kinetic p + acc) 0 (sim_particles s);
  rb_move_to_com s := s;
  rb_orbit := planar_orbit;
  rb_known_integrator name :=
    bool_decide (name ∈ ["ias15"; "whfast"; "mercurius"; "leapfrog"; "saba";
                         "bs"]%string);
}.

(** A session with two bodies, and one that also has a body placed on
    the primary. *)
Definition star : Particle := mkParticle 1 0 0 0 0.
Definition planet : Particle := mkParticle 0.001 1 0 0 1.
Definition two_bodies : Simulation :=
  mkSimulation 0 [star; planet] None "ias15" 0 0.001.
Definition three_bodies : Simulation :=
  mkSimulation 0 [star; planet; star] None "ias15" 0 0.001.
Definition loaded : ReboundEngine :=
  mkEngine (Some 1%positive)
    [mkBodyInfo "Star" "#fff200" 20 "star"; mkBodyInfo "Planet" "#4fffb0" 7 "planet"]
    0.01 200 0 None.

End Rebound.

(** ** orbital_physics.py *)

Module OrbitalPhysics.

(** [math.sqrt]: a negative argument raises [ValueError]. *)
Definition math_sqrt (x : R) : Exc R :=
  if decide (x < 0) then raise ValueError else ret (sqrt x).

(** [x / y]: a zero divisor raises [ZeroDivisionError]. *)
Definition div (x y : R) : Exc R :=
  if decide (y = 0) then raise ZeroDivisionError else ret (x / y).

Definition G_SOLAR : R := 4 * sq PI.

Definition circular_orbit_velocity (mass_central radius : R) : Exc R :=
  let* q := div (G_SOLAR * mass_central) radius in
  math_sqrt q.

Definition orbital_period (mass_central radius : R) : Exc R :=
  let* q := div (radius ^ 3) (G_SOLAR * mass_central) in
  let* root := math_sqrt q in
  ret (2 * PI * root).

Definition velocity_from_period (radius period_years : R) : Exc R :=
  div (2 * PI * radius) period_years.

Definition binary_velocities (mass1 mass2 separation eccentricity : R)
    : Exc (R * R) :=
  let mu := G_SOLAR * (mass1 + mass2) in
  let r := if decide (eccentricity = 0) then separation
           else separation * (1 - eccentricity) in
  let* two_over_r := div 2 r in
  let* one_over_sep := div 1 separation in
  let* v_total := math_sqrt (mu * (two_over_r - one_over_sep)) in
  let* v1 := div (v_total * mass2) (mass1 + mass2) in
  let* v2 := div (- v_total * mass1) (mass1 + mass2) in
  ret (v1, v2).

Definition escape_velocity (mass_central radius : R) : Exc R :=
  let* q := div (2 * G_SOLAR * mass_central) radius in
  math_sqrt q.

Record Stability := mkStability {
  st_type              : string;
  st_velocity          : R;
  st_v_circular        : R;
  st_v_escape          : R;
  st_ratio_to_circular : R;
  st_energy            : R;
  st_is_stable         : bool;
}.

Definition check_orbit_stability (mass_central radius velocity : R)
    : Exc Stability :=
  let* v_circ := circular_orbit_velocity mass_central radius in
  let* v_esc := escape_velocity mass_central radius in
  let* potential := div (G_SOLAR * mass_central) radius in
  let energy := 0.5 * velocity ^ 2 - potential in
  let orbit_type :=
    if decide (velocity < v_circ * 0.5) then "WILL CRASH (too slow)"
    else if decide (Rabs (velocity - v_circ) < v_circ * 0.05) then "circular"
    else if decide (velocity < v_esc) then "elliptical"
    else if decide (Rabs (velocity - v_esc) < v_esc * 0.01)
    then "parabolic (barely bound)"
    else "hyperbolic (unbound)" in
  let* ratio := div velocity v_circ in
  ret (mkStability orbit_type velocity v_circ v_esc ratio energy
         (bool_decide (velocity >= v_circ * 0.5)
          && bool_decide (velocity < v_esc * 1.5))).

End OrbitalPhysics.

(** ** ai_scenario_generator.py: [validate_scenario] *)

Module Generator.

Import Validator.

(** The message returned with the verdict; the formatted messages carry
    the index of the body and, for the mass, the value of
    [b.get('mass')]. *)
Inductive Message :=
| NeedTwoBodies
| NonPositiveMass (i : nat) (mass : option R)
| InvalidField (i : nat) (field : string)
| ExtremePosition (i : nat)
| OK.

(** The body of [for i, b in enumerate(bodies)]: [Some] is an early
    return.  The fields [x], [y], [vx], [vy] of a [Body] are numbers
    when present, so the [isinstance] test never fails. *)
Definition check_fields (i : nat) (b : Body) : option (bool * Message) :=
  if decide (default 0 (body_mass b) <= 0)
  then Some (false, NonPositiveMass i (body_mass b))
  else if decide (Rabs (default 0 (body_x b)) > 1e6
                  \/ Rabs (default 0 (body_y b)) > 1e6)
  then Some (false, ExtremePosition i)
  else None.

Fixpoint validate_bodies (i : nat) (bodies : list Body) : bool * Message :=
  match bodies with
  | [] => (true, OK)
  | b :: rest =>
      match check_fields i b with
      | Some verdict => verdict
      | None => validate_bodies (S i) rest
      end
  end.

Definition validate_scenario (scenario : Scenario) : bool * Message :=
  let bodies := default [] (sc_bodies scenario) in
  if decide (length bodies < 2)%nat then (false, NeedTwoBodies)
  else validate_bodies 0 bodies.

(** A body that [validate_scenario] lets pass. *)
Definition plausible (b : Body) : Prop :=
  0 < default 0 (body_mass b) /\
  Rabs (default 0 (body_x b)) <= 1e6 /\ Rabs (default 0 (body_y b)) <= 1e6.

End Generator.

(** * Proofs *)

(** ** The velocity validator *)

Module ValidatorProofs.
Import Validator.

(** *** Arithmetic of the velocities *)

Lemma G_SOLAR_pos : 0 < G_SOLAR.
Proof. unfold G_SOLAR, sq. pose proof PI_RGT_0. nra. Qed.

Lemma circular_orbit_velocity_nonneg M r : 0 <= circular_orbit_velocity M r.
Proof.
  unfold circular_orbit_velocity. destruct (decide _); [lra | apply sqrt_pos].
Qed.

Lemma escape_velocity_nonneg M r : 0 <= escape_velocity M r.
Proof.
  unfold escape_velocity. destruct (decide _); [lra | apply sqrt_pos].
Qed.

Lemma circular_le_escape M r :
  circular_orbit_velocity M r <= escape_velocity M r.
Proof.
  unfold circular_orbit_velocity, escape_velocity.
  destruct (decide _) as [Hg | Hg]; [lra |].
  apply sqrt_le_1_alt.
  assert (Hr : 0 < r) by (destruct (Rle_dec r 0); [tauto | lra]).
  assert (HM : 0 < M) by (destruct (Rle_dec M 0); [tauto | lra]).
  pose proof G_SOLAR_pos as HG.
  assert (0 < G_SOLAR * M / r).
  { apply Rdiv_lt_0_compat; [nra | exact Hr]. }
  replace (2 * G_SOLAR * M / r) with (2 * (G_SOLAR * M / r)) by (field; lra).
  lra.
Qed.

(** For a non-negative primary mass and a positive radius the guarded
    functions are the square roots of the specification. *)
Lemma circular_orbit_velocity_sqrt M r :
  0 <= M -> 0 < r -> circular_orbit_velocity M r = sqrt (G_SOLAR * M / r).
Proof.
  intros HM Hr. unfold circular_orbit_velocity.
  destruct (decide _) as [[Hg | Hg] | Hg]; [lra | | reflexivity].
  assert (M = 0) by lra. subst M.
  replace (G_SOLAR * 0 / r) with 0 by (field; lra). symmetry. apply sqrt_0.
Qed.

Lemma escape_velocity_sqrt M r :
  0 <= M -> 0 < r -> escape_velocity M r = sqrt (2 * G_SOLAR * M / r).
Proof.
  intros HM Hr. unfold escape_velocity.
  destruct (decide _) as [[Hg | Hg] | Hg]; [lra | | reflexivity].
  assert (M = 0) by lra. subst M.
  replace (2 * G_SOLAR * 0 / r) with 0 by (field; lra). symmetry. apply sqrt_0.
Qed.

(** A body moving at the circular speed is accepted. *)
Lemma classify_circular M r :
  classify (circular_orbit_velocity M r) (circular_orbit_velocity M r)
           (escape_velocity M r) = None.
Proof.
  pose proof (circular_orbit_velocity_nonneg M r) as Hc.
  pose proof (circular_le_escape M r) as He.
  unfold classify.
  destruct (decide _) as [H1 | _]; [lra |].
  destruct (decide _) as [H2 | _]; [lra |].
  destruct (decide _) as [H3 | _]; [| reflexivity].
  rewrite Rminus_diag, Rabs_R0 in H3. lra.
Qed.

(** The speed of the corrected velocity is the circular speed. *)
Lemma corrected_speed x y vc :
  0 < sqrt (sq x + sq y) -> 0 <= vc ->
  sqrt (sq (- y / sqrt (sq x + sq y) * vc) + sq (x / sqrt (sq x + sq y) * vc)) = vc.
Proof.
  intros Hr Hvc.
  set (r := sqrt (sq x + sq y)) in *.
  assert (Hrr : r * r = sq x + sq y).
  { apply sqrt_sqrt. unfold sq. nra. }
  replace (sq (- y / r * vc) + sq (x / r * vc)) with (vc * vc).
  - apply sqrt_square. exact Hvc.
  - unfold sq in *. field_simplify_eq; [| lra]. nra.
Qed.


(** *** The loop body, case by case *)

Lemma check_body_at_center af M i b :
  orbit_radius b < 1e-10 -> check_body af M i b = ([], b).
Proof.
  intros Hr. unfold check_body. fold (orbit_radius b).
  destruct (decide _); [reflexivity | contradiction].
Qed.

Lemma check_body_accepted af M i b :
  ~ orbit_radius b < 1e-10 ->
  classify (speed b) (circular_orbit_velocity M (orbit_radius b))
           (escape_velocity M (orbit_radius b)) = None ->
  check_body af M i b = ([], b).
Proof.
  intros Hr Hc. unfold check_body. fold (orbit_radius b) (speed b).
  destruct (decide _); [contradiction |]. rewrite Hc. reflexivity.
Qed.

Lemma check_body_flagged af M i b p :
  ~ orbit_radius b < 1e-10 ->
  classify (speed b) (circular_orbit_velocity M (orbit_radius b))
           (escape_velocity M (orbit_radius b)) = Some p ->
  check_body af M i b =
    let v_circular := circular_orbit_velocity M (orbit_radius b) in
    if af then
      ([Warning (display_name i b) p; Fixed (display_name i b) v_circular],
       set_velocity b
         (- default 0 (body_y b) / orbit_radius b * v_circular)
         (default 0 (body_x b) / orbit_radius b * v_circular))
    else ([Warning (display_name i b) p], b).
Proof.
  intros Hr Hc. unfold check_body. fold (orbit_radius b) (speed b).
  destruct (decide _); [contradiction |]. rewrite Hc. reflexivity.
Qed.

(** The three ways through the loop body. *)
Lemma check_body_cases af M i b :
  check_body af M i b = ([], b) \/
  exists p,
    ~ orbit_radius b < 1e-10 /\
    classify (speed b) (circular_orbit_velocity M (orbit_radius b))
             (escape_velocity M (orbit_radius b)) = Some p /\
    check_body af M i b =
      if af then
        ([Warning (display_name i b) p;
          Fixed (display_name i b) (circular_orbit_velocity M (orbit_radius b))],
         set_velocity b
           (- default 0 (body_y b) / orbit_radius b
              * circular_orbit_velocity M (orbit_radius b))
           (default 0 (body_x b) / orbit_radius b
              * circular_orbit_velocity M (orbit_radius b)))
      else ([Warning (display_name i b) p], b).
Proof.
  destruct (decide (orbit_radius b < 1e-10)) as [Hr | Hr].
  - left. apply check_body_at_center, Hr.
  - destruct (classify (speed b) (circular_orbit_velocity M (orbit_radius b))
                (escape_velocity M (orbit_radius b))) as [p |] eqn:Hc.
    + right. exists p. split; [exact Hr |]. split; [reflexivity |].
      apply (check_body_flagged af M i b p Hr Hc).
    + left. apply check_body_accepted; assumption.
Qed.

Lemma orbit_radius_set_velocity b vx vy :
  orbit_radius (set_velocity b vx vy) = orbit_radius b.
Proof. reflexivity. Qed.

Lemma speed_set_velocity b vx vy :
  speed (set_velocity b vx vy) = sqrt (sq vx + sq vy).
Proof. reflexivity. Qed.

(** A body that went through the loop body with [auto_fix] is accepted
    the next time. *)
Lemma check_body_idempotent M i j b :
  check_body true M j (snd (check_body true M i b))
  = ([], snd (check_body true M i b)).
Proof.
  destruct (check_body_cases true M i b) as [Hsame | (p & Hr & Hc & Hfix)].
  - rewrite Hsame. simpl.
    destruct (check_body_cases true M j b) as [H | (p & Hr & Hc & Hfix)];
      [exact H |].
    rewrite (check_body_flagged true M i b p Hr Hc) in Hsame. discriminate.
  - rewrite Hfix. simpl snd.
    apply check_body_accepted.
    + rewrite orbit_radius_set_velocity. exact Hr.
    + rewrite orbit_radius_set_velocity, speed_set_velocity.
      assert (Hpos : 0 < orbit_radius b) by lra.
      unfold orbit_radius in Hpos |- * at 1 2.
      rewrite corrected_speed;
        [apply classify_circular | exact Hpos
        | apply circular_orbit_velocity_nonneg].
Qed.

(** *** The loop *)

Lemma validate_loop_eq af M i bs :
  validate_loop af M i bs =
    (concat (imap (fun k b => findings af M (i + k) b) bs),
     imap (fun k b => snd (check_body af M (i + k) b)) bs).
Proof.
  revert i. induction bs as [| b bs IH]; intros i; [reflexivity |].
  simpl. destruct (check_body af M i b) as [lines fixed_body] eqn:Hcb.
  rewrite IH. unfold findings. rewrite Nat.add_0_r, Hcb. simpl.
  f_equal; [f_equal |]; f_equal; apply imap_ext; intros k x _; simpl;
    rewrite Nat.add_succ_r; reflexivity.
Qed.

Lemma validate_loop_length af M i bs :
  length (snd (validate_loop af M i bs)) = length bs.
Proof. rewrite validate_loop_eq. simpl. apply length_imap. Qed.

Lemma validate_loop_lookup af M i bs k b :
  bs !! k = Some b ->
  snd (validate_loop af M i bs) !! k = Some (snd (check_body af M (i + k) b)).
Proof.
  intros Hk. rewrite validate_loop_eq. simpl.
  rewrite list_lookup_imap, Hk. reflexivity.
Qed.

Lemma validate_loop_findings af M i bs k b x :
  bs !! k = Some b -> In x (findings af M (i + k) b) ->
  In x (fst (validate_loop af M i bs)).
Proof.
  intros Hk Hx. rewrite validate_loop_eq. simpl.
  apply in_concat. exists (findings af M (i + k) b). split; [| exact Hx].
  apply list_elem_of_In, list_elem_of_lookup. exists k.
  rewrite list_lookup_imap, Hk. reflexivity.
Qed.

Lemma validate_loop_idempotent M i j bs :
  validate_loop true M j (snd (validate_loop true M i bs))
  = ([], snd (validate_loop true M i bs)).
Proof.
  revert i j. induction bs as [| b bs IH]; intros i j; [reflexivity |].
  simpl. destruct (check_body true M i b) as [lines fixed_body] eqn:Hcb.
  destruct (validate_loop true M (S i) bs) as [iss fixed] eqn:Hloop.
  simpl.
  pose proof (check_body_idempotent M i j b) as Hb. rewrite Hcb in Hb.
  simpl in Hb. rewrite Hb.
  pose proof (IH (S i) (S j)) as Hrest. rewrite Hloop in Hrest.
  simpl in Hrest. rewrite Hrest. reflexivity.
Qed.

(** *** The whole function *)

Lemma validate_few_bodies s af :
  (length (default [] (sc_bodies s)) < 2)%nat ->
  validate_and_fix_scenario s af = mkResult true [] s None.
Proof.
  unfold validate_and_fix_scenario.
  destruct (default [] (sc_bodies s)) as [| p [| b bs]]; simpl;
    [reflexivity | reflexivity | lia].
Qed.

Lemma validate_many_bodies s af primary others :
  default [] (sc_bodies s) = primary :: others -> others <> [] ->
  let M := default 1 (body_mass primary) in
  issues (validate_and_fix_scenario s af)
    = fst (validate_loop af M 1 others) /\
  scenario (validate_and_fix_scenario s af)
    = set_bodies s (primary :: snd (validate_loop af M 1 others)) /\
  ok (validate_and_fix_scenario s af)
    = bool_decide (length (filter (fun i => is_warning i = true)
                             (fst (validate_loop af M 1 others))) = 0%nat).
Proof.
  intros Hb Hne M. unfold validate_and_fix_scenario. rewrite Hb.
  destruct others as [| b bs]; [contradiction |].
  fold M. destruct (validate_loop af M 1 (b :: bs)) as [iss fixed].
  repeat split; reflexivity.
Qed.


(** What the loop body may change. *)
Lemma check_body_frame af M i b :
  let b' := snd (check_body af M i b) in
  body_name b' = body_name b /\ body_mass b' = body_mass b /\
  body_x b' = body_x b /\ body_y b' = body_y b /\
  body_color b' = body_color b /\ body_radius b' = body_radius b /\
  body_type b' = body_type b /\
  (b' <> b ->
     af = true /\ exists p, In (Warning (display_name i b) p) (findings af M i b)).
Proof.
  unfold findings.
  destruct (check_body_cases af M i b) as [-> | (p & _ & _ & ->)].
  - simpl. do 7 (split; [reflexivity |]). intros Hneq; contradiction.
  - destruct af; simpl.
    + do 7 (split; [reflexivity |]). intros _. split; [reflexivity |].
      exists p. left. reflexivity.
    + do 7 (split; [reflexivity |]). intros Hneq; contradiction.
Qed.

(** C2.  The validator is idempotent: run with [auto_fix] on its own
    output, it reports no finding, accepts the scenario ([ok]) and
    returns a scenario equal to the one it was given. *)
Theorem validator_idempotent (s : Scenario) :
  let first := validate_and_fix_scenario s true in
  let second := validate_and_fix_scenario (scenario first) true in
  issues second = [] /\ ok second = true /\ scenario second = scenario first.
Proof.
  intros first second. subst second first.
  destruct (decide (length (default [] (sc_bodies s)) < 2)%nat) as [Hfew | Hmany].
  - rewrite (validate_few_bodies s true Hfew). cbn [scenario].
    rewrite (validate_few_bodies s true Hfew). auto.
  - destruct (default [] (sc_bodies s)) as [| primary others] eqn:Hb;
      [simpl in Hmany; lia |].
    assert (Hne : others <> [])
      by (destruct others; [simpl in Hmany; lia | discriminate]).
    destruct (validate_many_bodies s true primary others Hb Hne)
      as (_ & Hsc & _).
    set (M := default 1 (body_mass primary)) in *.
    set (fixed := snd (validate_loop true M 1 others)) in *.
    assert (Hlen : length fixed = length others)
      by apply validate_loop_length.
    assert (Hne' : fixed <> []).
    { destruct fixed; [| discriminate].
      destruct others; [contradiction | discriminate]. }
    pose proof (validate_loop_idempotent M 1 1 others) as Hidem.
    fold fixed in Hidem.
    rewrite Hsc.
    destruct (validate_many_bodies (set_bodies s (primary :: fixed)) true
                primary fixed eq_refl Hne') as (Hiss2 & Hsc2 & Hok2).
    fold M in Hiss2, Hsc2, Hok2.
    rewrite Hiss2, Hsc2, Hok2, Hidem. simpl. auto.
Qed.

(** C9.  The result returned by [smart_validate_scenario] is the result
    of [validate_and_fix_scenario] with [auto_fix = True] for every
    scenario, whether or not the second largest mass exceeds 30% of the
    largest. *)
Theorem smart_validate_same_result (s : Scenario) (verbose : bool) :
  snd (smart_validate_scenario s verbose) = validate_and_fix_scenario s true.
Proof.
  unfold smart_validate_scenario.
  destruct (decide (length (default [] (sc_bodies s)) < 2)%nat) as [Hfew | _].
  - simpl. symmetry. apply validate_few_bodies, Hfew.
  - repeat destruct (decide _); reflexivity.
Qed.

(** The multi-primary test only decides whether a line is printed, and
    only with [verbose]. *)
Lemma smart_validate_silent (s : Scenario) :
  fst (smart_validate_scenario s false) = [].
Proof.
  unfold smart_validate_scenario. repeat destruct (decide _); reflexivity.
Qed.

(** C10.  The returned scenario differs from the input at most in the
    [vx] and [vy] of bodies for which a warning was issued (and only
    with [auto_fix]): the other scenario fields, the number and order of
    the bodies, body 0 and all other fields of every body are those of
    the input; with fewer than two bodies the scenario itself is
    returned, with [ok] and no issue. *)
Theorem validator_frame (s : Scenario) (auto_fix : bool) :
  let res := validate_and_fix_scenario s auto_fix in
  let bodies := default [] (sc_bodies s) in
  let bodies' := default [] (sc_bodies (scenario res)) in
  (sc_name (scenario res) = sc_name s /\
   sc_description (scenario res) = sc_description s /\
   sc_units (scenario res) = sc_units s /\
   sc_integrator (scenario res) = sc_integrator s /\
   sc_t_per_frame (scenario res) = sc_t_per_frame s /\
   sc_scale (scenario res) = sc_scale s /\
   sc_softening (scenario res) = sc_softening s /\
   sc_dt (scenario res) = sc_dt s) /\
  length bodies' = length bodies /\
  bodies' !! 0%nat = bodies !! 0%nat /\
  (forall i b b', bodies !! i = Some b -> bodies' !! i = Some b' ->
     body_name b' = body_name b /\ body_mass b' = body_mass b /\
     body_x b' = body_x b /\ body_y b' = body_y b /\
     body_color b' = body_color b /\ body_radius b' = body_radius b /\
     body_type b' = body_type b /\
     (b' <> b ->
        auto_fix = true /\ (1 <= i)%nat /\
        exists p, In (Warning (display_name i b) p) (issues res))) /\
  ((length bodies < 2)%nat -> res = mkResult true [] s None).
Proof.
  intros res bodies bodies'.
  assert (Hbodies : default [] (sc_bodies s) = bodies) by reflexivity.
  clearbody bodies.
  destruct (decide (length bodies < 2)%nat) as [Hfew | Hmany].
  - assert (Hres : res = mkResult true [] s None)
      by (apply validate_few_bodies; rewrite Hbodies; exact Hfew).
    subst bodies'. rewrite Hres. cbn [scenario]. rewrite Hbodies.
    split; [repeat split |]. split; [reflexivity |]. split; [reflexivity |].
    split; [| reflexivity].
    intros i b b' Hi Hi'. assert (b' = b) by congruence. subst b'.
    do 7 (split; [reflexivity |]). intros Hneq; contradiction.
  - destruct bodies as [| primary others]; [simpl in Hmany; lia |].
    assert (Hne : others <> [])
      by (destruct others; [simpl in Hmany; lia | discriminate]).
    destruct (validate_many_bodies s auto_fix primary others Hbodies Hne)
      as (Hiss & Hsc & _).
    fold res in Hiss, Hsc.
    set (M := default 1 (body_mass primary)) in *.
    assert (Hb' : bodies' = primary :: snd (validate_loop auto_fix M 1 others))
      by (subst bodies'; rewrite Hsc; reflexivity).
    rewrite Hsc, Hb'. cbn [set_bodies sc_name sc_description sc_units
      sc_integrator sc_t_per_frame sc_scale sc_softening sc_dt].
    split; [repeat split |].
    split; [simpl; f_equal; apply validate_loop_length |].
    split; [reflexivity |].
    split; [| intros Hlt; contradiction].
    intros i b b' Hi Hi'.
    destruct i as [| k]; simpl in Hi, Hi'.
    + assert (b' = b) by congruence. subst b'.
      do 7 (split; [reflexivity |]). intros Hneq; contradiction.
    + rewrite (validate_loop_lookup auto_fix M 1 others k b Hi) in Hi'.
      injection Hi' as <-.
      destruct (check_body_frame auto_fix M (1 + k) b)
        as (H1 & H2 & H3 & H4 & H5 & H6 & H7 & Hflag).
      do 7 (split; [assumption |]). intros Hneq.
      destruct (Hflag Hneq) as [Haf [p Hp]].
      split; [exact Haf |]. split; [lia |].
      exists p. rewrite Hiss.
      apply (validate_loop_findings auto_fix M 1 others k b _ Hi Hp).
Qed.


(** *** Numeric bounds *)

Lemma PI_bounds : 3.1415 < PI < 3.1421.
Proof.
  pose proof (PI_2_3_7_ineq 1) as [Hlo Hhi].
  unfold sum_f_R0, tg_alt, PI_2_3_7_tg, Ratan_seq in Hlo, Hhi.
  simpl in Hlo, Hhi.
  split; lra.
Qed.

Lemma sqrt_lower a y : 0 <= a -> a * a < y -> a < sqrt y.
Proof.
  intros Ha Hy. replace a with (sqrt (a * a)) at 1 by (apply sqrt_square; exact Ha).
  apply sqrt_lt_1_alt. split; [nra | exact Hy].
Qed.

Lemma sqrt_upper b y : 0 < b -> y < b * b -> sqrt y < b.
Proof.
  intros Hb Hy. destruct (Rle_dec 0 y) as [Hpos | Hneg].
  - replace b with (sqrt (b * b)) at 1 by (apply sqrt_square; lra).
    apply sqrt_lt_1_alt. split; [exact Hpos | exact Hy].
  - rewrite sqrt_neg_0 by lra. exact Hb.
Qed.

(** *** The classification chain *)

Lemma classify_flags_iff v vc ve :
  classify v vc ve <> None <->
  v < vc * 0.3 \/ v > ve * 1.5 \/
  (Rabs (v - vc) > vc * 0.5 /\ (v / vc < 0.7 \/ v / vc > 1.4)).
Proof.
  unfold classify.
  destruct (decide (v < vc * 0.3)) as [H1 | H1];
    [split; [intros _; left; exact H1 | discriminate] |].
  destruct (decide (v > ve * 1.5)) as [H2 | H2];
    [split; [intros _; right; left; exact H2 | discriminate] |].
  destruct (decide (Rabs (v - vc) > vc * 0.5)) as [H3 | H3].
  - cbv zeta. destruct (decide (v / vc < 0.7 \/ v / vc > 1.4)) as [H4 | H4].
    + split; [intros _; right; right; split; assumption | discriminate].
    + split; [congruence |]. intros [H | [H | [_ H]]]; contradiction.
  - split; [congruence |]. intros [H | [H | [H _]]]; contradiction.
Qed.

Lemma findings_nonempty_iff af M i b :
  findings af M i b <> [] <->
  ~ orbit_radius b < 1e-10 /\
  classify (speed b) (circular_orbit_velocity M (orbit_radius b))
           (escape_velocity M (orbit_radius b)) <> None.
Proof.
  unfold findings.
  destruct (decide (orbit_radius b < 1e-10)) as [Hr | Hr].
  - rewrite (check_body_at_center af M i b Hr). simpl. tauto.
  - destruct (classify (speed b) (circular_orbit_velocity M (orbit_radius b))
                (escape_velocity M (orbit_radius b))) as [p |] eqn:Hc.
    + rewrite (check_body_flagged af M i b p Hr Hc).
      destruct af; simpl; split; try discriminate; intros _; split;
        [exact Hr | discriminate | exact Hr | discriminate].
    + rewrite (check_body_accepted af M i b Hr Hc). simpl. tauto.
Qed.

(** The finding that the chain issues, branch by branch. *)
Lemma classify_branches v vc ve :
  (v < vc * 0.3 -> classify v vc ve = Some (TOO_SLOW v vc)) /\
  (~ v < vc * 0.3 -> v > ve * 1.5 ->
     classify v vc ve = Some (TOO_FAST v ve)) /\
  (~ v < vc * 0.3 -> ~ v > ve * 1.5 ->
     Rabs (v - vc) > vc * 0.5 -> v / vc < 0.7 \/ v / vc > 1.4 ->
     classify v vc ve = Some (SUSPICIOUS v vc (v / vc))).
Proof.
  unfold classify. split; [| split].
  - intros H1. destruct (decide _); [reflexivity | contradiction].
  - intros H1 H2. destruct (decide (v < vc * 0.3)); [contradiction |].
    destruct (decide _); [reflexivity | contradiction].
  - intros H1 H2 H3 H4. destruct (decide (v < vc * 0.3)); [contradiction |].
    destruct (decide (v > ve * 1.5)); [contradiction |].
    destruct (decide (Rabs (v - vc) > vc * 0.5)); [| contradiction].
    cbv zeta. destruct (decide _); [reflexivity | contradiction].
Qed.

Lemma findings_flagged af M i b p :
  ~ orbit_radius b < 1e-10 ->
  classify (speed b) (circular_orbit_velocity M (orbit_radius b))
           (escape_velocity M (orbit_radius b)) = Some p ->
  findings af M i b
  = Warning (display_name i b) p
    :: (if af
        then [Fixed (display_name i b) (circular_orbit_velocity M (orbit_radius b))]
        else []).
Proof.
  intros Hr Hc. unfold findings.
  rewrite (check_body_flagged af M i b p Hr Hc). destruct af; reflexivity.
Qed.

(** C3.  A body other than the primary, at a distance [r > 1e-10] from
    the origin, is flagged exactly when its speed [v] is below
    [0.3 * v_circ], or above [1.5 * v_esc], or differs from [v_circ] by
    more than [0.5 * v_circ] with [v / v_circ] outside [[0.7, 1.4]];
    otherwise it has no finding and is returned unchanged.  The finding
    says which: the warning of the body is "too slow", with [v] and
    [v_circ], in the first case; "too fast", with [v] and [v_esc], in
    the second when the first does not hold; and "suspicious", with
    [v], [v_circ] and the ratio, in the third when neither holds; with
    [auto_fix] the warning is followed by the correction notice.  The
    issues of the result are the findings of the bodies, in order. *)
Theorem classification_thresholds (s : Scenario) (auto_fix : bool)
    (primary : Body) (others : list Body) (k : nat) (body : Body) :
  default [] (sc_bodies s) = primary :: others ->
  others !! k = Some body ->
  let M := default 1 (body_mass primary) in
  let r := orbit_radius body in
  let v := speed body in
  let v_circ := sqrt (G_SOLAR * M / r) in
  let v_esc := sqrt (2 * G_SOLAR * M / r) in
  let too_slow := v < 0.3 * v_circ in
  let too_fast := v > 1.5 * v_esc in
  let suspicious :=
    Rabs (v - v_circ) > 0.5 * v_circ /\ ~ (0.7 <= v / v_circ <= 1.4) in
  let name := display_name (S k) body in
  let report := fun problem =>
    Warning name problem :: (if auto_fix then [Fixed name v_circ] else []) in
  0 <= M -> r > 1e-10 ->
  let res := validate_and_fix_scenario s auto_fix in
  issues res = concat (imap (fun j b => findings auto_fix M (S j) b) others) /\
  (findings auto_fix M (S k) body <> [] <->
     too_slow \/ too_fast \/ suspicious) /\
  (too_slow ->
     findings auto_fix M (S k) body = report (TOO_SLOW v v_circ)) /\
  (~ too_slow -> too_fast ->
     findings auto_fix M (S k) body = report (TOO_FAST v v_esc)) /\
  (~ too_slow -> ~ too_fast -> suspicious ->
     findings auto_fix M (S k) body
     = report (SUSPICIOUS v v_circ (v / v_circ))) /\
  (~ (too_slow \/ too_fast \/ suspicious) ->
     findings auto_fix M (S k) body = [] /\
     default [] (sc_bodies (scenario res)) !! S k = Some body).
Proof.
  intros Hb Hk M r v v_circ v_esc too_slow too_fast suspicious name report
    HM Hr res.
  assert (Hne : others <> []) by (destruct others; [discriminate | discriminate]).
  destruct (validate_many_bodies s auto_fix primary others Hb Hne)
    as (Hiss & Hsc & _).
  fold M res in Hiss, Hsc.
  assert (Hvc : circular_orbit_velocity M r = v_circ)
    by (apply circular_orbit_velocity_sqrt; [exact HM | lra]).
  assert (Hve : escape_velocity M r = v_esc)
    by (apply escape_velocity_sqrt; [exact HM | lra]).
  assert (Hfar : ~ orbit_radius body < 1e-10) by (fold r; lra).
  destruct (classify_branches v v_circ v_esc) as (Hslow & Hfast & Hsusp).
  assert (Hflag : findings auto_fix M (S k) body <> [] <->
                  too_slow \/ too_fast \/ suspicious).
  { rewrite findings_nonempty_iff, classify_flags_iff.
    fold r v. rewrite Hvc, Hve.
    subst too_slow too_fast suspicious. cbv beta.
    split.
    - intros [_ [H | [H | [H1 H2]]]].
      + left. lra.
      + right. left. lra.
      + right. right. split; [lra |]. intros [Hlo Hhi]. lra.
    - intros H. split; [lra |]. destruct H as [H | [H | [H1 H2]]].
      + left. lra.
      + right. left. lra.
      + right. right. split; [lra |].
        destruct (Rlt_dec (v / v_circ) 0.7) as [Hlt | Hge]; [left; exact Hlt |].
        right. destruct (Rgt_dec (v / v_circ) 1.4) as [Hgt | Hle]; [exact Hgt |].
        exfalso. apply H2. lra. }
  assert (Hreport : forall p, classify v v_circ v_esc = Some p ->
                      findings auto_fix M (S k) body = report p).
  { intros p Hp. subst report name. cbv beta. rewrite <- Hvc.
    apply findings_flagged; [exact Hfar |]. fold r v. rewrite Hvc, Hve.
    exact Hp. }
  split; [| split; [exact Hflag | split; [| split; [| split]]]].
  - rewrite Hiss, validate_loop_eq. reflexivity.
  - intros H1. apply Hreport, Hslow. subst too_slow. lra.
  - intros H1 H2. apply Hreport, Hfast; subst too_slow too_fast; lra.
  - intros H1 H2 [H3 H4]. apply Hreport, Hsusp; subst too_slow too_fast;
      [lra | lra | lra |].
    destruct (Rlt_dec (v / v_circ) 0.7) as [Hlt | Hge]; [left; exact Hlt |].
    right. destruct (Rgt_dec (v / v_circ) 1.4) as [Hgt | Hle]; [exact Hgt |].
    exfalso. apply H4. lra.
  - intros Hnot.
    assert (Hnone : findings auto_fix M (S k) body = []).
    { destruct (findings auto_fix M (S k) body) as [| i l] eqn:Hf;
        [reflexivity |].
      exfalso. apply Hnot, Hflag. discriminate. }
    split; [exact Hnone |]. rewrite Hsc.
    transitivity (snd (validate_loop auto_fix M 1 others) !! k);
      [reflexivity |].
    rewrite (validate_loop_lookup auto_fix M 1 others k body Hk).
    f_equal.
    destruct (check_body_cases auto_fix M (1 + k) body)
      as [-> | (p & Hr' & Hc & _)]; [reflexivity |].
    exfalso. apply Hnot. apply Hflag. apply findings_nonempty_iff.
    split; [exact Hr' |]. rewrite Hc. discriminate.
Qed.


(** *** The worked example *)


Lemma orbit_radius_moon : orbit_radius moon = 0.00257.
Proof.
  unfold orbit_radius, moon, sq. simpl.
  replace (0.00257 * 0.00257 + 0 * 0) with (0.00257 * 0.00257) by lra.
  apply sqrt_square. lra.
Qed.

Lemma speed_moon : speed moon = 6.396.
Proof.
  unfold speed, moon, sq. simpl.
  replace (0 * 0 + 6.396 * 6.396) with (6.396 * 6.396) by lra.
  apply sqrt_square. lra.
Qed.

Lemma moon_circular_velocity :
  0.2147 < circular_orbit_velocity 3.003e-6 0.00257 < 0.2149.
Proof.
  rewrite circular_orbit_velocity_sqrt by lra.
  pose proof PI_bounds as [Hlo Hhi]. unfold G_SOLAR, sq.
  split; [apply sqrt_lower | apply sqrt_upper]; try lra.
  - replace (4 * (PI * PI) * 3.003e-6 / 0.00257)
      with (PI * PI * (4 * 3.003e-6 / 0.00257)) by (field; lra).
    nra.
  - replace (4 * (PI * PI) * 3.003e-6 / 0.00257)
      with (PI * PI * (4 * 3.003e-6 / 0.00257)) by (field; lra).
    nra.
Qed.

Lemma moon_escape_velocity :
  0.3036 < escape_velocity 3.003e-6 0.00257 < 0.3039.
Proof.
  rewrite escape_velocity_sqrt by lra.
  pose proof PI_bounds as [Hlo Hhi]. unfold G_SOLAR, sq.
  split; [apply sqrt_lower | apply sqrt_upper]; try lra.
  - replace (2 * (4 * (PI * PI)) * 3.003e-6 / 0.00257)
      with (PI * PI * (8 * 3.003e-6 / 0.00257)) by (field; lra).
    nra.
  - replace (2 * (4 * (PI * PI)) * 3.003e-6 / 0.00257)
      with (PI * PI * (8 * 3.003e-6 / 0.00257)) by (field; lra).
    nra.
Qed.





(** The thresholds at the worked example: the Moon of [moon_example]
    is at [r = 0.00257 > 1e-10] from a primary of positive mass, it is
    not too slow and it is too fast, and it is reported as too fast. *)
Lemma classification_thresholds_witness :
  0 <= default 1 (body_mass earth) /\ orbit_radius moon > 1e-10 /\
  ~ speed moon
      < 0.3 * sqrt (G_SOLAR * default 1 (body_mass earth) / orbit_radius moon) /\
  speed moon
    > 1.5 * sqrt (2 * G_SOLAR * default 1 (body_mass earth) / orbit_radius moon) /\
  findings true (default 1 (body_mass earth)) 1 moon
  = [Warning "Moon"
       (TOO_FAST (speed moon)
          (sqrt (2 * G_SOLAR * default 1 (body_mass earth) / orbit_radius moon)));
     Fixed "Moon"
       (sqrt (G_SOLAR * default 1 (body_mass earth) / orbit_radius moon))].
Proof.
  assert (HM : 0 <= default 1 (body_mass earth)) by (simpl; lra).
  assert (Hr : orbit_radius moon > 1e-10) by (rewrite orbit_radius_moon; lra).
  assert (Hvc : sqrt (G_SOLAR * default 1 (body_mass earth) / orbit_radius moon)
                = circular_orbit_velocity 3.003e-6 0.00257).
  { rewrite orbit_radius_moon. symmetry.
    apply circular_orbit_velocity_sqrt; lra. }
  assert (Hve : sqrt (2 * G_SOLAR * default 1 (body_mass earth) / orbit_radius moon)
                = escape_velocity 3.003e-6 0.00257).
  { rewrite orbit_radius_moon. symmetry.
    apply escape_velocity_sqrt; lra. }
  assert (Hslow : ~ speed moon
      < 0.3 * sqrt (G_SOLAR * default 1 (body_mass earth) / orbit_radius moon)).
  { rewrite Hvc, speed_moon. pose proof moon_circular_velocity. lra. }
  assert (Hfast : speed moon
    > 1.5 * sqrt (2 * G_SOLAR * default 1 (body_mass earth) / orbit_radius moon)).
  { rewrite Hve, speed_moon. pose proof moon_escape_velocity. lra. }
  split; [exact HM |]. split; [exact Hr |]. split; [exact Hslow |].
  split; [exact Hfast |].
  exact (proj1 (proj2 (proj2 (proj2
           (classification_thresholds moon_example true earth [moon]
              0 moon eq_refl eq_refl HM Hr)))) Hslow Hfast).
Defined.


End ValidatorProofs.

(** ** The simulation session *)

Module ReboundProofs.
Import Rebound.

Section Session.

Context `{REBOUND}.

(** C7.  On a session without a simulation, [step] raises the "not
    loaded" error and leaves the store as it is, while [get_frame]
    returns the empty frame: [t = 0], [N = 0], no body,
    [energy_drift = 0]. *)
Theorem unloaded_session (self : ReboundEngine) (n_frames : nat) (σ : Store) :
  sim self = None ->
  (exists msg, step self n_frames σ = (raise (RuntimeError msg), σ)) /\
  get_frame self σ = (ret (mkFrame 0 0 [] 0), σ).
Proof.
  intros Hnone. unfold step, get_frame. rewrite Hnone.
  split; [eexists; reflexivity |].
  do 2 f_equal. f_equal; lra.
Qed.

(** *** Orbital elements *)

Lemma elements_loop_total self s primary indices :
  Forall (fun i => (i < sim_N s)%nat) indices ->
  exists entries,
    elements_loop self s primary indices = ret entries /\
    length entries = length indices /\
    forall k i, indices !! k = Some i ->
      exists p, sim_particles s !! i = Some p /\
                entries !! k = Some (element_entry self primary p i).
Proof.
  induction 1 as [| i rest Hi _ IH].
  - exists []. repeat split. intros k i Hk. discriminate.
  - destruct IH as (entries & Hloop & Hlen & Hentries).
    apply lookup_lt_is_Some_2 in Hi. destruct Hi as [p Hp].
    exists (element_entry self primary p i :: entries).
    split; [| split].
    + simpl. rewrite Hp, Hloop. reflexivity.
    + simpl. f_equal. exact Hlen.
    + intros [| k] j Hk; simpl in Hk.
      * injection Hk as <-. exists p. split; [exact Hp | reflexivity].
      * apply (Hentries k j Hk).
Qed.


(** C8.  [get_orbital_elements] never raises and leaves the store as it
    is; with at least two particles it returns one entry for each
    particle other than particle 0, in order, computed relative to
    particle 0: the rounded elements when the orbit computation
    succeeds, and the entry [{name, error}] with the message of the
    exception when it fails, whatever happens for the other bodies. *)
Theorem element_extraction_isolated (self : ReboundEngine) (σ : Store) :
  live self σ ->
  exists entries,
    get_orbital_elements self σ = (ret entries, σ) /\
    (sim self = None -> entries = []) /\
    forall l s, sim self = Some l -> σ !! l = Some s ->
      ((sim_N s < 2)%nat -> entries = []) /\
      ((2 <= sim_N s)%nat ->
         length entries = (sim_N s - 1)%nat /\
         forall i p primary,
           (1 <= i)%nat -> sim_particles s !! i = Some p ->
           sim_particles s !! 0%nat = Some primary ->
           (forall msg, rb_orbit p primary = inl msg ->
              entries !! (i - 1)%nat = Some (ErrorOf (element_name self i) msg)) /\
           (forall orb, rb_orbit p primary = inr orb ->
              entries !! (i - 1)%nat
              = Some (ElementsOf (element_name self i)
                  (py_round (orb_a orb) 6) (py_round (orb_e orb) 6)
                  (py_round (deg (orb_inc orb)) 3)
                  (py_round (deg (orb_Omega orb)) 3)
                  (py_round (deg (orb_omega orb)) 3)
                  (py_round (deg (orb_f orb)) 3)
                  (py_round (orb_P orb) 6) (py_round (orb_n orb) 6)))).
Proof.
  intros Hlive. unfold get_orbital_elements.
  destruct (sim self) as [l |] eqn:Hsim.
  2:{ exists []. split; [reflexivity |]. split; [reflexivity |].
      intros l s Hl. discriminate. }
  destruct (Hlive l Hsim) as [s Hs].
  unfold deref. rewrite Hs. cbn [bind ret].
  destruct (decide (sim_N s < 2)%nat) as [Hfew | Hmany].
  - exists []. split; [reflexivity |]. split; [discriminate |].
    intros l' s' Hl' Hs'. injection Hl' as <-.
    assert (s' = s) by congruence. subst s'.
    split; [reflexivity | lia].
  - assert (Hprim : is_Some (sim_particles s !! 0%nat))
      by (apply lookup_lt_is_Some_2; unfold sim_N in Hmany; lia).
    destruct Hprim as [primary Hprimary]. rewrite Hprimary.
    destruct (elements_loop_total self s primary (seq 1 (sim_N s - 1)))
      as (entries & Hloop & Hlen & Hentries).
    { apply Forall_forall. intros i Hi. apply list_elem_of_In, in_seq in Hi. lia. }
    exists entries. split; [rewrite Hloop; reflexivity |].
    split; [discriminate |].
    intros l' s' Hl' Hs'. injection Hl' as <-.
    assert (s' = s) by congruence. subst s'.
    split; [intros; lia |]. intros _.
    rewrite length_seq in Hlen. split; [exact Hlen |].
    intros i p primary' Hi Hp Hprimary'.
    assert (primary' = primary) by congruence. subst primary'.
    assert (Hlt : (i < sim_N s)%nat)
      by (apply lookup_lt_is_Some_1; eexists; exact Hp).
    destruct (Hentries (i - 1)%nat i) as (p' & Hp' & Hentry).
    { rewrite lookup_seq. split; [lia | lia]. }
    assert (p' = p) by congruence. subst p'.
    rewrite Hentry. unfold element_entry.
    split.
    + intros msg Hmsg. rewrite Hmsg. reflexivity.
    + intros orb Horb. rewrite Horb. reflexivity.
Qed.


(** *** Trajectory preview *)

Lemma append_samples_zip ps pre suf :
  length suf = length ps ->
  append_samples (length pre) ps (pre ++ suf)
  = ret (pre ++ zip_with (fun traj p => traj ++ [sample p]) suf ps).
Proof.
  revert pre suf. induction ps as [| p rest IH]; intros pre suf Hlen.
  - destruct suf; [| discriminate]. reflexivity.
  - destruct suf as [| traj suf]; [discriminate |].
    simpl in Hlen. injection Hlen as Hlen.
    cbn [append_samples].
    rewrite list_lookup_middle by reflexivity.
    rewrite insert_app_r_alt by reflexivity.
    rewrite Nat.sub_diag. cbn [insert list_insert].
    replace (S (length pre)) with (length (pre ++ [traj ++ [sample p]]))
      by (rewrite length_app; simpl; lia).
    replace (pre ++ (traj ++ [(py_round (p_x p) 4, py_round (p_y p) 4)]) :: suf)
      with ((pre ++ [traj ++ [sample p]]) ++ suf)
      by (rewrite <- app_assoc; reflexivity).
    rewrite (IH _ _ Hlen). rewrite <- app_assoc. reflexivity.
Qed.

Lemma preview_length s t0 dt steps :
  length (preview s t0 dt steps) = length steps.
Proof.
  revert s. induction steps as [| k rest IH]; intros s; [reflexivity |].
  simpl. f_equal. apply IH.
Qed.

Lemma preview_sim_N s t0 dt steps :
  (forall s' t, sim_N (rb_integrate s' t) = sim_N s') ->
  Forall (fun sk => sim_N sk = sim_N s) (preview s t0 dt steps).
Proof.
  intros Hkeep. revert s. induction steps as [| k rest IH]; intros s;
    [constructor |].
  simpl. constructor; [apply Hkeep |].
  eapply Forall_impl; [apply IH |]. intros sk Hsk. simpl in Hsk.
  rewrite Hsk. apply Hkeep.
Qed.

(** The loop records, step after step, the particles of the states of
    [preview]; only the copy is written. *)
Lemma trajectory_loop_eq c t0 dt steps trajectories σ sc :
  (forall s' t, sim_N (rb_integrate s' t) = sim_N s') ->
  σ !! c = Some sc -> length trajectories = sim_N sc ->
  trajectory_loop c t0 dt steps trajectories σ
  = (ret (foldl (fun trajs sk =>
                   zip_with (fun traj p => traj ++ [sample p]) trajs
                            (sim_particles sk))
                trajectories (preview sc t0 dt steps)),
     <[c := default sc (last (preview sc t0 dt steps))]> σ).
Proof.
  intros Hkeep. revert trajectories σ sc.
  induction steps as [| k rest IH]; intros trajectories σ sc Hc Hlen.
  - simpl. rewrite insert_id by exact Hc. reflexivity.
  - cbn [trajectory_loop preview]. rewrite Hc.
    set (s' := rb_integrate sc (t0 + INR k * dt)).
    assert (Hlen' : length trajectories = length (sim_particles s'))
      by (rewrite Hlen; symmetry; apply Hkeep).
    pose proof (append_samples_zip (sim_particles s') [] trajectories Hlen')
      as Happ.
    cbn [length app] in Happ. rewrite Happ. cbn [ret].
    rewrite (IH _ (<[c := s']> σ) s').
    + rewrite insert_insert_eq. cbn [foldl]. f_equal. f_equal.
      rewrite last_cons. destruct (last (preview s' t0 dt rest)); reflexivity.
    + apply lookup_insert_eq.
    + rewrite length_zip_with. rewrite <- Hlen'. rewrite Nat.min_id.
      rewrite Hlen. symmetry. apply Hkeep.
Qed.

Lemma recorded_samples states :
  forall trajectories i traj,
  Forall (fun sk => length (sim_particles sk) = length trajectories) states ->
  trajectories !! i = Some traj ->
  exists samples,
    foldl (fun trajs sk =>
             zip_with (fun traj p => traj ++ [sample p]) trajs (sim_particles sk))
          trajectories states !! i = Some (traj ++ samples) /\
    length samples = length states /\
    forall k sk, states !! k = Some sk ->
      exists p, sim_particles sk !! i = Some p /\ samples !! k = Some (sample p).
Proof.
  induction states as [| s0 rest IH]; intros trajectories i traj Hall Hi.
  - exists []. rewrite app_nil_r. split; [exact Hi |]. split; [reflexivity |].
    intros k sk Hk. discriminate.
  - apply Forall_cons in Hall. destruct Hall as [Hs0 Hrest].
    assert (Hp : is_Some (sim_particles s0 !! i)).
    { apply lookup_lt_is_Some_2. rewrite Hs0.
      apply lookup_lt_is_Some_1. eexists; exact Hi. }
    destruct Hp as [p Hp].
    set (trajs' := zip_with (fun traj p => traj ++ [sample p]) trajectories
                            (sim_particles s0)).
    assert (Hi' : trajs' !! i = Some (traj ++ [sample p])).
    { subst trajs'. rewrite lookup_zip_with, Hi. simpl. rewrite Hp. reflexivity. }
    assert (Hrest' : Forall (fun sk => length (sim_particles sk) = length trajs')
                            rest).
    { eapply Forall_impl; [exact Hrest |]. intros sk Hsk. simpl in Hsk.
      subst trajs'. rewrite length_zip_with, Hs0, Nat.min_id. exact Hsk. }
    destruct (IH trajs' i (traj ++ [sample p]) Hrest' Hi')
      as (samples & Hfold & Hlen & Hk).
    exists (sample p :: samples). cbn [foldl]. fold trajs'.
    split; [rewrite Hfold, <- app_assoc; reflexivity |].
    split; [simpl; f_equal; exact Hlen |].
    intros [| k] sk Hsk; simpl in Hsk.
    + injection Hsk as <-. exists p. split; [exact Hp | reflexivity].
    + apply (Hk k sk Hsk).
Qed.


Lemma recorded_length states :
  forall trajectories,
  Forall (fun sk => length (sim_particles sk) = length trajectories) states ->
  length (foldl (fun trajs sk =>
                   zip_with (fun traj p => traj ++ [sample p]) trajs
                            (sim_particles sk))
                trajectories states) = length trajectories.
Proof.
  induction states as [| s0 rest IH]; intros trajectories Hall; [reflexivity |].
  apply Forall_cons in Hall. destruct Hall as [Hs0 Hrest].
  cbn [foldl]. rewrite IH.
  - rewrite length_zip_with, Hs0, Nat.min_id. reflexivity.
  - eapply Forall_impl; [exact Hrest |]. intros sk Hsk. simpl in Hsk.
    rewrite length_zip_with, Hs0, Nat.min_id. exact Hsk.
Qed.

(** Whatever the integrator does and however the loop ends, it writes
    to the copy only. *)
Lemma trajectory_loop_frame c t0 dt steps trajectories σ l :
  l <> c ->
  snd (trajectory_loop c t0 dt steps trajectories σ) !! l = σ !! l.
Proof.
  intros Hl. revert trajectories σ.
  induction steps as [| k rest IH]; intros trajectories σ; [reflexivity |].
  cbn [trajectory_loop]. destruct (σ !! c) as [sc |] eqn:Hc; [| reflexivity].
  destruct (append_samples 0 _ trajectories) as [e | trajectories'].
  - simpl. apply lookup_insert_ne. congruence.
  - rewrite IH. apply lookup_insert_ne. congruence.
Qed.

(** C6.  [get_trajectories] works on a fresh copy: every object of the
    store, the live simulation with its time and particles included, is
    the same after the call, however it ends.  Without a simulation it
    returns the empty list.  With [n_points >= 1] and an integrator
    that keeps the number of particles, it returns one trajectory per
    body, each of exactly [n_points] samples; sample [k] is the rounded
    position of the body in the state reached by integrating the copy
    to the time [t + k * duration / n_points]. *)
Theorem trajectories_preview (self : ReboundEngine) (duration : R)
    (n_points : nat) (σ : Store) :
  (forall l s, σ !! l = Some s ->
     snd (get_trajectories self duration n_points σ) !! l = Some s) /\
  (sim self = None -> get_trajectories self duration n_points σ = (ret [], σ)) /\
  (forall l s,
     sim self = Some l -> σ !! l = Some s -> (0 < n_points)%nat ->
     (forall s' t, sim_N (rb_integrate s' t) = sim_N s') ->
     exists trajectories,
       fst (get_trajectories self duration n_points σ) = ret trajectories /\
       length trajectories = sim_N s /\
       forall i, (i < sim_N s)%nat ->
         exists traj,
           trajectories !! i = Some traj /\ length traj = n_points /\
           forall k sk,
             preview s (sim_t s) (duration / INR n_points) (seq 0 n_points) !! k
               = Some sk ->
             exists p, sim_particles sk !! i = Some p /\
                       traj !! k = Some (sample p)).
Proof.
  split; [| split].
  - intros l s Hl. unfold get_trajectories.
    destruct (sim self) as [l0 |]; [| exact Hl].
    destruct (σ !! l0) as [s0 |] eqn:Hl0; [| exact Hl].
    assert (Hfresh : σ !! fresh (dom σ) = None)
      by (apply not_elem_of_dom, is_fresh).
    assert (Hne : l <> fresh (dom σ)) by congruence.
    destruct (decide (n_points = 0%nat)).
    + simpl. rewrite lookup_insert_ne by congruence. exact Hl.
    + rewrite trajectory_loop_frame by exact Hne.
      rewrite lookup_insert_ne by congruence. exact Hl.
  - intros Hnone. unfold get_trajectories. rewrite Hnone. reflexivity.
  - intros l s Hsim Hl Hn Hkeep. unfold get_trajectories.
    rewrite Hsim, Hl.
    destruct (decide (n_points = 0%nat)) as [-> | _]; [lia |].
    set (c := fresh (dom σ)).
    set (dt := duration / INR n_points).
    rewrite (trajectory_loop_eq c (sim_t s) dt (seq 0 n_points)
               (replicate (sim_N s) []) (<[c := s]> σ) s Hkeep);
      [| apply lookup_insert_eq | apply length_replicate].
    cbn [fst].
    assert (Hall : Forall (fun sk => length (sim_particles sk)
                                     = length (replicate (sim_N s) ([] : list (R * R))))
                          (preview s (sim_t s) dt (seq 0 n_points))).
    { rewrite length_replicate. apply preview_sim_N, Hkeep. }
    eexists. split; [reflexivity |].
    split; [rewrite (recorded_length _ _ Hall); apply length_replicate |].
    intros i Hi.
    destruct (recorded_samples _ (replicate (sim_N s) []) i [] Hall)
      as (samples & Hfold & Hlen & Hk).
    { apply lookup_replicate_2. exact Hi. }
    exists samples. split; [exact Hfold |].
    split; [rewrite Hlen, preview_length; apply length_seq |].
    exact Hk.
Qed.

End Session.

(** The statements above at the stand-in service [free_drift]. *)

Lemma unloaded_session_witness :
  sim init = None /\
  (exists msg, @step free_drift init 1 ∅ = (raise (RuntimeError msg), ∅)) /\
  @get_frame free_drift init ∅ = (ret (mkFrame 0 0 [] 0), ∅).
Proof.
  split; [reflexivity |].
  exact (@unloaded_session free_drift init 1 ∅ eq_refl).
Defined.


Lemma free_drift_keeps_N :
  forall s' t, sim_N (@rb_integrate free_drift s' t) = sim_N s'.
Proof. intros s' t. unfold sim_N. simpl. apply length_map. Qed.

Lemma trajectories_preview_witness :
  sim loaded = Some 1%positive /\
  ({[ 1%positive := two_bodies ]} : Store) !! 1%positive = Some two_bodies /\
  (0 < 2)%nat /\
  exists trajectories,
    fst (@get_trajectories free_drift loaded 1 2 {[ 1%positive := two_bodies ]})
      = ret trajectories /\
    length trajectories = 2%nat.
Proof.
  assert (Hl : ({[ 1%positive := two_bodies ]} : Store) !! 1%positive
               = Some two_bodies) by apply lookup_singleton_eq.
  split; [reflexivity |]. split; [exact Hl |]. split; [lia |].
  destruct (proj2 (proj2 (@trajectories_preview free_drift loaded 1 2
                            {[ 1%positive := two_bodies ]}))
              1%positive two_bodies eq_refl Hl ltac:(lia) free_drift_keeps_N)
    as (trajectories & Hcall & Hlen & _).
  exists trajectories. split; [exact Hcall | exact Hlen].
Defined.

Lemma planar_orbit_same_position :
  planar_orbit star star = inl "Particle and primary positions are the same."%string.
Proof.
  unfold planar_orbit.
  destruct (decide (p_m star = 0)) as [Hm | _]; [simpl in Hm; lra |].
  destruct (decide _) as [_ | Hd]; [reflexivity |].
  exfalso. apply Hd. simpl. unfold sq.
  replace ((0 - 0) * (0 - 0) + (0 - 0) * (0 - 0)) with 0 by lra.
  apply sqrt_0.
Qed.

Lemma planar_orbit_planet :
  exists orb, planar_orbit planet star = inr orb.
Proof.
  unfold planar_orbit.
  destruct (decide (p_m star = 0)) as [Hm | _]; [simpl in Hm; lra |].
  destruct (decide _) as [Hd | _]; [| eexists; reflexivity].
  exfalso. simpl in Hd. unfold sq in Hd.
  replace ((1 - 0) * (1 - 0) + (0 - 0) * (0 - 0)) with 1 in Hd by lra.
  rewrite sqrt_1 in Hd. lra.
Qed.

(** One batch with a well-defined orbit and a failing one: the planet
    gets its elements, the body placed on the primary gets an error
    entry. *)
Lemma element_extraction_isolated_witness :
  @live loaded {[ 1%positive := three_bodies ]} /\
  exists entries,
    @get_orbital_elements free_drift loaded {[ 1%positive := three_bodies ]}
      = (ret entries, {[ 1%positive := three_bodies ]}) /\
    length entries = 2%nat /\
    (exists a e inc Omega omega f P n,
       entries !! 0%nat = Some (ElementsOf "Planet" a e inc Omega omega f P n)) /\
    entries !! 1%nat
      = Some (ErrorOf "Body-2" "Particle and primary positions are the same.").
Proof.
  assert (Hl : ({[ 1%positive := three_bodies ]} : Store) !! 1%positive
               = Some three_bodies) by apply lookup_singleton_eq.
  assert (Hlive : @live loaded {[ 1%positive := three_bodies ]}).
  { intros l Hsim. injection Hsim as <-. exists three_bodies. exact Hl. }
  split; [exact Hlive |].
  destruct (@element_extraction_isolated free_drift loaded _ Hlive)
    as (entries & Hcall & _ & Hspec).
  destruct (Hspec 1%positive three_bodies eq_refl Hl) as [_ Hmany].
  destruct (Hmany ltac:(unfold sim_N, three_bodies; simpl; lia))
    as [Hlen Hentries].
  exists entries. split; [exact Hcall |]. split; [exact Hlen |].
  split.
  - destruct planar_orbit_planet as [orb Horb].
    destruct (Hentries 1%nat planet star ltac:(lia) eq_refl eq_refl) as [_ Hok].
    do 8 eexists. exact (Hok orb Horb).
  - destruct (Hentries 2%nat star star ltac:(lia) eq_refl eq_refl) as [Herr _].
    exact (Herr _ planar_orbit_same_position).
Defined.

End ReboundProofs.

(** ** The analytic solver and the transfer planner *)

Module PhysicsProofs.
Import Physics.

(** *** Decimal rounding *)

Lemma rint_near x : IZR (rint x) - 1 / 2 <= x <= IZR (rint x) + 1 / 2.
Proof.
  unfold rint. destruct (base_Int_part x) as [Hlo Hhi].
  destruct (decide _) as [H1 | H1]; [lra |].
  destruct (decide _) as [H2 | H2]; [rewrite plus_IZR; lra |].
  destruct (Z.even _); [lra | rewrite plus_IZR; lra].
Qed.

Lemma rint_unique x z : IZR z - 1 / 2 < x < IZR z + 1 / 2 -> rint x = z.
Proof.
  intros [Hlo Hhi]. pose proof (rint_near x) as [Hr1 Hr2].
  apply eq_IZR. 
  assert (H : (z - 1 < rint x < z + 1)%Z).
  { split; apply lt_IZR; [rewrite minus_IZR | rewrite plus_IZR]; lra. }
  f_equal. lia.
Qed.

Lemma pow10_pos n : 0 < 10 ^ n.
Proof. apply pow_lt. lra. Qed.

Lemma py_round_0 n : py_round 0 n = 0.
Proof.
  unfold py_round. rewrite Rmult_0_l.
  rewrite (rint_unique 0 0) by lra.
  unfold Rdiv. apply Rmult_0_l.
Qed.

(** Rounding to [n] decimals moves a number by at most half a unit of
    the last decimal. *)
Lemma py_round_near x n :
  x - / 2 / 10 ^ n <= py_round x n <= x + / 2 / 10 ^ n.
Proof.
  unfold py_round. pose proof (rint_near (x * 10 ^ n)) as [Hlo Hhi].
  pose proof (pow10_pos n) as Hp.
  split.
  - apply Rmult_le_reg_r with (10 ^ n); [exact Hp |].
    replace ((x - / 2 / 10 ^ n) * 10 ^ n) with (x * 10 ^ n - 1 / 2)
      by (field; lra).
    replace (IZR (rint (x * 10 ^ n)) / 10 ^ n * 10 ^ n)
      with (IZR (rint (x * 10 ^ n))) by (field; lra).
    lra.
  - apply Rmult_le_reg_r with (10 ^ n); [exact Hp |].
    replace ((x + / 2 / 10 ^ n) * 10 ^ n) with (x * 10 ^ n + 1 / 2)
      by (field; lra).
    replace (IZR (rint (x * 10 ^ n)) / 10 ^ n * 10 ^ n)
      with (IZR (rint (x * 10 ^ n))) by (field; lra).
    lra.
Qed.

(** *** The transfer planner *)

Lemma GM_pos : 0 < 4 * sq PI.
Proof. unfold sq. pose proof PI_RGT_0. nra. Qed.

(** Half the period of the circular orbit of radius [r], in days. *)
Lemma half_period r :
  0 <= r -> PI * sqrt (r ^ 3 / (4 * sq PI)) * 365.25 = 365.25 / 2 * sqrt (r ^ 3).
Proof.
  intros Hr. pose proof PI_RGT_0 as Hpi. pose proof GM_pos as HGM.
  rewrite sqrt_div_alt by exact HGM.
  replace (4 * sq PI) with ((2 * PI) * (2 * PI)) by (unfold sq; ring).
  rewrite sqrt_square by lra. field. lra.
Qed.

Lemma hohmann_plan_degenerate body1 body2 r :
  0 < r ->
  let h := hohmann_plan body1 body2 r r in
  delta_v1 h = 0 /\ delta_v2 h = 0 /\ total_delta_v h = 0 /\
  transfer_days h = py_round (365.25 / 2 * sqrt (r ^ 3)) 1.
Proof.
  intros Hr h. subst h. unfold hohmann_plan. cbn [delta_v1 delta_v2 total_delta_v transfer_days].
  replace ((r + r) / 2) with r by lra.
  replace (4 * sq PI * (2 / r - 1 / r)) with (4 * sq PI / r) by (field; lra).
  rewrite Rminus_diag, Rabs_R0, Rplus_0_l, py_round_0.
  rewrite half_period by lra. auto.
Qed.


Lemma SOLAR_SYSTEM_radius name b :
  get name SOLAR_SYSTEM = Some b -> 0.387 <= pl_a b <= 30.07.
Proof.
  unfold SOLAR_SYSTEM. cbn [get].
  repeat (destruct (String.eqb name _);
          [intros Hb; injection Hb as <-; simpl; lra |]).
  discriminate.
Qed.

Lemma get_earth :
  get "earth" SOLAR_SYSTEM = Some (mkPlanet 1.000 0.0167 0.00 365.25 "#4fffb0" 1.000).
Proof. reflexivity. Qed.

(** C1, as amended.  When both radii are equal ([r1 == r2]) the planner
    returns a result, not an error, whose two delta-v components (and
    their total) are 0; the returned transfer time is not 0: it is half
    the period of the circular orbit of that radius, [365.25 / 2 *
    sqrt(r^3)] days rounded to one decimal, a positive number. *)
Theorem hohmann_degenerate (body1 body2 : string) (b1 b2 : Planet) :
  get body1 SOLAR_SYSTEM = Some b1 ->
  get body2 SOLAR_SYSTEM = Some b2 ->
  pl_a b1 = pl_a b2 ->
  exists h,
    compute_hohmann body1 body2 = Some h /\
    delta_v1 h = 0 /\ delta_v2 h = 0 /\ total_delta_v h = 0 /\
    transfer_days h = py_round (365.25 / 2 * sqrt (pl_a b1 ^ 3)) 1 /\
    0 < transfer_days h.
Proof.
  intros H1 H2 Heq. unfold compute_hohmann. rewrite H1, H2, <- Heq.
  pose proof (SOLAR_SYSTEM_radius body1 b1 H1) as [Hlo Hhi].
  set (r := pl_a b1) in *.
  destruct (hohmann_plan_degenerate body1 body2 r ltac:(lra))
    as (Hd1 & Hd2 & Hd & HT).
  eexists. split; [reflexivity |].
  split; [exact Hd1 |]. split; [exact Hd2 |]. split; [exact Hd |].
  split; [exact HT |]. rewrite HT.
  pose proof (py_round_near (365.25 / 2 * sqrt (r ^ 3)) 1) as [Hnear _].
  assert (Hs : 0.24 < sqrt (r ^ 3)).
  { replace 0.24 with (sqrt (0.24 * 0.24)) by (apply sqrt_square; lra).
    apply sqrt_lt_1_alt. simpl. nra. }
  replace (10 ^ 1) with 10 in Hnear by (simpl; lra). lra.
Qed.

(** The transfer between Earth's orbit and itself: both radii are 1 AU
    and the returned transfer time is 182.6 days. *)
Lemma hohmann_degenerate_time_not_zero :
  exists h,
    compute_hohmann "earth" "earth" = Some h /\
    r1_au h = r2_au h /\
    transfer_days h = 182.6 /\ transfer_days h <> 0.
Proof.
  exists (hohmann_plan "earth" "earth" 1.000 1.000).
  split; [reflexivity |]. split; [reflexivity |].
  destruct (hohmann_plan_degenerate "earth" "earth" 1.000 ltac:(lra))
    as (_ & _ & _ & HT).
  assert (Ht : transfer_days (hohmann_plan "earth" "earth" 1.000 1.000) = 182.6).
  { rewrite HT.
    replace (1.000 ^ 3) with 1 by (simpl; lra). rewrite sqrt_1.
    unfold py_round.
    rewrite (rint_unique _ 1826) by (simpl; lra).
    simpl. lra. }
  split; [exact Ht | rewrite Ht; lra].
Qed.

Lemma hohmann_degenerate_witness :
  get "earth" SOLAR_SYSTEM
    = Some (mkPlanet 1.000 0.0167 0.00 365.25 "#4fffb0" 1.000) /\
  exists h,
    compute_hohmann "earth" "earth" = Some h /\
    delta_v1 h = 0 /\ delta_v2 h = 0 /\ 0 < transfer_days h.
Proof.
  split; [reflexivity |].
  destruct (hohmann_degenerate "earth" "earth" _ _ get_earth get_earth eq_refl)
    as (h & Hh & H1 & H2 & _ & _ & HT).
  exists h. auto.
Defined.


(** *** The Kepler solver *)

Lemma fold_left_Rmax_lt tol l x :
  fold_left Rmax l x < tol <-> x < tol /\ Forall (fun y => y < tol) l.
Proof.
  revert x. induction l as [| y l IH]; intros x; simpl.
  - split; [intros Hx; split; [exact Hx | constructor] | intros [Hx _]; exact Hx].
  - rewrite IH. split.
    + intros [Hxy Hl].
      pose proof (Rmax_l x y). pose proof (Rmax_r x y).
      split; [lra |]. constructor; [lra | exact Hl].
    + intros [Hx Hyl]. apply Forall_cons in Hyl. destruct Hyl as [Hy Hl].
      split; [apply Rmax_lub_lt; assumption | exact Hl].
Qed.

Lemma np_max_lt tol a :
  a <> [] ->
  exists worst, np_max a = ret worst /\
                (worst < tol <-> Forall (fun y => y < tol) a).
Proof.
  destruct a as [| x l]; [contradiction |]. intros _.
  exists (fold_left Rmax l x). split; [reflexivity |].
  rewrite fold_left_Rmax_lt. split.
  - intros [Hx Hl]. constructor; assumption.
  - intros Hall. apply Forall_cons in Hall. exact Hall.
Qed.

Lemma newton_iterate_S e M n :
  newton_iterate e M (S n) = newton_iterate e M n + correction e M (S n).
Proof.
  unfold correction. cbn [Nat.sub]. rewrite Nat.sub_0_r. reflexivity.
Qed.

(** One pass of the vectorised loop is one Newton update of every
    sample. *)
Lemma kepler_pass e Ms j :
  let E := map (fun M => newton_iterate e M j) Ms in
  let dE := zip_with (fun m x => (m - x + e * sin x) / (1 - e * cos x)) Ms E in
  dE = map (fun M => correction e M (S j)) Ms /\
  zip_with Rplus E dE = map (fun M => newton_iterate e M (S j)) Ms.
Proof.
  intros E dE.
  assert (HdE : dE = map (fun M => correction e M (S j)) Ms).
  { subst dE E. rewrite zip_with_fmap_r, zip_with_diag.
    apply map_ext. intros M. unfold correction. cbn [Nat.sub].
    rewrite Nat.sub_0_r. reflexivity. }
  split; [exact HdE |]. rewrite HdE. subst E.
  rewrite zip_with_fmap_l, zip_with_fmap_r, zip_with_diag.
  apply map_ext. intros M. symmetry. apply newton_iterate_S.
Qed.

Lemma solve_kepler_loop_spec e tol Ms fuel :
  Ms <> [] ->
  forall j,
  exists n,
    solve_kepler_loop fuel Ms (map (fun M => newton_iterate e M j) Ms) e tol
      = ret (map (fun M => newton_iterate e M n) Ms) /\
    (j <= n <= j + fuel)%nat /\
    ((0 < fuel)%nat -> (j < n)%nat) /\
    (forall m, (j < m < n)%nat -> ~ converged e tol Ms m) /\
    ((n < j + fuel)%nat -> converged e tol Ms n).
Proof.
  intros Hne. induction fuel as [| fuel IH]; intros j.
  - exists j. split; [reflexivity |]. repeat split; try lia.
  - cbn [solve_kepler_loop].
    destruct (kepler_pass e Ms j) as [HdE HE']. cbv zeta in HdE, HE'.
    rewrite HE', HdE.
    destruct (np_max_lt tol (map Rabs (map (fun M => correction e M (S j)) Ms)))
      as (worst & Hmax & Hworst).
    { destruct Ms; [contradiction | discriminate]. }
    rewrite Hmax. cbn [bind ret].
    assert (Hconv : worst < tol <-> converged e tol Ms (S j)).
    { rewrite Hworst. unfold converged.
      rewrite !Forall_fmap. reflexivity. }
    destruct (decide (worst < tol)) as [Hlt | Hge].
    + exists (S j). split; [reflexivity |]. repeat split; try lia.
      intros _. apply Hconv, Hlt.
    + destruct (IH (S j)) as (n & Hloop & Hrange & Hpos & Hbefore & Hafter).
      exists n. split; [exact Hloop |].
      split; [lia |]. split; [lia |]. split.
      * intros m Hm. destruct (decide (m = S j)) as [-> | Hneq].
        -- rewrite <- Hconv. exact Hge.
        -- apply Hbefore. lia.
      * intros Hn. apply Hafter. lia.
Qed.

Lemma linspace_length a b n : length (linspace a b n) = n.
Proof.
  destruct n as [| [| n]]; [reflexivity | reflexivity |].
  unfold linspace. rewrite length_map, length_seq. reflexivity.
Qed.

Lemma linspace_first a b n :
  exists t0, linspace a b (S n) !! 0%nat = Some t0 /\ t0 = a.
Proof.
  destruct n as [| n].
  - exists a. split; reflexivity.
  - eexists. split; [reflexivity |]. simpl. lra.
Qed.


(** What [compute_orbit] returns for a known body and at least one
    sample, in the terms of the specification: every array is the image
    of the time array under the steps of the solver, with one number [n]
    of Newton updates for all samples. *)
Lemma compute_orbit_eq (body_name : string) (body : Planet)
    (duration_days : R) (steps : nat) :
  get (lower body_name) SOLAR_SYSTEM = Some body ->
  (0 < steps)%nat ->
  let a := pl_a body in
  let e := pl_e body in
  let t := linspace 0 duration_days steps in
  let M := fun tk => 2 * PI * tk / pl_period body in
  exists n elements,
    let nu := fun tk => true_anomaly e (newton_iterate e (M tk) n) in
    let r := fun tk => conic_radius a e (nu tk) in
    compute_orbit body_name duration_days steps
      = ret (Some (mkOrbitData body_name
                     (map (fun tk => r tk * cos (nu tk)) t)
                     (map (fun tk => r tk * sin (nu tk)) t)
                     (map r t)
                     (map (fun tk => vis_viva (4 * sq PI) (r tk) a * speed_factor) t)
                     t (pl_color body) elements)) /\
    (1 <= n <= 100)%nat /\
    (forall m, (1 <= m < n)%nat -> ~ converged e 1e-10 (map M t) m) /\
    ((n < 100)%nat -> converged e 1e-10 (map M t) n).
Proof.
  intros Hget Hsteps a e t M.
  assert (Ht : t <> []).
  { intros Hnil. apply (f_equal length) in Hnil. subst t.
    rewrite linspace_length in Hnil. simpl in Hnil. lia. }
  assert (HM : map M t <> []) by (destruct t; [contradiction | discriminate]).
  destruct (solve_kepler_loop_spec e 1e-10 (map M t) 100 HM 0%nat)
    as (n & Hloop & Hrange & Hpos & Hbefore & Hafter).
  assert (Hseed : map (fun M0 => newton_iterate e M0 0) (map M t) = map M t)
    by (rewrite map_id; reflexivity).
  rewrite Hseed in Hloop.
  unfold compute_orbit. rewrite Hget. fold a e t.
  change (map (fun tk => 2 * PI * tk / pl_period body) t) with (map M t).
  unfold solve_kepler. rewrite Hloop. cbn [bind ret].
  rewrite !map_map.
  rewrite zip_with_fmap_l, zip_with_fmap_r, zip_with_diag.
  rewrite zip_with_fmap_l, zip_with_fmap_r, zip_with_diag.
  set (v := map _ t).
  destruct (np_max_lt 0 v) as (vmax & Hvmax & _).
  { subst v. destruct t; [contradiction | discriminate]. }
  assert (Hvmin : exists vmin, np_min v = ret vmin).
  { subst v. destruct t; [contradiction |]. eexists; reflexivity. }
  destruct Hvmin as [vmin Hvmin].
  rewrite Hvmax, Hvmin. cbn [bind ret].
  exists n. eexists. split; [reflexivity |].
  split; [lia |]. split.
  - intros m Hm. apply Hbefore. lia.
  - intros Hn. apply Hafter. lia.
Qed.


(** The steps of [compute_orbit].  For a body of the table and at
    least one sample, each sample time [t] gives: mean anomaly
    [M = 2 pi t / P]; eccentric anomaly by Newton-Raphson from [E0 = M]
    with the update [E += (M - E + e sin E) / (1 - e cos E)], the same
    number [n] of updates for all samples, where [n] is the first
    update at which every sample's correction is below [1e-10] in
    absolute value, or 100 if there is none (the last iterate is used);
    true anomaly by the half-angle arctangent form; radius by the polar
    conic equation; coordinates [(r cos nu, r sin nu)]; and a speed
    that is the vis-viva value [sqrt(GM (2/r - 1/a))] multiplied by
    [365.25 / (2 pi)]. *)
Lemma compute_orbit_steps (body_name : string) (body : Planet)
    (duration_days : R) (steps : nat) :
  get (lower body_name) SOLAR_SYSTEM = Some body ->
  (0 < steps)%nat ->
  let a := pl_a body in
  let e := pl_e body in
  let M := fun tk => 2 * PI * tk / pl_period body in
  exists od n,
    compute_orbit body_name duration_days steps = ret (Some od) /\
    od_t od = linspace 0 duration_days steps /\
    (1 <= n <= 100)%nat /\
    (forall m, (1 <= m < n)%nat -> ~ converged e 1e-10 (map M (od_t od)) m) /\
    ((n < 100)%nat -> converged e 1e-10 (map M (od_t od)) n) /\
    forall k tk, od_t od !! k = Some tk ->
      let E := newton_iterate e (M tk) n in
      let nu := true_anomaly e E in
      let r := conic_radius a e nu in
      od_r od !! k = Some r /\
      od_x od !! k = Some (r * cos nu) /\
      od_y od !! k = Some (r * sin nu) /\
      od_v od !! k
      = Some (sqrt (4 * sq PI * (2 / r - 1 / a)) * (365.25 / (2 * PI))).
Proof.
  intros Hget Hsteps a e M.
  destruct (compute_orbit_eq body_name body duration_days steps Hget Hsteps)
    as (n & elements & Heq & Hrange & Hbefore & Hafter).
  cbv zeta in Heq. fold a e M in Heq, Hbefore, Hafter.
  eexists. exists n. split; [exact Heq |]. cbn [od_t od_r od_x od_y od_v].
  split; [reflexivity |]. split; [exact Hrange |].
  split; [exact Hbefore |]. split; [exact Hafter |].
  intros k tk Hk. cbv zeta.
  rewrite !list_lookup_fmap, Hk. auto.
Qed.

Lemma newton_iterate_0 e n : newton_iterate e 0 n = 0.
Proof.
  induction n as [| n IH]; [reflexivity |].
  change (newton_iterate e 0 (S n))
    with (newton_update e 0 (newton_iterate e 0 n)).
  rewrite IH. unfold newton_update. rewrite sin_0. unfold Rdiv. ring.
Qed.

Lemma true_anomaly_0 e : e < 1 -> true_anomaly e 0 = 0.
Proof.
  intros He. unfold true_anomaly.
  replace (0 / 2) with 0 by lra. rewrite sin_0, cos_0.
  assert (Hs : 0 < sqrt (1 - e)) by (apply sqrt_lt_R0; lra).
  unfold arctan2. destruct (decide _) as [_ | Hn]; [| lra].
  replace (sqrt (1 + e) * 0 / (sqrt (1 - e) * 1)) with 0 by (field; lra).
  rewrite atan_0. lra.
Qed.

Lemma speed_factor_gt_1 : 1 < speed_factor.
Proof.
  unfold speed_factor. pose proof PI_RGT_0. pose proof PI_4.
  apply Rmult_lt_reg_r with (2 * PI); [lra |].
  replace (365.25 / (2 * PI) * (2 * PI)) with 365.25 by (field; lra). lra.
Qed.

(** C5.  The speed of [compute_orbit] is not the vis-viva speed.  At
    the first sample of [compute_orbit("earth", 365, 500)], the
    perihelion [r = 0.9833], the value returned is the vis-viva speed
    [sqrt(GM (2/r - 1/a))], about 6.39 (AU/yr), multiplied by
    [365.25 / (2 pi)]: about 371.4.  The source comments the value as
    AU/day and reports it as [max_speed_au_day]; the vis-viva speed in
    AU/day is the speed in AU/yr divided by 365.25, about 0.0175. *)
Theorem earth_speed_at_perihelion :
  exists od r0 v0,
    compute_orbit "earth" 365 500 = ret (Some od) /\
    od_r od !! 0%nat = Some r0 /\ od_v od !! 0%nat = Some v0 /\
    r0 = 0.9833 /\
    let vis_viva_speed := sqrt (4 * sq PI * (2 / r0 - 1 / 1.000)) in
    v0 = vis_viva_speed * (365.25 / (2 * PI)) /\
    371 < v0 < 372 /\
    6.38 < vis_viva_speed < 6.40 /\
    0.0174 < vis_viva_speed / 365.25 < 0.0176.
Proof.
  destruct (compute_orbit_eq "earth" _ 365 500 get_earth ltac:(lia))
    as (n & elements & Heq & _).
  cbv zeta in Heq. cbn [pl_a pl_e pl_period] in Heq.
  destruct (linspace_first 0 365 499) as (t0 & Ht0 & Hzero).
  eexists. eexists. eexists. split; [exact Heq |].
  cbn [od_r od_v]. rewrite !list_lookup_fmap, Ht0. cbn [fmap option_fmap option_map].
  subst t0. replace (2 * PI * 0 / 365.25) with 0 by (field; lra).
  rewrite newton_iterate_0, true_anomaly_0 by lra.
  assert (Hr0 : conic_radius 1.000 0.0167 0 = 0.9833).
  { unfold conic_radius, sq. rewrite cos_0. lra. }
  rewrite Hr0. unfold vis_viva, speed_factor.
  split; [reflexivity |]. split; [reflexivity |]. split; [reflexivity |].
  cbv zeta.
  pose proof ValidatorProofs.PI_bounds as [Hlo Hhi].
  set (c := 2 / 0.9833 - 1 / 1.000).
  assert (Hc : 1.0339 < c < 1.0340) by (subst c; lra).
  assert (Hroot : sqrt (4 * sq PI * c) = 2 * PI * sqrt c).
  { replace (4 * sq PI * c) with ((2 * PI) * (2 * PI) * c) by (unfold sq; ring).
    rewrite sqrt_mult by nra. rewrite sqrt_square by lra. reflexivity. }
  assert (Hsc : 1.0168 < sqrt c < 1.0169).
  { split; [apply ValidatorProofs.sqrt_lower | apply ValidatorProofs.sqrt_upper];
      lra. }
  rewrite Hroot.
  replace (2 * PI * sqrt c * (365.25 / (2 * PI))) with (365.25 * sqrt c)
    by (field; lra).
  split; [reflexivity |].
  split; [lra |]. split; [nra |]. nra.
Qed.

End PhysicsProofs.

(** ** Further properties of scenario_validator.py and ai_scenario_generator.py *)

Module ValidatorExtras.
Import Validator ValidatorProofs.

(** X1.  The escape velocity is [sqrt 2] times the circular velocity
    for all arguments; both are 0, and nothing is raised, when the
    radius or the central mass is not positive, and both are positive
    otherwise. *)
Theorem escape_is_sqrt2_circular (M r : R) :
  escape_velocity M r = sqrt 2 * circular_orbit_velocity M r /\
  (r <= 0 \/ M <= 0 ->
     circular_orbit_velocity M r = 0 /\ escape_velocity M r = 0) /\
  (0 < r -> 0 < M ->
     0 < circular_orbit_velocity M r /\ 0 < escape_velocity M r).
Proof.
  unfold escape_velocity, circular_orbit_velocity.
  destruct (decide (r <= 0 \/ M <= 0)) as [Hg | Hg].
  - split; [lra |]. split; [auto |]. intros Hr HM. lra.
  - assert (Hr : 0 < r) by (destruct (Rle_dec r 0); [tauto | lra]).
    assert (HM : 0 < M) by (destruct (Rle_dec M 0); [tauto | lra]).
    pose proof G_SOLAR_pos as HG.
    assert (Hq : 0 < G_SOLAR * M / r)
      by (apply Rdiv_lt_0_compat; [nra | exact Hr]).
    split; [| split; [tauto |]].
    + replace (2 * G_SOLAR * M / r) with (2 * (G_SOLAR * M / r)) by (field; lra).
      apply sqrt_mult; lra.
    + intros _ _. split; apply sqrt_lt_R0; [exact Hq |].
      replace (2 * G_SOLAR * M / r) with (2 * (G_SOLAR * M / r)) by (field; lra).
      lra.
Qed.

(** A flagged body is changed by the correction: its new speed is the
    circular speed, which the tests accept, while its old speed was not
    accepted. *)
Lemma flagged_body_changes M i b :
  findings true M i b <> [] -> snd (check_body true M i b) <> b.
Proof.
  intros Hflag Heq. unfold findings in Hflag.
  destruct (check_body_cases true M i b) as [Hsame | (p & Hr & Hc & Hfix)].
  - rewrite Hsame in Hflag. contradiction.
  - rewrite Hfix in Heq. simpl in Heq.
    assert (Hspeed : speed b = circular_orbit_velocity M (orbit_radius b)).
    { assert (Hpos : 0 < orbit_radius b) by lra.
      rewrite <- Heq at 1. rewrite speed_set_velocity.
      apply corrected_speed;
        [exact Hpos | apply circular_orbit_velocity_nonneg]. }
    rewrite Hspeed, classify_circular in Hc. discriminate.
Qed.

(** The lines added for one body: none, or a warning followed by the
    correction notice when [auto_fix] is set. *)
Lemma findings_shape af M i b :
  findings af M i b = [] \/
  exists p, findings af M i b
            = Warning (display_name i b) p
              :: (if af then [Fixed (display_name i b)
                                (circular_orbit_velocity M (orbit_radius b))]
                  else []).
Proof.
  unfold findings.
  destruct (check_body_cases af M i b) as [-> | (p & _ & _ & ->)];
    [left; reflexivity |].
  right. exists p. destruct af; reflexivity.
Qed.

Lemma findings_unchanged af M i b :
  findings af M i b = [] -> check_body af M i b = ([], b).
Proof.
  unfold findings.
  destruct (check_body_cases af M i b) as [-> | (p & _ & _ & ->)];
    [reflexivity |].
  destruct af; discriminate.
Qed.

Lemma validate_loop_cons af M i b bs :
  validate_loop af M i (b :: bs)
  = (findings af M i b ++ fst (validate_loop af M (S i) bs),
     snd (check_body af M i b) :: snd (validate_loop af M (S i) bs)).
Proof.
  cbn [validate_loop]. unfold findings.
  destruct (check_body af M i b), (validate_loop af M (S i) bs). reflexivity.
Qed.

Lemma count_warnings_findings af M i b :
  length (filter (fun x => is_warning x = true) (findings af M i b))
  = if decide (findings af M i b = []) then 0%nat else 1%nat.
Proof.
  destruct (findings_shape af M i b) as [-> | [p ->]]; [reflexivity |].
  destruct af; reflexivity.
Qed.

(** No warning in the issues of the loop: no issue at all, and the
    bodies come back as they are. *)
Lemma validate_loop_no_warning af M i bs :
  filter (fun x => is_warning x = true) (fst (validate_loop af M i bs)) = [] ->
  validate_loop af M i bs = ([], bs).
Proof.
  revert i. induction bs as [| b bs IH]; intros i Hnone; [reflexivity |].
  rewrite validate_loop_cons in Hnone |- *. cbn [fst] in Hnone.
  rewrite filter_app in Hnone. apply app_eq_nil in Hnone.
  destruct Hnone as [Hb Hrest].
  assert (Hfb : findings af M i b = []).
  { destruct (findings_shape af M i b) as [H | [p H]]; [exact H |].
    rewrite H in Hb. discriminate. }
  rewrite Hfb, (findings_unchanged af M i b Hfb), (IH (S i) Hrest). reflexivity.
Qed.

Lemma validate_loop_unchanged M i bs :
  snd (validate_loop true M i bs) = bs ->
  fst (validate_loop true M i bs) = [].
Proof.
  revert i. induction bs as [| b bs IH]; intros i Hsame; [reflexivity |].
  rewrite validate_loop_cons in Hsame |- *. cbn [fst snd] in *.
  injection Hsame as Hb Hrest.
  rewrite (IH (S i) Hrest), app_nil_r.
  destruct (decide (findings true M i b = [])) as [H | H]; [exact H |].
  exfalso. exact (flagged_body_changes M i b H Hb).
Qed.


Lemma set_bodies_same s bodies :
  sc_bodies s = Some bodies -> set_bodies s bodies = s.
Proof. destruct s. simpl. intros ->. reflexivity. Qed.

Lemma bodies_present s b bs :
  default [] (sc_bodies s) = b :: bs -> sc_bodies s = Some (b :: bs).
Proof. destruct (sc_bodies s); simpl; [congruence | discriminate]. Qed.



(** *** The whole function, once more *)

Lemma validate_many_stats s af primary others :
  default [] (sc_bodies s) = primary :: others -> others <> [] ->
  let M := default 1 (body_mass primary) in
  let iss := fst (validate_loop af M 1 others) in
  stats (validate_and_fix_scenario s af)
  = Some (mkStats (length (primary :: others))
            (length (filter (fun i => is_warning i = true) iss))
            (length (filter (fun i => mentions_FIXED i = true) iss))).
Proof.
  intros Hb Hne M iss. unfold validate_and_fix_scenario. rewrite Hb.
  destruct others as [| b bs]; [contradiction |].
  fold M. subst iss. destruct (validate_loop af M 1 (b :: bs)) as [iss fixed].
  reflexivity.
Qed.

Lemma ok_issues_scenario (s : Scenario) :
  let res := validate_and_fix_scenario s true in
  (ok res = true <-> issues res = []) /\
  (ok res = true <-> scenario res = s).
Proof.
  intros res. subst res.
  destruct (decide (length (default [] (sc_bodies s)) < 2)%nat) as [Hfew | Hmany].
  - rewrite (validate_few_bodies s true Hfew). simpl. tauto.
  - destruct (default [] (sc_bodies s)) as [| primary others] eqn:Hb;
      [simpl in Hmany; lia |].
    assert (Hne : others <> [])
      by (destruct others; [simpl in Hmany; lia | discriminate]).
    destruct (validate_many_bodies s true primary others Hb Hne)
      as (Hiss & Hsc & Hok).
    set (M := default 1 (body_mass primary)) in *.
    rewrite Hiss, Hsc, Hok.
    assert (Hnone : bool_decide
                      (length (filter (fun i => is_warning i = true)
                                 (fst (validate_loop true M 1 others))) = 0%nat)
                    = true
                    <-> validate_loop true M 1 others = ([], others)).
    { rewrite bool_decide_eq_true. split.
      - intros Hlen. apply validate_loop_no_warning.
        apply length_zero_iff_nil. exact Hlen.
      - intros ->. reflexivity. }
    rewrite Hnone. split.
    + split; [intros ->; reflexivity |].
      intros Hnil. apply validate_loop_no_warning. rewrite Hnil. reflexivity.
    + split.
      * intros ->. apply set_bodies_same, bodies_present, Hb.
      * intros Hsame.
        assert (Hfixed : snd (validate_loop true M 1 others) = others).
        { apply (f_equal sc_bodies) in Hsame. simpl in Hsame.
          rewrite (bodies_present s _ _ Hb) in Hsame. congruence. }
        pose proof (validate_loop_unchanged M 1 others Hfixed) as Hfst.
        destruct (validate_loop true M 1 others). simpl in *. congruence.
Qed.

(** X3.  With [auto_fix], [ok] is true exactly when no issue is
    reported, and exactly when the scenario returned is the scenario
    given: a scenario is reported as not ok if and only if it was
    changed. *)
Theorem ok_iff_unchanged (s : Scenario) :
  let res := validate_and_fix_scenario s true in
  (ok res = true <-> issues res = []) /\
  (ok res = true <-> scenario res = s).
Proof. exact (ok_issues_scenario s). Qed.

Lemma validate_loop_detection M i bs :
  snd (validate_loop false M i bs) = bs /\
  fst (validate_loop false M i bs)
  = filter (fun x => is_warning x = true) (fst (validate_loop true M i bs)).
Proof.
  revert i. induction bs as [| b bs IH]; intros i; [split; reflexivity |].
  rewrite !validate_loop_cons. cbn [fst snd].
  destruct (IH (S i)) as [IHs IHf]. rewrite IHs, IHf, filter_app.
  unfold findings.
  destruct (check_body_cases false M i b) as [Hf | (p & Hr & Hc & Hf)].
  - rewrite Hf.
    assert (Ht : check_body true M i b = ([], b)).
    { destruct (check_body_cases true M i b) as [H | (p & Hr & Hc & H)];
        [exact H |].
      rewrite (check_body_flagged false M i b p Hr Hc) in Hf. discriminate. }
    rewrite Ht. split; reflexivity.
  - rewrite Hf, (check_body_flagged true M i b p Hr Hc). split; reflexivity.
Qed.

(** X4.  Detection does not depend on [auto_fix]: without it the
    scenario given is returned, the issues are exactly the warnings
    that the run with [auto_fix] reports, in the same order, and [ok] is
    the same. *)
Theorem detection_without_fix (s : Scenario) :
  let dry := validate_and_fix_scenario s false in
  let fixed := validate_and_fix_scenario s true in
  scenario dry = s /\
  issues dry = filter (fun i => is_warning i = true) (issues fixed) /\
  ok dry = ok fixed.
Proof.
  intros dry fixed. subst dry fixed.
  destruct (decide (length (default [] (sc_bodies s)) < 2)%nat) as [Hfew | Hmany].
  - rewrite !(validate_few_bodies s _ Hfew). auto.
  - destruct (default [] (sc_bodies s)) as [| primary others] eqn:Hb;
      [simpl in Hmany; lia |].
    assert (Hne : others <> [])
      by (destruct others; [simpl in Hmany; lia | discriminate]).
    destruct (validate_many_bodies s false primary others Hb Hne)
      as (Hiss0 & Hsc0 & Hok0).
    destruct (validate_many_bodies s true primary others Hb Hne)
      as (Hiss1 & _ & Hok1).
    set (M := default 1 (body_mass primary)) in *.
    destruct (validate_loop_detection M 1 others) as [Hs Hf].
    rewrite Hiss0, Hsc0, Hok0, Hiss1, Hok1, Hs, Hf.
    split; [apply set_bodies_same, bodies_present, Hb |].
    split; [reflexivity |].
    rewrite list_filter_filter_l by tauto. reflexivity.
Qed.


Lemma validate_loop_counts af M i bs :
  let iss := fst (validate_loop af M i bs) in
  let found := length (filter (fun x => is_warning x = true) iss) in
  (found <= length bs)%nat /\
  length iss = ((if af then 2 else 1) * found)%nat /\
  ((if af then found else 0) <=
   length (filter (fun x => mentions_FIXED x = true) iss))%nat.
Proof.
  revert i. induction bs as [| b bs IH]; intros i.
  - simpl. destruct af; simpl; lia.
  - rewrite validate_loop_cons. cbn [fst]. cbv zeta in IH |- *.
    destruct (IH (S i)) as (IH1 & IH2 & IH3).
    rewrite !filter_app, !length_app, IH2.
    destruct (findings_shape af M i b) as [-> | [p ->]].
    + simpl. destruct af; lia.
    + destruct af.
      * rewrite !filter_cons. cbn [is_warning mentions_FIXED].
        repeat (destruct (decide _); try discriminate; try contradiction;
                try congruence); simpl; lia.
      * rewrite !filter_cons. cbn [is_warning mentions_FIXED].
        repeat (destruct (decide _); try discriminate; try contradiction;
                try congruence); simpl; lia.
Qed.

(** X5.  The summary counts fit the result.  With fewer than two
    bodies the result has no [stats] at all.  Otherwise [total_bodies]
    is the number of bodies, [issues_found] is at most [total_bodies -
    1] (the first body is never flagged), [ok] holds exactly when
    [issues_found] is 0, the issues list has two lines per finding with
    [auto_fix] and one without, and with [auto_fix] [issues_fixed] is at
    least [issues_found]. *)
Theorem stats_consistent (s : Scenario) (auto_fix : bool) :
  let res := validate_and_fix_scenario s auto_fix in
  let bodies := default [] (sc_bodies s) in
  match stats res with
  | None => (length bodies < 2)%nat /\ res = mkResult true [] s None
  | Some st =>
      (2 <= length bodies)%nat /\
      total_bodies st = length bodies /\
      (issues_found st <= total_bodies st - 1)%nat /\
      (ok res = true <-> issues_found st = 0%nat) /\
      length (issues res) = ((if auto_fix then 2 else 1) * issues_found st)%nat /\
      ((if auto_fix then issues_found st else 0) <= issues_fixed st)%nat
  end.
Proof.
  intros res bodies. subst res bodies.
  destruct (decide (length (default [] (sc_bodies s)) < 2)%nat) as [Hfew | Hmany].
  - rewrite (validate_few_bodies s auto_fix Hfew). simpl. auto.
  - destruct (default [] (sc_bodies s)) as [| primary others] eqn:Hb;
      [simpl in Hmany; lia |].
    assert (Hne : others <> [])
      by (destruct others; [simpl in Hmany; lia | discriminate]).
    destruct (validate_many_bodies s auto_fix primary others Hb Hne)
      as (Hiss & _ & Hok).
    rewrite (validate_many_stats s auto_fix primary others Hb Hne).
    set (M := default 1 (body_mass primary)) in *.
    destruct (validate_loop_counts auto_fix M 1 others) as (H1 & H2 & H3).
    cbv zeta in H1, H2, H3.
    cbn [total_bodies issues_found issues_fixed].
    rewrite Hiss, Hok, bool_decide_eq_true.
    split; [simpl in *; lia |]. split; [reflexivity |].
    split; [simpl; lia |]. split; [reflexivity |].
    split; [exact H2 | exact H3].
Qed.

Lemma smart_validate_snd s verbose :
  snd (smart_validate_scenario s verbose) = validate_and_fix_scenario s true.
Proof.
  unfold smart_validate_scenario.
  destruct (decide (length (default [] (sc_bodies s)) < 2)%nat) as [Hfew | _].
  - simpl. symmetry. apply validate_few_bodies, Hfew.
  - repeat destruct (decide _); reflexivity.
Qed.

Lemma validate_twice s :
  validate_and_fix_scenario (scenario (validate_and_fix_scenario s true)) true
  = mkResult true [] (scenario (validate_and_fix_scenario s true))
      (stats (validate_and_fix_scenario
                (scenario (validate_and_fix_scenario s true)) true)).
Proof.
  destruct (decide (length (default [] (sc_bodies s)) < 2)%nat) as [Hfew | Hmany].
  - rewrite (validate_few_bodies s true Hfew). cbn [scenario].
    rewrite (validate_few_bodies s true Hfew). reflexivity.
  - destruct (default [] (sc_bodies s)) as [| primary others] eqn:Hb;
      [simpl in Hmany; lia |].
    assert (Hne : others <> [])
      by (destruct others; [simpl in Hmany; lia | discriminate]).
    destruct (validate_many_bodies s true primary others Hb Hne)
      as (_ & Hsc & _).
    set (M := default 1 (body_mass primary)) in *.
    set (fixed := snd (validate_loop true M 1 others)) in *.
    assert (Hlen : length fixed = length others) by apply validate_loop_length.
    assert (Hne' : fixed <> []).
    { destruct fixed; [| discriminate].
      destruct others; [contradiction | discriminate]. }
    pose proof (validate_loop_idempotent M 1 1 others) as Hidem.
    fold fixed in Hidem.
    rewrite Hsc.
    destruct (validate_many_bodies (set_bodies s (primary :: fixed)) true
                primary fixed eq_refl Hne') as (Hiss2 & Hsc2 & Hok2).
    fold M in Hiss2, Hsc2, Hok2. rewrite Hidem in Hiss2, Hsc2, Hok2.
    destruct (validate_and_fix_scenario (set_bodies s (primary :: fixed)) true)
      as [ok2 iss2 sc2 st2].
    simpl in *. subst. reflexivity.
Qed.

Lemma fix_scenario_velocities_eq (s : Scenario) :
  fix_scenario_velocities s
  = ((if ok (validate_and_fix_scenario s true) then []
      else Text "⚠️  Velocity issues detected and fixed:"
           :: map IssueLine (issues (validate_and_fix_scenario s true))),
     scenario (validate_and_fix_scenario s true)).
Proof.
  unfold fix_scenario_velocities.
  pose proof (smart_validate_snd s false) as Hsnd.
  pose proof (smart_validate_silent s) as Hfst.
  destruct (smart_validate_scenario s false) as [out result].
  simpl in Hsnd, Hfst. subst. reflexivity.
Qed.

(** X6.  [fix_scenario_velocities] is idempotent: applied to its own
    output it returns that scenario and prints nothing; and the first
    call prints nothing exactly when it returns the scenario it was
    given. *)
Theorem fix_scenario_velocities_idempotent (s : Scenario) :
  let first := fix_scenario_velocities s in
  let second := fix_scenario_velocities (snd first) in
  snd second = snd first /\ fst second = [] /\
  (fst first = [] <-> snd first = s).
Proof.
  intros first second. subst second first.
  rewrite (fix_scenario_velocities_eq s). cbn [fst snd].
  rewrite fix_scenario_velocities_eq. cbn [fst snd].
  rewrite validate_twice. cbn [ok scenario].
  split; [reflexivity |]. split; [reflexivity |].
  destruct (ok_issues_scenario s) as [_ Hok].
  rewrite <- Hok.
  destruct (ok (validate_and_fix_scenario s true)); split; try reflexivity;
    discriminate.
Qed.


(** The bodies returned by [fix_scenario_velocities] have the masses
    and positions of the bodies given. *)
Lemma fixed_bodies_positions (s : Scenario) :
  Forall2 (fun b b' => body_mass b' = body_mass b /\ body_x b' = body_x b
                       /\ body_y b' = body_y b)
          (default [] (sc_bodies s))
          (default [] (sc_bodies (scenario (validate_and_fix_scenario s true)))).
Proof.
  destruct (decide (length (default [] (sc_bodies s)) < 2)%nat) as [Hfew | Hmany].
  - rewrite (validate_few_bodies s true Hfew). cbn [scenario].
    apply Forall2_same_length_lookup_2; [reflexivity |].
    intros i b b' Hb Hb'. assert (b' = b) by congruence. subst. auto.
  - destruct (default [] (sc_bodies s)) as [| primary others] eqn:Hb;
      [simpl in Hmany; lia |].
    assert (Hne : others <> [])
      by (destruct others; [simpl in Hmany; lia | discriminate]).
    destruct (validate_many_bodies s true primary others Hb Hne)
      as (_ & Hsc & _).
    rewrite Hsc. cbn [set_bodies sc_bodies default].
    change (Datatypes.id ?l) with l.
    constructor; [auto |].
    rewrite validate_loop_eq. cbn [snd].
    apply Forall2_same_length_lookup_2; [rewrite length_imap; reflexivity |].
    intros i b b' Hi Hi'. rewrite list_lookup_imap, Hi in Hi'.
    injection Hi' as <-.
    destruct (check_body_frame true (default 1 (body_mass primary)) (1 + i) b)
      as (_ & Hm & Hx & Hy & _).
    auto.
Qed.

End ValidatorExtras.

Module GeneratorProofs.
Import Validator Generator ValidatorProofs ValidatorExtras.

Lemma check_fields_None i b : check_fields i b = None <-> plausible b.
Proof.
  unfold check_fields, plausible.
  destruct (decide _) as [Hm | Hm]; [split; [discriminate | lra] |].
  destruct (decide _) as [Hp | Hp]; [split; [discriminate | lra] |].
  split; [| reflexivity]. intros _. split; [lra |]. split; lra.
Qed.

Lemma check_fields_rejects i b v : check_fields i b = Some v -> fst v = false.
Proof.
  unfold check_fields. repeat destruct (decide _); intros Hv;
    try discriminate; injection Hv as <-; reflexivity.
Qed.

Lemma validate_bodies_true i bodies :
  fst (validate_bodies i bodies) = true <-> Forall plausible bodies.
Proof.
  revert i. induction bodies as [| b rest IH]; intros i; simpl.
  - split; [constructor | reflexivity].
  - destruct (check_fields i b) as [v |] eqn:Hc.
    + rewrite (check_fields_rejects i b v Hc). split; [discriminate |].
      intros Hall. apply Forall_cons in Hall. destruct Hall as [Hb _].
      apply (check_fields_None i) in Hb. congruence.
    + rewrite IH. split.
      * intros Hrest. constructor; [apply (check_fields_None i), Hc | exact Hrest].
      * intros Hall. apply Forall_cons in Hall. tauto.
Qed.

(** X7.  [validate_scenario] accepts a scenario exactly when it has at
    least two bodies and every body has a positive mass (an absent mass
    counts as 0) and coordinates [x], [y] of absolute value at most
    [1e6]; velocities play no part. *)
Theorem validate_scenario_accepts (s : Scenario) :
  fst (validate_scenario s) = true <->
  (2 <= length (default [] (sc_bodies s)))%nat /\
  Forall plausible (default [] (sc_bodies s)).
Proof.
  unfold validate_scenario.
  destruct (decide _) as [Hfew | Hmany].
  - simpl. split; [discriminate | lia].
  - rewrite validate_bodies_true. split; [intros H; split; [lia | exact H] | tauto].
Qed.


Lemma validate_bodies_ext i l l' :
  Forall2 (fun b b' => body_mass b' = body_mass b /\ body_x b' = body_x b
                       /\ body_y b' = body_y b) l l' ->
  validate_bodies i l' = validate_bodies i l.
Proof.
  intros Hall. revert i. induction Hall as [| b b' l l' (Hm & Hx & Hy) _ IH];
    intros i; [reflexivity |].
  simpl. unfold check_fields. rewrite Hm, Hx, Hy.
  repeat destruct (decide _); try reflexivity. apply IH.
Qed.

(** X8.  Fixing the velocities does not change the verdict of
    [validate_scenario]: the scenario returned by
    [fix_scenario_velocities] is accepted or rejected, with the same
    message, as the scenario given. *)
Theorem fix_preserves_validity (s : Scenario) :
  validate_scenario (snd (fix_scenario_velocities s)) = validate_scenario s.
Proof.
  rewrite fix_scenario_velocities_eq. cbn [snd].
  pose proof (fixed_bodies_positions s) as Hall.
  unfold validate_scenario.
  rewrite <- (Forall2_length _ _ _ Hall).
  destruct (decide _); [reflexivity |].
  apply validate_bodies_ext, Hall.
Qed.

End GeneratorProofs.

(** ** Properties of orbital_physics.py *)

Module OrbitalPhysicsProofs.
Import OrbitalPhysics.

Lemma G_pos : 0 < G_SOLAR.
Proof. unfold G_SOLAR, sq. pose proof PI_RGT_0. nra. Qed.

Lemma div_ret x y : y <> 0 -> div x y = ret (x / y).
Proof. intros Hy. unfold div. destruct (decide _); [contradiction | reflexivity]. Qed.

Lemma math_sqrt_ret x : 0 <= x -> math_sqrt x = ret (sqrt x).
Proof. intros Hx. unfold math_sqrt. destruct (decide _); [lra | reflexivity]. Qed.

Lemma circular_ret M r :
  0 < M -> 0 < r -> circular_orbit_velocity M r = ret (sqrt (G_SOLAR * M / r)).
Proof.
  intros HM Hr. pose proof G_pos. unfold circular_orbit_velocity.
  rewrite div_ret by lra. cbn [bind ret]. apply math_sqrt_ret.
  apply Rlt_le, Rdiv_lt_0_compat; [nra | exact Hr].
Qed.

Lemma escape_ret M r :
  0 < M -> 0 < r -> escape_velocity M r = ret (sqrt (2 * G_SOLAR * M / r)).
Proof.
  intros HM Hr. pose proof G_pos. unfold escape_velocity.
  rewrite div_ret by lra. cbn [bind ret]. apply math_sqrt_ret.
  apply Rlt_le, Rdiv_lt_0_compat; [nra | exact Hr].
Qed.

(** X9.  The unguarded helpers of [orbital_physics.py] agree with the
    guarded functions of the validator on positive arguments, and differ
    at the edge: for a zero radius they raise [ZeroDivisionError], and
    for a negative quotient [ValueError], where the validator returns 0. *)
Theorem unguarded_velocities (M r : R) :
  (0 < M -> 0 < r ->
     circular_orbit_velocity M r = ret (Validator.circular_orbit_velocity M r) /\
     escape_velocity M r = ret (Validator.escape_velocity M r)) /\
  (r = 0 ->
     circular_orbit_velocity M r = raise ZeroDivisionError /\
     escape_velocity M r = raise ZeroDivisionError /\
     Validator.circular_orbit_velocity M r = 0 /\
     Validator.escape_velocity M r = 0) /\
  (r <> 0 -> M / r < 0 ->
     circular_orbit_velocity M r = raise ValueError /\
     escape_velocity M r = raise ValueError /\
     Validator.circular_orbit_velocity M r = 0 /\
     Validator.escape_velocity M r = 0).
Proof.
  pose proof G_pos as HG.
  split; [| split].
  - intros HM Hr. rewrite circular_ret, escape_ret by assumption.
    unfold Validator.circular_orbit_velocity, Validator.escape_velocity.
    destruct (decide _) as [[H | H] | _]; [lra | lra |].
    split; reflexivity.
  - intros ->. unfold circular_orbit_velocity, escape_velocity, div,
      Validator.circular_orbit_velocity, Validator.escape_velocity.
    destruct (decide (0 = 0)) as [_ | H]; [| contradiction].
    destruct (decide (0 <= 0 \/ M <= 0)) as [_ | Hn];
      [repeat split; reflexivity | exfalso; apply Hn; left; lra].
  - intros Hr Hneg.
    assert (Hq : G_SOLAR * M / r < 0).
    { replace (G_SOLAR * M / r) with (G_SOLAR * (M / r)) by (field; exact Hr). nra. }
    assert (Hq2 : 2 * G_SOLAR * M / r < 0).
    { replace (2 * G_SOLAR * M / r) with (2 * (G_SOLAR * M / r)) by (field; exact Hr).
      lra. }
    unfold circular_orbit_velocity, escape_velocity.
    rewrite !div_ret by exact Hr. unfold math_sqrt, bind, ret.
    destruct (decide (G_SOLAR * M / r < 0)) as [_ | H]; [| contradiction].
    destruct (decide (2 * G_SOLAR * M / r < 0)) as [_ | H]; [| contradiction].
    unfold Validator.circular_orbit_velocity, Validator.escape_velocity.
    destruct (decide (r <= 0 \/ M <= 0)) as [_ | H];
      [repeat split; reflexivity |].
    exfalso. apply H.
    destruct (Rle_dec r 0) as [Hr0 | Hr0]; [left; exact Hr0 |].
    right. destruct (Rle_dec M 0) as [HM0 | HM0]; [exact HM0 |].
    exfalso. assert (0 < M / r) by (apply Rdiv_lt_0_compat; lra). lra.
Qed.

Lemma unguarded_velocities_witness :
  0 < 1 /\
  circular_orbit_velocity 1 1 = ret (Validator.circular_orbit_velocity 1 1) /\
  circular_orbit_velocity 1 0 = raise ZeroDivisionError /\
  circular_orbit_velocity (-1) 1 = raise ValueError.
Proof.
  split; [lra |].
  split; [exact (proj1 (proj1 (unguarded_velocities 1 1) ltac:(lra) ltac:(lra))) |].
  split; [exact (proj1 (proj1 (proj2 (unguarded_velocities 1 0)) eq_refl)) |].
  exact (proj1 (proj2 (proj2 (unguarded_velocities (-1) 1)) ltac:(lra) ltac:(lra))).
Defined.

(** X10.  Kepler's third law ties the helpers together: for a positive
    mass and radius, [orbital_period] returns a positive period [T], and
    the speed computed from that period by [velocity_from_period] is the
    circular velocity of [circular_orbit_velocity]. *)
Theorem period_velocity_round_trip (M r : R) :
  0 < M -> 0 < r ->
  exists T v,
    orbital_period M r = ret T /\ 0 < T /\
    circular_orbit_velocity M r = ret v /\
    velocity_from_period r T = ret v.
Proof.
  intros HM Hr. pose proof G_pos as HG. pose proof PI_RGT_0 as Hpi.
  assert (Ha : 0 < G_SOLAR * M) by nra.
  assert (Hr3 : 0 < r ^ 3) by (apply pow_lt; exact Hr).
  assert (Hq : 0 < r ^ 3 / (G_SOLAR * M)) by (apply Rdiv_lt_0_compat; assumption).
  assert (Hs : 0 < sqrt (r ^ 3 / (G_SOLAR * M))) by (apply sqrt_lt_R0; exact Hq).
  exists (2 * PI * sqrt (r ^ 3 / (G_SOLAR * M))), (sqrt (G_SOLAR * M / r)).
  split.
  { unfold orbital_period. rewrite div_ret by lra. cbn [bind ret].
    rewrite math_sqrt_ret by lra. reflexivity. }
  split; [nra |].
  split; [apply circular_ret; assumption |].
  unfold velocity_from_period. rewrite div_ret by nra. f_equal.
  assert (Hprod : sqrt (G_SOLAR * M / r) * sqrt (r ^ 3 / (G_SOLAR * M)) = r).
  { rewrite <- sqrt_mult.
    - replace (G_SOLAR * M / r * (r ^ 3 / (G_SOLAR * M))) with (r * r)
        by (field; lra).
      apply sqrt_square. lra.
    - apply Rlt_le, Rdiv_lt_0_compat; assumption.
    - lra. }
  rewrite <- Hprod at 1. field. lra.
Qed.

Lemma period_velocity_round_trip_witness :
  0 < 1 /\
  exists T v,
    orbital_period 1 1 = ret T /\ circular_orbit_velocity 1 1 = ret v /\
    velocity_from_period 1 T = ret v.
Proof.
  split; [lra |].
  destruct (period_velocity_round_trip 1 1 ltac:(lra) ltac:(lra))
    as (T & v & HT & _ & Hv & Hround).
  exists T, v. auto.
Defined.


(** X11.  [binary_velocities] conserves momentum: for positive masses
    and separation and an eccentricity in [[0, 1)] it returns a pair
    [(v1, v2)] with [mass1 * v1 + mass2 * v2 = 0], [v1 > 0 > v2], and a
    relative speed [v1 - v2] equal to the vis-viva speed at the
    periastron distance [separation * (1 - eccentricity)]. *)
Theorem binary_momentum (mass1 mass2 separation eccentricity : R) :
  0 < mass1 -> 0 < mass2 -> 0 < separation -> 0 <= eccentricity < 1 ->
  exists v1 v2,
    binary_velocities mass1 mass2 separation eccentricity = ret (v1, v2) /\
    mass1 * v1 + mass2 * v2 = 0 /\
    v2 < 0 < v1 /\
    v1 - v2 = sqrt (G_SOLAR * (mass1 + mass2)
                    * (2 / (separation * (1 - eccentricity)) - 1 / separation)).
Proof.
  intros H1 H2 Hsep [He0 He1]. pose proof G_pos as HG.
  set (r := if decide (eccentricity = 0) then separation
            else separation * (1 - eccentricity)).
  assert (Hr : r = separation * (1 - eccentricity)).
  { subst r. destruct (decide _) as [-> | _]; [ring | reflexivity]. }
  assert (Hrpos : 0 < separation * (1 - eccentricity)) by nra.
  assert (Hterm : 0 < 2 / (separation * (1 - eccentricity)) - 1 / separation).
  { replace (2 / (separation * (1 - eccentricity)) - 1 / separation)
      with ((1 + eccentricity) / (separation * (1 - eccentricity)))
      by (field; lra).
    apply Rdiv_lt_0_compat; lra. }
  set (w := G_SOLAR * (mass1 + mass2)
            * (2 / (separation * (1 - eccentricity)) - 1 / separation)) in *.
  assert (Hw : 0 < w) by (subst w; apply Rmult_lt_0_compat; nra).
  assert (Hs : 0 < sqrt w) by (apply sqrt_lt_R0; exact Hw).
  exists (sqrt w * mass2 / (mass1 + mass2)),
         (- sqrt w * mass1 / (mass1 + mass2)).
  split.
  { unfold binary_velocities. fold r. rewrite Hr.
    rewrite !div_ret by lra. cbn [bind ret].
    fold w. rewrite math_sqrt_ret by lra. cbn [bind ret].
    rewrite !div_ret by lra. reflexivity. }
  split; [field; lra |].
  split.
  - split.
    + apply Ropp_lt_cancel. rewrite Ropp_0.
      replace (- (- sqrt w * mass1 / (mass1 + mass2)))
        with (sqrt w * mass1 / (mass1 + mass2)) by (field; lra).
      apply Rdiv_lt_0_compat; nra.
    + apply Rdiv_lt_0_compat; nra.
  - field. lra.
Qed.

Lemma binary_momentum_witness :
  0 < 1 /\ 0 < 0.8 /\ 0 < 3 /\ 0 <= 0 < 1 /\
  exists v1 v2,
    binary_velocities 1 0.8 3 0 = ret (v1, v2) /\ 1 * v1 + 0.8 * v2 = 0.
Proof.
  split; [lra |]. split; [lra |]. split; [lra |]. split; [lra |].
  destruct (binary_momentum 1 0.8 3 0 ltac:(lra) ltac:(lra) ltac:(lra) ltac:(lra))
    as (v1 & v2 & Hret & Hmom & _).
  exists v1, v2. auto.
Defined.

(** X12.  For a positive mass and radius and a speed [v >= 0],
    [check_orbit_stability] returns a report that carries the values of
    [circular_orbit_velocity] and [escape_velocity], with the energy
    [0.5 v^2 - G M / r], and whose parts agree: a "WILL CRASH (too
    slow)" report is never stable and has a negative energy; a
    "circular" report is stable and has a negative energy;
    "elliptical" and "parabolic (barely bound)" reports are stable; a
    "hyperbolic (unbound)" report has a positive energy, and it is
    stable exactly when [v] is below 1.5 times the escape velocity. *)
Theorem stability_report_consistent (M r v : R) :
  0 < M -> 0 < r -> 0 <= v ->
  exists st,
    check_orbit_stability M r v = ret st /\
    circular_orbit_velocity M r = ret (st_v_circular st) /\
    escape_velocity M r = ret (st_v_escape st) /\
    st_velocity st = v /\
    st_ratio_to_circular st = v / st_v_circular st /\
    st_energy st = 0.5 * v ^ 2 - G_SOLAR * M / r /\
    (st_type st = "WILL CRASH (too slow)"%string ->
       st_is_stable st = false /\ st_energy st < 0) /\
    (st_type st = "circular"%string ->
       st_is_stable st = true /\ st_energy st < 0) /\
    (st_type st = "elliptical"%string
     \/ st_type st = "parabolic (barely bound)"%string ->
       st_is_stable st = true) /\
    (st_type st = "hyperbolic (unbound)"%string ->
       0 < st_energy st /\
       (st_is_stable st = true <-> v < st_v_escape st * 1.5)).
Proof.
  intros HM Hr Hv. pose proof G_pos as HG.
  assert (Hq : 0 < G_SOLAR * M / r) by (apply Rdiv_lt_0_compat; [nra | exact Hr]).
  set (vc := sqrt (G_SOLAR * M / r)).
  set (ve := sqrt (2 * G_SOLAR * M / r)).
  assert (Hvc : 0 < vc) by (apply sqrt_lt_R0; exact Hq).
  assert (Hve2 : ve * ve = 2 * (G_SOLAR * M / r)).
  { subst ve. rewrite sqrt_sqrt; [field; lra |].
    replace (2 * G_SOLAR * M / r) with (2 * (G_SOLAR * M / r)) by (field; lra). lra. }
  assert (Hvc2 : vc * vc = G_SOLAR * M / r) by (apply sqrt_sqrt; lra).
  assert (Hve : 0 < ve).
  { subst ve. apply sqrt_lt_R0.
    replace (2 * G_SOLAR * M / r) with (2 * (G_SOLAR * M / r)) by (field; lra). lra. }
  assert (Hcirc : 1.05 * vc < ve) by nra.
  assert (Hpow : v ^ 2 = v * v) by ring.
  assert (Hyes : vc * 0.5 <= v -> v < ve * 1.5 ->
                 bool_decide (v >= vc * 0.5) && bool_decide (v < ve * 1.5) = true).
  { intros H1 H2. rewrite !bool_decide_eq_true_2 by lra. reflexivity. }
  assert (Hno : v < vc * 0.5 ->
                bool_decide (v >= vc * 0.5) && bool_decide (v < ve * 1.5) = false).
  { intros H1. rewrite (bool_decide_eq_false_2 (v >= vc * 0.5)) by lra.
    reflexivity. }
  eexists. split.
  { unfold check_orbit_stability.
    rewrite circular_ret, escape_ret by assumption. cbn [bind ret].
    fold vc ve. rewrite (div_ret _ r) by lra. cbn [bind ret].
    rewrite (div_ret v vc) by lra. cbn [bind ret]. reflexivity. }
  cbn [st_energy st_type st_v_escape st_v_circular st_velocity
       st_ratio_to_circular st_is_stable].
  split; [apply circular_ret; assumption |].
  split; [apply escape_ret; assumption |].
  split; [reflexivity |]. split; [reflexivity |]. split; [reflexivity |].
  rewrite Hpow.
  destruct (decide (v < vc * 0.5)) as [Hslow | Hslow].
  { split; [intros _; split; [apply Hno; exact Hslow | nra] |].
    split; [discriminate |].
    split; [intros [Ht | Ht]; discriminate Ht | discriminate]. }
  destruct (decide (Rabs (v - vc) < vc * 0.05)) as [Hround | Hround].
  { apply Rabs_def2 in Hround.
    split; [discriminate |].
    split; [intros _; split; [apply Hyes; lra | nra] |].
    split; [intros [Ht | Ht]; discriminate Ht | discriminate]. }
  destruct (decide (v < ve)) as [Hell | Hell].
  { split; [discriminate |]. split; [discriminate |].
    split; [intros _; apply Hyes; lra | discriminate]. }
  destruct (decide (Rabs (v - ve) < ve * 0.01)) as [Hpar | Hpar].
  { apply Rabs_def2 in Hpar.
    split; [discriminate |]. split; [discriminate |].
    split; [intros _; apply Hyes; lra | discriminate]. }
  split; [discriminate |]. split; [discriminate |].
  split; [intros [Ht | Ht]; discriminate Ht |].
  intros _.
  assert (Hfar : ve * 1.01 <= v).
  { destruct (Rlt_dec v (ve * 1.01)) as [Hlt | Hge]; [| lra].
    exfalso. apply Hpar. apply Rabs_def1; lra. }
  split; [nra |].
  rewrite (bool_decide_eq_true_2 (v >= vc * 0.5)) by lra. cbn [andb].
  rewrite bool_decide_eq_true. reflexivity.
Qed.

(** The report for the Moon of the validator's worked example, at
    [6.396] AU/yr: hyperbolic, with a positive energy. *)
Lemma stability_report_consistent_witness :
  0 < 3.003e-6 /\ 0 < 0.00257 /\ 0 <= 6.396 /\
  exists st,
    check_orbit_stability 3.003e-6 0.00257 6.396 = ret st /\
    st_velocity st = 6.396 /\
    (st_type st = "hyperbolic (unbound)"%string -> 0 < st_energy st).
Proof.
  split; [lra |]. split; [lra |]. split; [lra |].
  destruct (stability_report_consistent 3.003e-6 0.00257 6.396
              ltac:(lra) ltac:(lra) ltac:(lra))
    as (st & Hret & _ & _ & Hv & _ & _ & _ & _ & _ & Hhyp).
  exists st. split; [exact Hret |]. split; [exact Hv |].
  intros Ht. exact (proj1 (Hhyp Ht)).
Defined.

End OrbitalPhysicsProofs.

(** ** Further properties of physics_engine.py *)

Module PhysicsExtras.
Import Physics PhysicsProofs.

(** *** Trigonometric bounds *)

Lemma sin_abs_le x : Rabs (sin x) <= Rabs x.
Proof.
  assert (Hpos : forall y, 0 < y -> Rabs (sin y) <= y).
  { intros y Hy. apply Rabs_le. split.
    - destruct (Rlt_dec y 1) as [Hlt | Hge].
      + assert (0 < sin y).
        { apply sin_gt_0; [exact Hy |]. pose proof PI2_3_2. lra. }
        lra.
      + pose proof (SIN_bound y). lra.
    - apply Rlt_le, sin_lt_x, Hy. }
  destruct (Rtotal_order x 0) as [Hneg | [-> | Hp]].
  - rewrite <- (Ropp_involutive x) at 1. rewrite sin_neg, Rabs_Ropp.
    rewrite (Rabs_left x Hneg). apply Hpos. lra.
  - rewrite sin_0, Rabs_R0. lra.
  - rewrite (Rabs_right x) by lra. apply Hpos, Hp.
Qed.


Lemma sin_lipschitz a b : Rabs (sin a - sin b) <= Rabs (a - b).
Proof.
  rewrite form4, !Rabs_mult, (Rabs_right 2) by lra.
  pose proof (sin_abs_le ((a - b) / 2)) as Hs.
  pose proof (COS_bound ((a + b) / 2)) as Hc.
  assert (Hc' : Rabs (cos ((a + b) / 2)) <= 1) by (apply Rabs_le; lra).
  assert (Hhalf : Rabs ((a - b) / 2) = Rabs (a - b) / 2).
  { unfold Rdiv. rewrite Rabs_mult, (Rabs_right (/ 2)) by lra. reflexivity. }
  rewrite Hhalf in Hs.
  pose proof (Rabs_pos (sin ((a - b) / 2))).
  pose proof (Rabs_pos (cos ((a + b) / 2))).
  pose proof (Rabs_pos (a - b)).
  nra.
Qed.

(** *** The table *)

Lemma SOLAR_SYSTEM_elements name b :
  get name SOLAR_SYSTEM = Some b ->
  0 < pl_a b /\ 0 <= pl_e b < 1 /\ 0 < pl_period b.
Proof.
  unfold SOLAR_SYSTEM. cbn [get].
  repeat (destruct (String.eqb name _);
          [intros Hb; injection Hb as <-; simpl; lra |]).
  discriminate.
Qed.

(** *** The Kepler solver *)

(** After a Newton update with correction [d], the residual of Kepler's
    equation is at most [2 e |d|]. *)
Lemma residual_after_update e M E :
  0 <= e < 1 ->
  let d := (M - E + e * sin E) / (1 - e * cos E) in
  Rabs (M - (E + d) + e * sin (E + d)) <= 2 * e * Rabs d.
Proof.
  intros [He0 He1] d.
  pose proof (COS_bound E) as Hc.
  assert (Hden : 1 - e * cos E <> 0) by nra.
  assert (Hd : d * (1 - e * cos E) = M - E + e * sin E).
  { subst d. field. exact Hden. }
  replace (M - (E + d) + e * sin (E + d))
    with (e * ((sin (E + d) - sin E) - d * cos E)) by nra.
  rewrite Rabs_mult, (Rabs_right e) by lra.
  pose proof (sin_lipschitz (E + d) E) as Hl.
  replace (E + d - E) with d in Hl by ring.
  pose proof (Rabs_triang (sin (E + d) - sin E) (- (d * cos E))) as Ht.
  rewrite Rabs_Ropp, Rabs_mult in Ht.
  assert (Hcos : Rabs (cos E) <= 1) by (apply Rabs_le; lra).
  pose proof (Rabs_pos d).
  replace (sin (E + d) - sin E - d * cos E)
    with (sin (E + d) - sin E + - (d * cos E)) by ring.
  assert (Hprod : Rabs d * Rabs (cos E) <= Rabs d) by nra.
  assert (Hsum : Rabs (sin (E + d) - sin E + - (d * cos E)) <= 2 * Rabs d) by lra.
  replace (2 * e * Rabs d) with (e * (2 * Rabs d)) by ring.
  apply Rmult_le_compat_l; [lra | exact Hsum].
Qed.

(** X13.  [solve_kepler] on a non-empty array and [0 <= e < 1] returns
    an array of the same length.  Either it used all 100 iterations and
    returns the 100th Newton iterate of every sample, or it stopped on
    the tolerance, and then every returned [E] satisfies Kepler's
    equation up to [2 e tol]: [|M - E + e sin E| <= 2 e tol]. *)
Theorem solve_kepler_residual (M : list R) (e tol : R) :
  M <> [] -> 0 <= e < 1 ->
  exists E,
    solve_kepler M e tol = ret E /\ length E = length M /\
    (E = map (fun Mk => newton_iterate e Mk 100) M \/
     forall k Mk Ek, M !! k = Some Mk -> E !! k = Some Ek ->
       Rabs (Mk - Ek + e * sin Ek) <= 2 * e * tol).
Proof.
  intros HM He.
  destruct (solve_kepler_loop_spec e tol M 100 HM 0%nat)
    as (n & Hloop & Hrange & Hpos & _ & Hafter).
  assert (Hseed : map (fun M0 => newton_iterate e M0 0) M = M)
    by (rewrite map_id; reflexivity).
  rewrite Hseed in Hloop.
  exists (map (fun Mk => newton_iterate e Mk n) M).
  split; [exact Hloop |]. split; [apply length_map |].
  destruct (decide (n = 100%nat)) as [-> | Hn]; [left; reflexivity |].
  right. intros k Mk Ek HMk HEk.
  rewrite list_lookup_fmap, HMk in HEk. injection HEk as <-.
  assert (Hconv : converged e tol M n) by (apply Hafter; lia).
  assert (Hk : Rabs (correction e Mk n) < tol).
  { unfold converged in Hconv. rewrite Forall_forall in Hconv.
    apply Hconv. apply list_elem_of_lookup. exists k. exact HMk. }
  destruct n as [| m]; [lia |].
  rewrite newton_iterate_S.
  pose proof (residual_after_update e Mk (newton_iterate e Mk m) He) as Hres.
  cbv zeta in Hres.
  assert (Hcorr : correction e Mk (S m)
                  = (Mk - newton_iterate e Mk m + e * sin (newton_iterate e Mk m))
                    / (1 - e * cos (newton_iterate e Mk m))).
  { unfold correction. cbn [Nat.sub]. rewrite Nat.sub_0_r. reflexivity. }
  rewrite <- Hcorr in Hres.
  pose proof (Rabs_pos (correction e Mk (S m))).
  destruct He. nra.
Qed.

Lemma solve_kepler_residual_witness :
  [0; 1] <> [] /\ 0 <= 0.0167 < 1 /\
  exists E, solve_kepler [0; 1] 0.0167 1e-10 = ret E /\ length E = 2%nat.
Proof.
  split; [discriminate |]. split; [lra |].
  destruct (solve_kepler_residual [0; 1] 0.0167 1e-10 ltac:(discriminate) ltac:(lra))
    as (E & Hret & Hlen & _).
  exists E. auto.
Defined.


(** *** The sampled orbit *)

Lemma conic_radius_bounds a e nu :
  0 < a -> 0 <= e < 1 ->
  a * (1 - e) <= conic_radius a e nu <= a * (1 + e).
Proof.
  intros Ha [He0 He1]. unfold conic_radius, sq.
  pose proof (COS_bound nu) as Hc.
  assert (Hden : 0 < 1 + e * cos nu) by nra.
  assert (H1 : 0 <= a * (1 - e) * (e * (1 - cos nu))).
  { apply Rmult_le_pos; [nra |]. apply Rmult_le_pos; lra. }
  assert (H2 : 0 <= a * (1 + e) * (e * (1 + cos nu))).
  { apply Rmult_le_pos; [nra |]. apply Rmult_le_pos; lra. }
  split.
  - apply Rmult_le_reg_r with (1 + e * cos nu); [exact Hden |].
    replace (a * (1 - e * e) / (1 + e * cos nu) * (1 + e * cos nu))
      with (a * (1 - e * e)) by (field; lra).
    lra.
  - apply Rmult_le_reg_r with (1 + e * cos nu); [exact Hden |].
    replace (a * (1 - e * e) / (1 + e * cos nu) * (1 + e * cos nu))
      with (a * (1 - e * e)) by (field; lra).
    lra.
Qed.

(** X14.  For a body of the table and at least one sample, every array
    returned by [compute_orbit] has [steps] entries, every radius lies
    between the perihelion [a (1 - e)] and the aphelion [a (1 + e)],
    whether or not the Newton iteration converged, every position is at
    that radius ([x^2 + y^2 = r^2]), and every speed is positive. *)
Theorem orbit_within_apsides (body_name : string) (body : Planet)
    (duration_days : R) (steps : nat) :
  get (lower body_name) SOLAR_SYSTEM = Some body ->
  (0 < steps)%nat ->
  exists od,
    compute_orbit body_name duration_days steps = ret (Some od) /\
    od_body od = body_name /\
    length (od_t od) = steps /\ length (od_r od) = steps /\
    length (od_x od) = steps /\ length (od_y od) = steps /\
    length (od_v od) = steps /\
    forall k r x y v,
      od_r od !! k = Some r -> od_x od !! k = Some x ->
      od_y od !! k = Some y -> od_v od !! k = Some v ->
      pl_a body * (1 - pl_e body) <= r <= pl_a body * (1 + pl_e body) /\
      x * x + y * y = r * r /\ 0 < v.
Proof.
  intros Hget Hsteps.
  destruct (compute_orbit_eq body_name body duration_days steps Hget Hsteps)
    as (n & elements & Heq & _).
  destruct (SOLAR_SYSTEM_elements _ _ Hget) as (Ha & He & _).
  cbv zeta in Heq. eexists. split; [exact Heq |].
  cbn [od_body od_t od_r od_x od_y od_v].
  rewrite !length_map, linspace_length.
  do 6 (split; [reflexivity |]).
  intros k r x y v Hr Hx Hy Hv.
  rewrite list_lookup_fmap in Hr, Hx, Hy, Hv.
  destruct (linspace 0 duration_days steps !! k) as [tk |]; [| discriminate].
  simpl in Hr, Hx, Hy, Hv.
  injection Hr as <-. injection Hx as <-. injection Hy as <-. injection Hv as <-.
  set (nu := true_anomaly _ _).
  pose proof (conic_radius_bounds (pl_a body) (pl_e body) nu Ha He) as Hb.
  set (r := conic_radius _ _ _) in *.
  split; [exact Hb |]. split.
  - pose proof (sin2_cos2 nu) as Hsc. unfold Rsqr in Hsc. nra.
  - apply Rmult_lt_0_compat; [| pose proof speed_factor_gt_1; lra].
    unfold vis_viva. apply sqrt_lt_R0.
    apply Rmult_lt_0_compat; [apply GM_pos |].
    assert (Hrpos : 0 < r) by (destruct He; nra).
    assert (Hlt : r < 2 * pl_a body) by (destruct He; nra).
    apply Rmult_lt_reg_r with (r * pl_a body); [nra |].
    replace ((2 / r - 1 / pl_a body) * (r * pl_a body))
      with (2 * pl_a body - r) by (field; lra).
    lra.
Qed.

Lemma orbit_within_apsides_witness :
  get (lower "Mars") SOLAR_SYSTEM
    = Some (mkPlanet 1.524 0.0934 1.85 686.97 "#ff6b35" 0.107) /\
  (0 < 500)%nat /\
  exists od,
    compute_orbit "Mars" 687 500 = ret (Some od) /\ length (od_r od) = 500%nat.
Proof.
  split; [reflexivity |]. split; [lia |].
  destruct (orbit_within_apsides "Mars" _ 687 500 eq_refl ltac:(lia))
    as (od & Hret & _ & _ & Hlen & _).
  exists od. auto.
Defined.

(** X15.  The first sample of [compute_orbit] is the perihelion on the
    positive x axis: for a body of the table and at least one sample,
    the arrays start with [t = 0], [r = a (1 - e)], [x = a (1 - e)] and
    [y = 0], for every duration. *)
Theorem orbit_starts_at_perihelion (body_name : string) (body : Planet)
    (duration_days : R) (steps : nat) :
  get (lower body_name) SOLAR_SYSTEM = Some body ->
  (0 < steps)%nat ->
  exists od t0 r0 x0 y0,
    compute_orbit body_name duration_days steps = ret (Some od) /\
    od_t od !! 0%nat = Some t0 /\ od_r od !! 0%nat = Some r0 /\
    od_x od !! 0%nat = Some x0 /\ od_y od !! 0%nat = Some y0 /\
    t0 = 0 /\ r0 = pl_a body * (1 - pl_e body) /\
    x0 = pl_a body * (1 - pl_e body) /\ y0 = 0.
Proof.
  intros Hget Hsteps.
  destruct (compute_orbit_eq body_name body duration_days steps Hget Hsteps)
    as (n & elements & Heq & _).
  destruct (SOLAR_SYSTEM_elements _ _ Hget) as (Ha & He & HP).
  destruct steps as [| m]; [lia |].
  destruct (linspace_first 0 duration_days m) as (t0 & Ht0 & Hzero).
  cbv zeta in Heq.
  eexists. exists t0. do 3 eexists. split; [exact Heq |].
  cbn [od_t od_r od_x od_y]. rewrite !list_lookup_fmap, Ht0. cbn [fmap option_fmap option_map].
  do 4 (split; [reflexivity |]).
  split; [exact Hzero |]. subst t0.
  replace (2 * PI * 0 / pl_period body) with 0 by (field; lra).
  rewrite newton_iterate_0, true_anomaly_0 by lra.
  unfold conic_radius, sq. rewrite cos_0, sin_0.
  repeat split; field; lra.
Qed.

Lemma orbit_starts_at_perihelion_witness :
  get (lower "earth") SOLAR_SYSTEM
    = Some (mkPlanet 1.000 0.0167 0.00 365.25 "#4fffb0" 1.000) /\
  (0 < 500)%nat /\
  exists od x0,
    compute_orbit "earth" 365 500 = ret (Some od) /\
    od_x od !! 0%nat = Some x0 /\ x0 = 1.000 * (1 - 0.0167).
Proof.
  split; [reflexivity |]. split; [lia |].
  destruct (orbit_starts_at_perihelion "earth" _ 365 500 eq_refl ltac:(lia))
    as (od & t0 & r0 & x0 & y0 & Hret & _ & _ & Hx & _ & _ & _ & Hx0 & _).
  exists od, x0. auto.
Defined.

(** X16.  The edges of [compute_orbit]: a name that is not in the
    table gives the value [None], whatever the duration and the number
    of samples, and raises nothing; a name of the table with zero
    samples raises [ValueError] (the maximum of an empty array). *)
Theorem compute_orbit_edges (body_name : string) (duration_days : R) :
  (get (lower body_name) SOLAR_SYSTEM = None ->
     forall steps, compute_orbit body_name duration_days steps = ret None) /\
  (get (lower body_name) SOLAR_SYSTEM <> None ->
     compute_orbit body_name duration_days 0 = raise ValueError).
Proof.
  split.
  - intros Hnone steps. unfold compute_orbit. rewrite Hnone. reflexivity.
  - intros Hsome. unfold compute_orbit.
    destruct (get (lower body_name) SOLAR_SYSTEM); [| contradiction].
    reflexivity.
Qed.

Lemma compute_orbit_edges_witness :
  get (lower "Pluto") SOLAR_SYSTEM = None /\
  compute_orbit "Pluto" 365 0 = ret None /\
  get (lower "MARS") SOLAR_SYSTEM <> None /\
  compute_orbit "MARS" 365 0 = raise ValueError.
Proof.
  split; [reflexivity |].
  split; [exact (proj1 (compute_orbit_edges "Pluto" 365) eq_refl 0%nat) |].
  assert (Hmars : get (lower "MARS") SOLAR_SYSTEM <> None) by discriminate.
  split; [exact Hmars |].
  exact (proj2 (compute_orbit_edges "MARS" 365) Hmars).
Defined.


(** *** The transfer planner *)

(** X17.  The planner is symmetric: the transfer back costs what the
    transfer out costs.  For two bodies of the table, swapping them
    swaps the two delta-v values and leaves their total and the
    transfer time unchanged. *)
Theorem hohmann_symmetric (body1 body2 : string) (b1 b2 : Planet) :
  get body1 SOLAR_SYSTEM = Some b1 ->
  get body2 SOLAR_SYSTEM = Some b2 ->
  exists out back,
    compute_hohmann body1 body2 = Some out /\
    compute_hohmann body2 body1 = Some back /\
    delta_v1 back = delta_v2 out /\ delta_v2 back = delta_v1 out /\
    total_delta_v back = total_delta_v out /\
    transfer_days back = transfer_days out.
Proof.
  intros H1 H2. unfold compute_hohmann. rewrite H1, H2.
  do 2 eexists. split; [reflexivity |]. split; [reflexivity |].
  unfold hohmann_plan.
  cbn [delta_v1 delta_v2 total_delta_v transfer_days].
  rewrite (Rplus_comm (pl_a b2) (pl_a b1)).
  rewrite (Rabs_minus_sym (sqrt (4 * sq PI / pl_a b1))).
  rewrite (Rabs_minus_sym (sqrt (4 * sq PI * (2 / pl_a b2 - 1 / ((pl_a b1 + pl_a b2) / 2))))).
  split; [reflexivity |]. split; [reflexivity |].
  split; [f_equal; apply Rplus_comm | reflexivity].
Qed.

Lemma get_mars :
  get "mars" SOLAR_SYSTEM = Some (mkPlanet 1.524 0.0934 1.85 686.97 "#ff6b35" 0.107).
Proof. reflexivity. Qed.

Lemma hohmann_symmetric_witness :
  get "earth" SOLAR_SYSTEM
    = Some (mkPlanet 1.000 0.0167 0.00 365.25 "#4fffb0" 1.000) /\
  get "mars" SOLAR_SYSTEM
    = Some (mkPlanet 1.524 0.0934 1.85 686.97 "#ff6b35" 0.107) /\
  exists out back,
    compute_hohmann "earth" "mars" = Some out /\
    compute_hohmann "mars" "earth" = Some back /\
    total_delta_v back = total_delta_v out.
Proof.
  split; [reflexivity |]. split; [reflexivity |].
  destruct (hohmann_symmetric "earth" "mars" _ _ get_earth get_mars)
    as (out & back & Ho & Hb & _ & _ & Ht & _).
  exists out, back. auto.
Defined.

Lemma linspace_last a b n :
  exists t, linspace a b (S (S n)) !! S n = Some t /\ t = b.
Proof.
  eexists. split.
  - unfold linspace. rewrite list_lookup_fmap, lookup_seq_lt by lia. reflexivity.
  - replace (0 + S n)%nat with (S n) by lia.
    replace (S (S n) - 1)%nat with (S n) by lia.
    assert (0 < INR (S n)) by (apply lt_0_INR; lia).
    field. lra.
Qed.

(** X18.  The sampled transfer path has 300 points; it starts at the
    departure radius on the positive x axis, [(r1, 0)], and ends at the
    arrival radius on the negative x axis, [(-r2, 0)]. *)
Theorem hohmann_path_endpoints (body1 body2 : string) (b1 b2 : Planet) :
  get body1 SOLAR_SYSTEM = Some b1 ->
  get body2 SOLAR_SYSTEM = Some b2 ->
  exists h x0 y0 x1 y1,
    compute_hohmann body1 body2 = Some h /\
    length (transfer_x h) = 300%nat /\ length (transfer_y h) = 300%nat /\
    transfer_x h !! 0%nat = Some x0 /\ transfer_y h !! 0%nat = Some y0 /\
    transfer_x h !! 299%nat = Some x1 /\ transfer_y h !! 299%nat = Some y1 /\
    x0 = pl_a b1 /\ y0 = 0 /\ x1 = - pl_a b2 /\ y1 = 0.
Proof.
  intros H1 H2.
  destruct (SOLAR_SYSTEM_radius _ _ H1) as [Hr1 _].
  destruct (SOLAR_SYSTEM_radius _ _ H2) as [Hr2 _].
  destruct (linspace_first 0 PI 299) as (t0 & Ht0 & Hzero).
  destruct (linspace_last 0 PI 298) as (t1 & Ht1 & Hpi).
  unfold compute_hohmann. rewrite H1, H2.
  eexists. do 4 eexists. split; [reflexivity |].
  unfold hohmann_plan. cbn [transfer_x transfer_y].
  rewrite zip_with_fmap_l, zip_with_diag.
  rewrite zip_with_fmap_l, zip_with_diag.
  rewrite !length_map, linspace_length.
  split; [reflexivity |]. split; [reflexivity |].
  rewrite !list_lookup_fmap, Ht0, Ht1. cbn [fmap option_fmap option_map].
  do 4 (split; [reflexivity |]).
  subst t0 t1. rewrite cos_0, sin_0, cos_PI, sin_PI. unfold sq.
  repeat split; field; lra.
Qed.

Lemma hohmann_path_endpoints_witness :
  get "earth" SOLAR_SYSTEM
    = Some (mkPlanet 1.000 0.0167 0.00 365.25 "#4fffb0" 1.000) /\
  get "mars" SOLAR_SYSTEM
    = Some (mkPlanet 1.524 0.0934 1.85 686.97 "#ff6b35" 0.107) /\
  exists h x1,
    compute_hohmann "earth" "mars" = Some h /\
    transfer_x h !! 299%nat = Some x1 /\ x1 = Ropp 1.524.
Proof.
  split; [reflexivity |]. split; [reflexivity |].
  destruct (hohmann_path_endpoints "earth" "mars" _ _ get_earth get_mars)
    as (h & x0 & y0 & x1 & y1 & Hh & _ & _ & _ & _ & Hx1 & _ & _ & _ & Hv & _).
  exists h, x1. split; [exact Hh |]. split; [exact Hx1 | exact Hv].
Defined.

(** *** Several orbits at once *)

(** X19.  [compute_multi_orbit] drops the names that are not in the
    table and keeps the order of the others: with at least one sample
    it returns the orbits of the known names, each labelled with the
    name as it was asked for. *)
Theorem multi_orbit_known_names (bodies : list string) (duration_days : R)
    (steps : nat) :
  (0 < steps)%nat ->
  exists results,
    compute_multi_orbit bodies duration_days steps = ret results /\
    map od_body results
    = filter (fun name => get (lower name) SOLAR_SYSTEM <> None) bodies.
Proof.
  intros Hsteps. induction bodies as [| name rest IH].
  - exists []. split; reflexivity.
  - destruct IH as (results & Hrest & Hnames).
    cbn [compute_multi_orbit]. rewrite filter_cons.
    destruct (get (lower name) SOLAR_SYSTEM) as [body |] eqn:Hget.
    + destruct (compute_orbit_eq name body duration_days steps Hget Hsteps)
        as (n & elements & Heq & _).
      cbv zeta in Heq. rewrite Heq, Hrest. cbn [bind ret].
      eexists. split; [reflexivity |].
      destruct (decide _) as [_ | Hn]; [| exfalso; apply Hn; discriminate].
      cbn [map od_body]. f_equal. exact Hnames.
    + assert (Hnone : compute_orbit name duration_days steps = ret None).
      { unfold compute_orbit. rewrite Hget. reflexivity. }
      rewrite Hnone, Hrest. cbn [bind ret].
      exists results. split; [reflexivity |].
      destruct (decide _) as [Hn | _]; [contradiction | exact Hnames].
Qed.

Lemma multi_orbit_known_names_witness :
  (0 < 10)%nat /\
  exists results,
    compute_multi_orbit ["Earth"; "Pluto"; "mars"] 365 10 = ret results /\
    map od_body results = ["Earth"; "mars"]%string.
Proof.
  split; [lia |].
  destruct (multi_orbit_known_names ["Earth"; "Pluto"; "mars"]%string 365 10
              ltac:(lia)) as (results & Hret & Hnames).
  exists results. split; [exact Hret |].
  rewrite Hnames. reflexivity.
Defined.

End PhysicsExtras.

(** ** Further properties of rebound_engine.py *)

Module ReboundExtras.
Import Rebound ReboundProofs PhysicsProofs.

Lemma py_round_nonneg x n : 0 <= x -> 0 <= py_round x n.
Proof.
  intros Hx. unfold py_round. pose proof (pow10_pos n) as Hp.
  pose proof (rint_near (x * 10 ^ n)) as [_ Hhi].
  assert (Hy : 0 <= x * 10 ^ n) by nra.
  assert (Hz : (0 <= rint (x * 10 ^ n))%Z).
  { apply Z.lt_succ_r. apply lt_IZR. rewrite succ_IZR. lra. }
  apply IZR_le in Hz. apply Rle_mult_inv_pos; [exact Hz | exact Hp].
Qed.

Section Session.

Context `{REBOUND}.

Lemma frame_bodies_length info i ps :
  length (frame_bodies info i ps) = length ps.
Proof.
  revert i. induction ps as [| p ps IH]; intros i; [reflexivity |].
  simpl. f_equal. apply IH.
Qed.

Lemma frame_bodies_lookup info i ps k p :
  ps !! k = Some p ->
  exists b,
    frame_bodies info i ps !! k = Some b /\
    bs_name b = default ("Body-" +:+ pretty (i + k)%nat)
                        (info_name <$> info !! (i + k)%nat) /\
    bs_x b = py_round (p_x p) 6 /\ bs_y b = py_round (p_y p) 6 /\
    bs_vx b = py_round (p_vx p) 6 /\ bs_vy b = py_round (p_vy p) 6 /\
    bs_mass b = py_round (p_m p) 9 /\
    bs_speed b = py_round (sqrt (sq (p_vx p) + sq (p_vy p))) 6.
Proof.
  revert i k. induction ps as [| q ps IH]; intros i k Hk; [discriminate |].
  destruct k as [| k]; simpl in Hk.
  - injection Hk as ->. eexists. split; [reflexivity |].
    rewrite Nat.add_0_r. repeat split; reflexivity.
  - destruct (IH (S i) k Hk) as (b & Hb & Hrest).
    exists b. split; [exact Hb |].
    replace (i + S k)%nat with (S i + k)%nat by lia. exact Hrest.
Qed.

Lemma frame_of_live_session_lemma (self : ReboundEngine) (σ : Store)
    (l : ref) (s : Simulation) :
  sim self = Some l -> σ !! l = Some s ->
  exists f,
    get_frame self σ = (ret f, σ) /\
    fr_N f = sim_N s /\ length (fr_bodies f) = fr_N f /\
    fr_t f = py_round (sim_t s) 6 /\
    0 <= fr_energy_drift f /\
    (E0 self = 0 -> fr_energy_drift f = 0) /\
    forall i p, sim_particles s !! i = Some p ->
      exists b,
        fr_bodies f !! i = Some b /\
        bs_name b = element_name self i /\
        bs_x b = py_round (p_x p) 6 /\ bs_y b = py_round (p_y p) 6 /\
        bs_vx b = py_round (p_vx p) 6 /\ bs_vy b = py_round (p_vy p) 6 /\
        bs_mass b = py_round (p_m p) 9 /\ 0 <= bs_speed b.
Proof.
  intros Hsim Hl. unfold get_frame, deref. rewrite Hsim, Hl. cbn [bind ret].
  eexists. split; [reflexivity |].
  cbn [fr_N fr_bodies fr_t fr_energy_drift].
  split; [reflexivity |].
  split; [apply frame_bodies_length |].
  split; [reflexivity |].
  split; [| split].
  - apply py_round_nonneg. destruct (decide _); [apply Rabs_pos | lra].
  - intros HE0. destruct (decide _) as [Hne | _]; [contradiction |].
    replace 0.0 with 0 by lra. apply py_round_0.
  - intros i p Hp.
    destruct (frame_bodies_lookup (body_info self) 0 (sim_particles s) i p Hp)
      as (b & Hb & Hname & Hx & Hy & Hvx & Hvy & Hm & Hspeed).
    exists b. split; [exact Hb |].
    split.
    { rewrite Hname. unfold element_name. cbn [Nat.add].
      destruct (body_info self !! i); reflexivity. }
    do 5 (split; [assumption |]).
    rewrite Hspeed. apply py_round_nonneg, sqrt_pos.
Qed.

(** X20.  On a loaded session [get_frame] returns a frame and leaves
    the store as it is.  The frame has one body per particle, in order,
    and [N] is their number; body [i] carries the rounded state of
    particle [i] and the name that [get_orbital_elements] uses for it;
    speeds and [energy_drift] are never negative, and [energy_drift] is
    0 when the energy recorded at load time is 0. *)
Theorem frame_of_live_session (self : ReboundEngine) (σ : Store)
    (l : ref) (s : Simulation) :
  sim self = Some l -> σ !! l = Some s ->
  exists f,
    get_frame self σ = (ret f, σ) /\
    fr_N f = sim_N s /\ length (fr_bodies f) = fr_N f /\
    fr_t f = py_round (sim_t s) 6 /\
    0 <= fr_energy_drift f /\
    (E0 self = 0 -> fr_energy_drift f = 0) /\
    forall i p, sim_particles s !! i = Some p ->
      exists b,
        fr_bodies f !! i = Some b /\
        bs_name b = element_name self i /\
        bs_x b = py_round (p_x p) 6 /\ bs_y b = py_round (p_y p) 6 /\
        bs_vx b = py_round (p_vx p) 6 /\ bs_vy b = py_round (p_vy p) 6 /\
        bs_mass b = py_round (p_m p) 9 /\ 0 <= bs_speed b.
Proof. exact (frame_of_live_session_lemma self σ l s). Qed.


(** *** Loading *)

Lemma fresh_not_in (σ : Store) : σ !! fresh (dom σ) = None.
Proof. apply not_elem_of_dom, is_fresh. Qed.

Lemma sim_add_all_length (bodies : list Validator.Body) s :
  sim_N (foldl (fun s b => sim_add s (particle_of_body b)) s bodies)
  = (sim_N s + length bodies)%nat.
Proof.
  revert s. induction bodies as [| b rest IH]; intros s; simpl; [lia |].
  rewrite IH. unfold sim_N, sim_add. simpl. rewrite length_app. simpl. lia.
Qed.

Lemma sim_add_all_time (bodies : list Validator.Body) s :
  sim_t (foldl (fun s b => sim_add s (particle_of_body b)) s bodies) = sim_t s.
Proof.
  revert s. induction bodies as [| b rest IH]; intros s; simpl; [reflexivity |].
  rewrite IH. reflexivity.
Qed.

Lemma body_infos_length k bodies : length (body_infos k bodies) = length bodies.
Proof.
  revert k. induction bodies as [| b rest IH]; intros k; [reflexivity |].
  simpl. f_equal. apply IH.
Qed.

(** What [load_scenario] leaves behind and returns when the integrator
    is known and the scenario has bodies. *)
Lemma load_scenario_ok self scenario bodies σ :
  rb_known_integrator (default "ias15"%string (Validator.sc_integrator scenario))
    = true ->
  Validator.sc_bodies scenario = Some bodies ->
  let l := fresh (dom σ) in
  exists s3 f,
    load_scenario self scenario σ
    = (ret f,
       mkEngine (Some l) (body_infos 0 bodies)
         (default 0.01 (Validator.sc_t_per_frame scenario))
         (default 200.0 (Validator.sc_scale scenario))
         (rb_energy s3) (Some scenario),
       <[l := s3]> σ) /\
    s3 = rb_move_to_com
           (foldl (fun s b => sim_add s (particle_of_body b))
              (mkSimulation 0 []
                 (if decide (default "solar"%string (Validator.sc_units scenario)
                             = "solar"%string)
                  then Some ("AU", "yr", "Msun")%string else None)
                 (default "ias15"%string (Validator.sc_integrator scenario))
                 (if decide (default 0.0 (Validator.sc_softening scenario) > 0)
                  then default 0.0 (Validator.sc_softening scenario) else 0)
                 (if decide (default "ias15"%string (Validator.sc_integrator scenario)
                               = "whfast"
                             \/ default "ias15"%string (Validator.sc_integrator scenario)
                               = "leapfrog"
                             \/ default "ias15"%string (Validator.sc_integrator scenario)
                               = "saba")%string
                  then default 0.001 (Validator.sc_dt scenario) else 0.001))
              bodies) /\
    f = mkFrame (py_round (sim_t s3) 6) (sim_N s3)
          (frame_bodies (body_infos 0 bodies) 0 (sim_particles s3)) 0 /\
    get_frame
      (mkEngine (Some l) (body_infos 0 bodies)
         (default 0.01 (Validator.sc_t_per_frame scenario))
         (default 200.0 (Validator.sc_scale scenario))
         (rb_energy s3) (Some scenario))
      (<[l := s3]> σ)
    = (ret f, <[l := s3]> σ).
Proof.
  intros Hknown Hb l. unfold load_scenario, set_integrator.
  rewrite Hknown, Hb. fold l. cbn [ret sim_t sim_particles sim_units
    sim_integrator sim_softening sim_dt new_simulation].
  set (s3 := rb_move_to_com _).
  assert (Hdrift : py_round
                     (if decide (rb_energy s3 <> 0)
                      then Rabs ((rb_energy s3 - rb_energy s3) / rb_energy s3)
                      else 0.0) 12 = 0).
  { destruct (decide (rb_energy s3 <> 0)) as [Hne | _].
    - replace ((rb_energy s3 - rb_energy s3) / rb_energy s3) with 0.
      + rewrite Rabs_R0. apply py_round_0.
      + rewrite Rminus_diag. unfold Rdiv. ring.
    - replace 0.0 with 0 by lra. apply py_round_0. }
  assert (Hframe : get_frame
            (mkEngine (Some l) (body_infos 0 bodies)
               (default 0.01 (Validator.sc_t_per_frame scenario))
               (default 200.0 (Validator.sc_scale scenario))
               (rb_energy s3) (Some scenario))
            (<[l := s3]> σ)
          = (ret (mkFrame (py_round (sim_t s3) 6) (sim_N s3)
                    (frame_bodies (body_infos 0 bodies) 0 (sim_particles s3)) 0),
             <[l := s3]> σ)).
  { unfold get_frame, deref. cbn [sim body_info E0].
    rewrite lookup_insert_eq. cbn [bind ret]. rewrite Hdrift. reflexivity. }
  exists s3. eexists. rewrite Hframe. cbn [fst snd].
  split; [reflexivity |]. split; [reflexivity |]. split; reflexivity.
Qed.

(** X21.  Loading a scenario that names an integrator the library knows
    and has bodies makes the session live on a new simulation object
    and touches no other object; the engine keeps the scenario for
    [reset] and one body info per body; the frame returned has
    [energy_drift = 0]; and when moving to the centre of mass keeps the
    particles and the time, it has [N] equal to the number of bodies and
    [t = 0]. *)
Theorem load_scenario_loads (self : ReboundEngine)
    (scenario : Validator.Scenario) (bodies : list Validator.Body) (σ : Store) :
  rb_known_integrator (default "ias15"%string (Validator.sc_integrator scenario))
    = true ->
  Validator.sc_bodies scenario = Some bodies ->
  exists f self' σ',
    load_scenario self scenario σ = (ret f, self', σ') /\
    live self' σ' /\
    (forall l s, σ !! l = Some s -> σ' !! l = Some s) /\
    initial_scenario self' = Some scenario /\
    length (body_info self') = length bodies /\
    fr_energy_drift f = 0 /\
    ((forall s, sim_N (rb_move_to_com s) = sim_N s) -> fr_N f = length bodies) /\
    ((forall s, sim_t (rb_move_to_com s) = sim_t s) -> fr_t f = 0).
Proof.
  intros Hknown Hb.
  destruct (load_scenario_ok self scenario bodies σ Hknown Hb)
    as (s3 & f & Hload & Hs3 & Hf & _).
  cbv zeta in Hload.
  do 3 eexists. split; [exact Hload |].
  split; [| split; [| split; [| split; [| split; [| split]]]]].
  - intros l Hl. cbn [sim] in Hl. injection Hl as <-.
    rewrite lookup_insert_eq. eexists; reflexivity.
  - intros l s Hl. rewrite lookup_insert_ne; [exact Hl |].
    intros <-. rewrite fresh_not_in in Hl. discriminate.
  - reflexivity.
  - cbn [body_info]. apply body_infos_length.
  - rewrite Hf. reflexivity.
  - intros Hcom. rewrite Hf. cbn [fr_N]. rewrite Hs3, Hcom, sim_add_all_length.
    reflexivity.
  - intros Hcom. rewrite Hf. cbn [fr_t]. rewrite Hs3, Hcom, sim_add_all_time.
    cbn [sim_t]. apply py_round_0.
Qed.

(** The frame of a session on a simulation without particles. *)
Lemma empty_session_frame (self : ReboundEngine) (σ : Store) (l : ref)
    (s : Simulation) :
  sim self = Some l -> σ !! l = Some s -> sim_particles s = [] ->
  exists f, get_frame self σ = (ret f, σ) /\ fr_N f = 0%nat /\ fr_bodies f = [].
Proof.
  intros Hsim Hl Hempty. unfold get_frame, deref. rewrite Hsim, Hl.
  cbn [bind ret]. eexists. split; [reflexivity |].
  unfold sim_N. rewrite Hempty. split; reflexivity.
Qed.

(** What [load_scenario] leaves behind when it raises. *)
Lemma load_scenario_fails (self : ReboundEngine)
    (scenario : Validator.Scenario) (σ : Store) :
  let known :=
    rb_known_integrator
      (default "ias15"%string (Validator.sc_integrator scenario)) in
  Validator.sc_bodies scenario = None \/ known = false ->
  exists self' σ' l s,
    load_scenario self scenario σ
    = (raise (if known then KeyError "bodies" else ValueError), self', σ') /\
    sim self' = Some l /\ σ !! l = None /\ σ' !! l = Some s /\ sim_N s = 0%nat /\
    (forall l' s', σ !! l' = Some s' -> σ' !! l' = Some s') /\
    body_info self' = body_info self /\ E0 self' = E0 self /\
    initial_scenario self' = initial_scenario self /\
    t_per_frame self'
      = (if known then default 0.01 (Validator.sc_t_per_frame scenario)
         else t_per_frame self) /\
    scale self'
      = (if known then default 200.0 (Validator.sc_scale scenario)
         else scale self) /\
    exists f, get_frame self' σ' = (ret f, σ') /\ fr_N f = 0%nat /\ fr_bodies f = [].
Proof.
  intros known Hfail. unfold load_scenario, set_integrator. fold known.
  assert (Hkeep : forall (s0 : Simulation) l' s',
             σ !! l' = Some s' -> <[fresh (dom σ) := s0]> σ !! l' = Some s').
  { intros s0 l' s' Hl'. rewrite lookup_insert_ne; [exact Hl' |].
    intros <-. rewrite fresh_not_in in Hl'. discriminate. }
  destruct known eqn:Hknown.
  - destruct Hfail as [Hb | Hk]; [| discriminate]. rewrite Hb.
    do 4 eexists. split; [reflexivity |].
    cbn [sim body_info E0 initial_scenario t_per_frame scale].
    split; [reflexivity |]. split; [apply fresh_not_in |].
    split; [apply lookup_insert_eq |]. split; [reflexivity |].
    split; [apply Hkeep |]. do 5 (split; [reflexivity |]).
    eapply empty_session_frame;
      [reflexivity | apply lookup_insert_eq | reflexivity].
  - do 4 eexists. split; [reflexivity |].
    cbn [sim body_info E0 initial_scenario t_per_frame scale].
    split; [reflexivity |]. split; [apply fresh_not_in |].
    split; [apply lookup_insert_eq |]. split; [reflexivity |].
    split; [apply Hkeep |]. do 5 (split; [reflexivity |]).
    eapply empty_session_frame;
      [reflexivity | apply lookup_insert_eq | reflexivity].
Qed.

(** X22.  Loading is not atomic.  When the scenario names an integrator
    that the library does not know the call raises [ValueError], and
    otherwise, when the scenario has no ["bodies"], it raises
    [KeyError]; in both cases the simulation of the session has already
    been replaced by a new, empty one and no other object is written:
    afterwards [get_frame] returns a frame with [N = 0] and no body,
    and the body infos, the recorded energy and the scenario kept for
    [reset] are the old ones.  [t_per_frame] and [scale] are those of
    the scenario after the [KeyError] and the old ones after the
    [ValueError]. *)
Theorem load_scenario_not_atomic (self : ReboundEngine)
    (scenario : Validator.Scenario) (σ : Store) :
  let known :=
    rb_known_integrator
      (default "ias15"%string (Validator.sc_integrator scenario)) in
  Validator.sc_bodies scenario = None \/ known = false ->
  exists self' σ' l s,
    load_scenario self scenario σ
    = (raise (if known then KeyError "bodies" else ValueError), self', σ') /\
    sim self' = Some l /\ σ !! l = None /\ σ' !! l = Some s /\ sim_N s = 0%nat /\
    (forall l' s', σ !! l' = Some s' -> σ' !! l' = Some s') /\
    body_info self' = body_info self /\ E0 self' = E0 self /\
    initial_scenario self' = initial_scenario self /\
    t_per_frame self'
      = (if known then default 0.01 (Validator.sc_t_per_frame scenario)
         else t_per_frame self) /\
    scale self'
      = (if known then default 200.0 (Validator.sc_scale scenario)
         else scale self) /\
    exists f, get_frame self' σ' = (ret f, σ') /\ fr_N f = 0%nat /\ fr_bodies f = [].
Proof. exact (load_scenario_fails self scenario σ). Qed.


(** *** Stepping *)

(** X23.  On a loaded session whose simulation has particles (the
    integrator refuses an empty one), [step] integrates the live
    simulation to the time [t + t_per_frame * n_frames], writes no
    other object, and returns the frame that [get_frame] gives
    afterwards.  When the integrator reaches the time it is asked for
    and keeps the particles, two calls with [n] and [m] frames lead to
    the same simulated time as one call with [n + m] frames. *)
Theorem step_advances (self : ReboundEngine) (σ : Store) (l : ref)
    (s : Simulation) (n : nat) :
  sim self = Some l -> σ !! l = Some s -> sim_N s <> 0%nat ->
  exists f,
    let s' := rb_integrate s (sim_t s + t_per_frame self * INR n) in
    let σ' := <[l := s']> σ in
    step self n σ = (ret f, σ') /\
    get_frame self σ' = (ret f, σ') /\
    (forall l', l' <> l -> σ' !! l' = σ !! l') /\
    ((forall s0 t, sim_t (rb_integrate s0 t) = t) ->
     (forall s0 t, sim_N (rb_integrate s0 t) = sim_N s0) ->
       fr_t f = py_round (sim_t s + t_per_frame self * INR n) 6 /\
       fr_N f = sim_N s /\
       forall m,
         (sim_t <$> snd (step self m σ') !! l)
         = (sim_t <$> snd (step self (n + m) σ) !! l)).
Proof.
  intros Hsim Hl _.
  set (s' := rb_integrate s (sim_t s + t_per_frame self * INR n)).
  destruct (frame_of_live_session_lemma self (<[l := s']> σ) l s' Hsim
              ltac:(apply lookup_insert_eq)) as (f & Hf & HfN & _ & Ht & _).
  exists f. cbv zeta. fold s'.
  assert (Hstep : step self n σ = (ret f, <[l := s']> σ)).
  { unfold step. rewrite Hsim, Hl. fold s'. exact Hf. }
  split; [exact Hstep |]. split; [exact Hf |].
  split; [intros l' Hne; apply lookup_insert_ne; congruence |].
  intros Htime HN.
  split; [rewrite Ht; subst s'; rewrite Htime; reflexivity |].
  split; [rewrite HfN; subst s'; apply HN |].
  intros m. unfold step. rewrite Hsim, Hl, lookup_insert_eq.
  unfold get_frame, deref. rewrite Hsim, !lookup_insert_eq. cbn [bind ret snd].
  rewrite !lookup_insert_eq. cbn [fmap option_fmap option_map].
  rewrite !Htime. subst s'. rewrite Htime, plus_INR. f_equal. ring.
Qed.

(** *** Reset *)

(** X24.  [reset] replays the stored scenario.  When the scenario kept
    by the engine names an integrator the library knows and has bodies,
    [reset] returns normally, the session is live on a new object and
    no other object is written; the frame of the session is then the
    frame that loading this scenario returns, whatever happened since;
    and [t_per_frame] and [scale] are again those of the scenario, so a
    speed change made on the engine is lost. *)
Theorem reset_replays (self : ReboundEngine) (σ : Store)
    (scenario : Validator.Scenario) (bodies : list Validator.Body) :
  initial_scenario self = Some scenario ->
  rb_known_integrator (default "ias15"%string (Validator.sc_integrator scenario))
    = true ->
  Validator.sc_bodies scenario = Some bodies ->
  exists self' σ',
    reset self σ = (ret tt, self', σ') /\
    live self' σ' /\
    (forall l s, σ !! l = Some s -> σ' !! l = Some s) /\
    t_per_frame self' = default 0.01 (Validator.sc_t_per_frame scenario) /\
    scale self' = default 200.0 (Validator.sc_scale scenario) /\
    initial_scenario self' = Some scenario /\
    forall self0 σ0,
      fst (get_frame self' σ') = fst (fst (load_scenario self0 scenario σ0)).
Proof.
  intros Hinit Hknown Hb.
  destruct (load_scenario_ok self scenario bodies σ Hknown Hb)
    as (s3 & f & Hload & Hs3 & Hf & Hframe).
  cbv zeta in Hload, Hframe.
  assert (Htruthy : scenario_truthy scenario = true).
  { destruct scenario as [a b c d e g h i j]. simpl in Hb. subst j.
    destruct a, b, c, d, e, g, h, i; reflexivity. }
  do 2 eexists. split.
  { unfold reset. rewrite Hinit, Htruthy, Hload. reflexivity. }
  split; [| split; [| split; [| split; [| split]]]].
  - intros l Hl. cbn [sim] in Hl. injection Hl as <-.
    rewrite lookup_insert_eq. eexists; reflexivity.
  - intros l s Hl. rewrite lookup_insert_ne; [exact Hl |].
    intros <-. rewrite fresh_not_in in Hl. discriminate.
  - reflexivity.
  - reflexivity.
  - reflexivity.
  - intros self0 σ0. rewrite Hframe. cbn [fst].
    destruct (load_scenario_ok self0 scenario bodies σ0 Hknown Hb)
      as (s3' & f' & Hload' & Hs3' & Hf' & _).
    cbv zeta in Hload'. rewrite Hload'. cbn [fst].
    rewrite Hf, Hf', Hs3, Hs3'. reflexivity.
Qed.

End Session.

Section HorizonsSession.

Context `{REBOUND}.
Variable horizons : string -> Exc Particle.

Lemma horizons_loop_ok (names : list string) (s : Simulation)
    (infos : list BodyInfo) :
  (forall name, In name names -> exists p, horizons name = inr p) ->
  exists s2 infos2,
    horizons_loop horizons names s infos = (ret tt, s2, infos2) /\
    length infos2 = (length infos + length names)%nat /\
    sim_N s2 = (sim_N s + length names)%nat.
Proof.
  revert s infos. induction names as [| name rest IH]; intros s infos Hall.
  - exists s, infos. cbn. split; [reflexivity |]. split; lia.
  - destruct (Hall name (or_introl eq_refl)) as [p Hp].
    destruct (IH (sim_add s p) (infos ++ [body_style name])
                (fun n Hn => Hall n (or_intror Hn)))
      as (s2 & infos2 & Hloop & Hlen & HN).
    exists s2, infos2. cbn [horizons_loop]. rewrite Hp.
    split; [exact Hloop |]. rewrite Hlen, HN, length_app.
    unfold sim_N, sim_add. cbn [sim_particles length]. rewrite length_app.
    cbn [length]. split; lia.
Qed.

(** X25.  A session loaded from Horizons cannot be reset.  When the
    library knows the integrator and the service returns every body,
    [load_from_horizons] returns a frame with no energy drift and keeps
    one body info per name; but the dictionary it stores for [reset]
    has no ["bodies"], so [reset] then raises [KeyError] and leaves the
    session on a new simulation without particles, with the body infos
    of the lost one. *)
Theorem reset_after_horizons (self : ReboundEngine) (names : list string)
    (integrator : string) (σ : Store) :
  rb_known_integrator integrator = true ->
  (forall name, In name names -> exists p, horizons name = inr p) ->
  exists f self' σ',
    load_from_horizons horizons self names integrator σ = (ret f, self', σ') /\
    live self' σ' /\
    length (body_info self') = length names /\
    fr_energy_drift f = 0 /\
    exists self'' σ'' l s,
      reset self' σ' = (raise (KeyError "bodies"), self'', σ'') /\
      sim self'' = Some l /\ sim self'' <> sim self' /\
      σ'' !! l = Some s /\ sim_N s = 0%nat /\
      body_info self'' = body_info self' /\
      exists f', get_frame self'' σ'' = (ret f', σ'') /\ fr_N f' = 0%nat.
Proof.
  intros Hknown Hall. unfold load_from_horizons, set_integrator.
  rewrite Hknown. cbn [ret sim_t sim_particles sim_units sim_integrator
    sim_softening sim_dt new_simulation].
  set (l := fresh (dom σ)).
  set (s1 := mkSimulation _ _ _ _ _ _).
  destruct (horizons_loop_ok names s1 [] Hall) as (s2 & infos & Hloop & Hlen & _).
  rewrite Hloop. cbn [ret].
  set (s3 := rb_move_to_com s2).
  set (self' := mkEngine (Some l) infos 0.005 200.0 (rb_energy s3)
                  (Some (horizons_scenario integrator))).
  set (σ' := <[l := s3]> σ).
  assert (Hσ' : σ' !! l = Some s3) by apply lookup_insert_eq.
  destruct (frame_of_live_session_lemma self' σ' l s3 eq_refl Hσ')
    as (f & Hf & _).
  assert (Hdrift : fr_energy_drift f = 0).
  { unfold get_frame, deref in Hf. cbn [sim self'] in Hf. rewrite Hσ' in Hf.
    cbn [bind ret E0 self'] in Hf. injection Hf as <-. cbn [fr_energy_drift].
    destruct (decide (rb_energy s3 <> 0)) as [Hne | _].
    - replace ((rb_energy s3 - rb_energy s3) / rb_energy s3) with 0.
      + rewrite Rabs_R0. apply py_round_0.
      + rewrite Rminus_diag. unfold Rdiv. ring.
    - replace 0.0 with 0 by lra. apply py_round_0. }
  exists f, self', σ'. rewrite Hf. cbn [fst snd].
  split; [reflexivity |].
  split; [intros l0 Hl0; cbn in Hl0; injection Hl0 as <-; eexists; exact Hσ' |].
  split; [exact Hlen |]. split; [exact Hdrift |].
  destruct (load_scenario_fails self' (horizons_scenario integrator) σ'
              (or_introl eq_refl))
    as (self'' & σ'' & l2 & s & Hload & Hsim & Hfresh & Hs & HN & _ & Hinfo
        & _ & _ & _ & _ & Hfr).
  change (default "ias15"%string
            (Validator.sc_integrator (horizons_scenario integrator)))
    with integrator in Hload.
  rewrite Hknown in Hload.
  exists self'', σ'', l2, s.
  split.
  { unfold reset. cbn [initial_scenario self' horizons_scenario scenario_truthy].
    change (Validator.mkScenario None None None (Some integrator) None None None
              None None) with (horizons_scenario integrator).
    rewrite Hload. reflexivity. }
  split; [exact Hsim |].
  split.
  { rewrite Hsim. cbn [sim self']. intros [= ->]. rewrite Hσ' in Hfresh.
    discriminate. }
  split; [exact Hs |]. split; [exact HN |]. split; [exact Hinfo |].
  destruct Hfr as (f' & Hf' & HN' & _). exists f'. split; assumption.
Qed.

End HorizonsSession.

Lemma step_advances_witness :
  sim loaded = Some 1%positive /\
  ({[ 1%positive := two_bodies ]} : Store) !! 1%positive = Some two_bodies /\
  sim_N two_bodies <> 0%nat /\
  exists f σ',
    @step free_drift loaded 3 {[ 1%positive := two_bodies ]} = (ret f, σ') /\
    fr_t f = py_round (0 + 0.01 * INR 3) 6 /\ fr_N f = 2%nat.
Proof.
  assert (Hl : ({[ 1%positive := two_bodies ]} : Store) !! 1%positive
               = Some two_bodies) by apply lookup_singleton_eq.
  assert (HN : sim_N two_bodies <> 0%nat) by discriminate.
  split; [reflexivity |]. split; [exact Hl |]. split; [exact HN |].
  destruct (@step_advances free_drift loaded _ 1%positive two_bodies 3
              eq_refl Hl HN) as (f & Hstep & _ & _ & Htime).
  exists f. eexists. split; [exact Hstep |].
  destruct (Htime (fun s0 t => eq_refl) free_drift_keeps_N) as (Ht & HfN & _).
  split; [exact Ht | exact HfN].
Defined.

Lemma reset_replays_witness :
  initial_scenario (mkEngine None [] 0.5 1 0 (Some Validator.moon_example))
    = Some Validator.moon_example /\
  @rb_known_integrator free_drift
    (default "ias15"%string (Validator.sc_integrator Validator.moon_example))
    = true /\
  Validator.sc_bodies Validator.moon_example
    = Some [Validator.earth; Validator.moon] /\
  exists self' σ',
    @reset free_drift (mkEngine None [] 0.5 1 0 (Some Validator.moon_example)) ∅
      = (ret tt, self', σ') /\
    t_per_frame self' = 0.01.
Proof.
  split; [reflexivity |]. split; [reflexivity |]. split; [reflexivity |].
  destruct (@reset_replays free_drift
              (mkEngine None [] 0.5 1 0 (Some Validator.moon_example)) ∅
              Validator.moon_example _ eq_refl eq_refl eq_refl)
    as (self' & σ' & Hreset & _ & _ & Htpf & _).
  exists self', σ'. split; [exact Hreset | exact Htpf].
Defined.

Lemma reset_after_horizons_witness :
  @rb_known_integrator free_drift "whfast" = true /\
  (forall name, In name ["Sun"; "Earth"]%string ->
     exists p, (fun _ : string => ret star) name = inr p) /\
  exists f self' σ' self'' σ'',
    @load_from_horizons free_drift (fun _ => ret star) init
      ["Sun"; "Earth"]%string "whfast" ∅ = (ret f, self', σ') /\
    @reset free_drift self' σ' = (raise (KeyError "bodies"), self'', σ'').
Proof.
  assert (Hall : forall name, In name ["Sun"; "Earth"]%string ->
                   exists p, (fun _ : string => ret star) name = inr p).
  { intros name _. exists star. reflexivity. }
  split; [reflexivity |]. split; [exact Hall |].
  destruct (@reset_after_horizons free_drift (fun _ => ret star) init
              ["Sun"; "Earth"]%string "whfast" ∅ eq_refl Hall)
    as (f & self' & σ' & Hload & _ & _ & _ & self'' & σ'' & l & s & Hreset & _).
  exists f, self', σ', self'', σ''. split; [exact Hload | exact Hreset].
Defined.

Lemma frame_of_live_session_witness :
  sim loaded = Some 1%positive /\
  ({[ 1%positive := two_bodies ]} : Store) !! 1%positive = Some two_bodies /\
  exists f,
    @get_frame free_drift loaded {[ 1%positive := two_bodies ]}
      = (ret f, {[ 1%positive := two_bodies ]}) /\
    fr_N f = 2%nat.
Proof.
  assert (Hl : ({[ 1%positive := two_bodies ]} : Store) !! 1%positive
               = Some two_bodies) by apply lookup_singleton_eq.
  split; [reflexivity |]. split; [exact Hl |].
  destruct (@frame_of_live_session free_drift loaded _ 1%positive two_bodies
              eq_refl Hl) as (f & Hf & HN & _).
  exists f. split; [exact Hf | exact HN].
Defined.


Lemma load_scenario_loads_witness :
  @rb_known_integrator free_drift
    (default "ias15"%string (Validator.sc_integrator Validator.moon_example))
    = true /\
  Validator.sc_bodies Validator.moon_example
    = Some [Validator.earth; Validator.moon] /\
  exists f self' σ',
    @load_scenario free_drift init Validator.moon_example ∅ = (ret f, self', σ') /\
    fr_energy_drift f = 0 /\ fr_N f = 2%nat.
Proof.
  split; [reflexivity |]. split; [reflexivity |].
  destruct (@load_scenario_loads free_drift init Validator.moon_example _ ∅
              eq_refl eq_refl)
    as (f & self' & σ' & Hload & _ & _ & _ & _ & Hdrift & HN & _).
  exists f, self', σ'. split; [exact Hload |]. split; [exact Hdrift |].
  apply HN. intros s. reflexivity.
Defined.

(** A scenario with bodies that names an integrator the stand-in does
    not know, loaded on a running session. *)
Lemma load_scenario_not_atomic_witness :
  (Validator.sc_bodies
     (Validator.mkScenario None None None (Some "euler"%string) None None None
        None (Some [Validator.earth; Validator.moon])) = None \/
   @rb_known_integrator free_drift "euler" = false) /\
  exists self' σ',
    @load_scenario free_drift loaded
      (Validator.mkScenario None None None (Some "euler"%string) None None None
         None (Some [Validator.earth; Validator.moon]))
      {[ 1%positive := two_bodies ]}
    = (raise ValueError, self', σ') /\
    body_info self' = body_info loaded /\ sim self' <> sim loaded.
Proof.
  assert (Hfail : Validator.sc_bodies
     (Validator.mkScenario None None None (Some "euler"%string) None None None
        None (Some [Validator.earth; Validator.moon])) = None \/
   @rb_known_integrator free_drift "euler" = false) by (right; reflexivity).
  split; [exact Hfail |].
  destruct (@load_scenario_not_atomic free_drift loaded
              (Validator.mkScenario None None None (Some "euler"%string) None
                 None None None (Some [Validator.earth; Validator.moon]))
              {[ 1%positive := two_bodies ]} Hfail)
    as (self' & σ' & l & s & Hload & Hsim & Hfresh & _ & _ & _ & Hinfo & _).
  exists self', σ'. split; [exact Hload |]. split; [exact Hinfo |].
  rewrite Hsim. intros [= ->].
  rewrite lookup_singleton_eq in Hfresh. discriminate.
Defined.

End ReboundExtras.
